(** * tosc: a distributed shared-object store with optimistic MVCC

    A shallow embedding of the Python package [tosc] (Manager, Transaction,
    distributed-object proxies, the pickler hooks and the in-process and
    filesystem backends), followed by the properties established about it.

    Conventions of the embedding.
    - Python code that mutates state and may raise is a function
      [S -> result A * S]: the state reached when the exception left the
      function is kept, as in Python.
    - Every [DObject] lives in an object store ([heap]) and is named by its
      address; the two dictionaries [objmap] and [new_objmap] of a Manager
      live in a dictionary store ([dicts]) and are named by a location, so
      that [self.new_objmap = self.objmap] really aliases them.
    - Plain Python containers (list, set, dict, bytearray, tuple, frozenset)
      are modelled by value.  Sets and dictionaries keep their iteration
      order.
    - The model is sequential: the Manager lock, the watcher thread and
      [target_wait] are not modelled.  The only trace of the watcher is the
      flag [needs_update], which is part of the state. *)

From Stdlib Require Import ZArith QArith.
From stdpp Require Import gmap strings list.

Local Open Scope Z_scope.
Set Warnings "-register-all".

(** ** Exceptions and the state-and-exception monad *)

Inductive exn :=
| ValueError | KeyError | TypeError | AttributeError | IndexError
| EOFError | PicklingError | UnpicklingError | RecursionError | StructError
| TransactionError | TransactionRetryError | TransactionTimeoutError
| OSError (errno : Z)      (* I/O failure inside a backend *)
| UserError (code : Z).    (* an exception of the calling code *)

Global Instance exn_eq_dec : EqDecision exn.
Proof. solve_decision. Defined.

Inductive result (A : Type) := Ok (a : A) | Raise (e : exn).
Arguments Ok {A} a.
Arguments Raise {A} e.

Definition M (S A : Type) : Type := S → result A * S.

Definition ret {S A} (a : A) : M S A := λ s, (Ok a, s).
Definition raise {S A} (e : exn) : M S A := λ s, (Raise e, s).
Definition bind {S A B} (m : M S A) (k : A → M S B) : M S B :=
  λ s, match m s with
       | (Ok a, s') => k a s'
       | (Raise e, s') => (Raise e, s')
       end.
Definition get {S} : M S S := λ s, (Ok s, s).
Definition gets {S A} (f : S → A) : M S A := λ s, (Ok (f s), s).
Definition modify {S} (f : S → S) : M S unit := λ s, (Ok tt, f s).

(** [try: m except Exception: h] *)
Definition try_except {S A} (m : M S A) (h : exn → M S A) : M S A :=
  λ s, match m s with
       | (Ok a, s') => (Ok a, s')
       | (Raise e, s') => h e s'
       end.

Notation "'let!' x ':=' m 'in' k" := (bind m (λ x, k))
  (at level 10, x pattern, m at level 100, k at level 200).
Notation "m ';;' k" := (bind m (λ _, k))
  (at level 100, k at level 200, right associativity).

(** Monadic map over a list, left to right (a generator expression
    consumed by a constructor). *)
Definition map_M {S A C} (f : A → M S C) : list A → M S (list C) :=
  fix go l :=
    match l with
    | [] => ret []
    | x :: l' => let! y := f x in let! ys := go l' in ret (y :: ys)
    end.

(** ** Python values *)

Definition addr := nat.      (* identity of a DObject *)
Definition loc := nat.       (* identity of a dict held by the Manager *)
Definition uid := string.    (* participant id *)

(** A user class is represented by its method resolution order without the
    final [object]; the head is the class itself. *)
Definition pyclass := list string.

(** Floats: only what the code needs, comparison with zero and addition. *)
Inductive pyfloat := FNan | FInf (neg : bool) | FFin (q : Q).

(** The classes built by [_make_dbuiltin], and [DObject] itself. *)
Inductive dclass := DList | DSet | DDict | DByteArray | DObjectBase.

Global Instance dclass_eq_dec : EqDecision dclass.
Proof. solve_decision. Defined.

(** What can stand where a class or a callable is expected: a user class,
    one of the distributed classes, or the function [_make_any]. *)
Inductive classref := CUser (c : pyclass) | CDType (k : dclass) | CMakeAny.

Inductive value :=
| VNone
| VBool (b : bool)
| VInt (z : Z)
| VFloat (f : pyfloat)
| VStr (s : string)
| VBytes (b : list Z)
| VTuple (l : list value)
| VFrozenset (l : list value)
| VList (l : list value)
| VSet (l : list value)
| VDict (l : list (value * value))
| VByteArray (b : list Z)
| VRef (a : addr)                                  (* a DObject *)
| VInst (c : pyclass) (attrs : list (string * value))   (* instance of a user class, with its __dict__ *)
| VDAny (c : pyclass) (keys : list string) (values : addr)
    (* instance of the class built by [_make_any] for [c]: one DDescriptor
       (values, index) per key, in order *)
| VWrapper (c : pyclass) (attrs : list (string * value))  (* dpickler._Wrapper *)
| VClass (c : classref)                            (* a class object, or _make_any *)
| VOpaque                                          (* an object pickle refuses: a lock, a thread *)
| VMgr.                                            (* the Manager *)

(** The only Manager of the model. *)
Inductive mgr_ref := this_mgr.

Global Instance mgr_ref_eq_dec : EqDecision mgr_ref.
Proof. solve_decision. Defined.

(** dtypes.DObject: the instance attributes. *)
Record DObject := mkDObject {
  cls : dclass;
  subobj : value;
  xid : Z;
  dmgr : option mgr_ref;
  dversion : Z;                 (* DObject.version *)
}.

(** The pickle stream, as the tree of what the pickler saved. *)
Inductive pk :=
| PNone
| PBool (b : bool)
| PInt (z : Z)
| PFloat (f : pyfloat)
| PStr (s : string)
| PBytes (b : list Z)
| PTuple (l : list pk)
| PFrozenset (l : list pk)
| PList (l : list pk)
| PSet (l : list pk)
| PDict (l : list (pk * pk))
| PByteArray (b : list Z)
| PPersId (pid : Z)                          (* persistent id *)
| PGlobal (c : pyclass)                      (* a class saved by reference *)
| PNewObj (c : pk) (state : pk)              (* object.__reduce_ex__: c.__new__(c), then the state *)
| PReduce (f : pk) (args : list pk) (state : pk).  (* __reduce__: f applied to args, then __setstate__(state) *)

Definition blob := pk.

(** manager.NIL, or an object. *)
Inductive slot := NIL | Obj (v : value).

(** ** Backends *)

(** The contract of backends/base.py.  [backend_read] returns the pair
    (VERSION, DATA), either of which may be [None]. *)
Class Backend (B : Type) := {
  backend_set_id : option uid → M B unit;
  backend_read : M B (option Z * option blob);
  backend_write : blob → M B Z;
  backend_try_write : blob → Z → M B (bool * Z);
}.

(** *** backends/base.py *)

Record BaseBackend := mkBaseBackend { base_unique_id : option uid }.

Definition BaseBackend_init : BaseBackend := mkBaseBackend None.

Definition BaseBackend_set_id (unique_id : option uid) : M BaseBackend unit :=
  λ self,
    if bool_decide (base_unique_id self ≠ None) && bool_decide (unique_id ≠ None)
    then (Raise ValueError, self)
    else (Ok tt, mkBaseBackend unique_id).

(** *** backends/inproc.py *)

Record InprocData := mkInprocData {
  data_version : Z;
  bvec : option blob;
  notifier : option uid;
}.

Record InprocBackend := mkInprocBackend {
  inproc_base : BaseBackend;
  data : InprocData;
}.

Definition InprocBackend_init : InprocBackend :=
  mkInprocBackend BaseBackend_init (mkInprocData 0 None None).

Definition lift_base {S} (getb : S → BaseBackend) (setb : BaseBackend → S → S)
    {A} (m : M BaseBackend A) : M S A :=
  λ s, let '(r, b) := m (getb s) in (r, setb b s).

Definition InprocBackend_set_id (unique_id : option uid) : M InprocBackend unit :=
  lift_base inproc_base (λ b s, mkInprocBackend b (data s))
            (BaseBackend_set_id unique_id).

Definition InprocBackend_read : M InprocBackend (option Z * option blob) :=
  λ self,
    match bvec (data self) with
    | None => (Ok (None, None), self)
    | Some b => (Ok (Some (data_version (data self)), Some b), self)
    end.

Definition InprocBackend__notify (new : blob) : M InprocBackend Z :=
  λ self,
    let d := data self in
    let d' := mkInprocData (data_version d + 1) (Some new)
                           (base_unique_id (inproc_base self)) in
    (Ok (data_version d'), mkInprocBackend (inproc_base self) d').

Definition InprocBackend_write (new : blob) : M InprocBackend Z :=
  InprocBackend__notify new.

Definition InprocBackend_try_write (new : blob) (expected : Z)
    : M InprocBackend (bool * Z) :=
  λ self,
    if bool_decide (data_version (data self) ≠ expected)
    then (Ok (false, data_version (data self)), self)
    else (let! v := InprocBackend__notify new in ret (true, v)) self.

Global Instance InprocBackend_Backend : Backend InprocBackend := {
  backend_set_id := InprocBackend_set_id;
  backend_read := InprocBackend_read;
  backend_write := InprocBackend_write;
  backend_try_write := InprocBackend_try_write;
}.

(** *** backends/file.py

    The file at [path] is kept decoded: the 40-byte header
    [pack ("<Q32s", version, unique_id)] as the pair (version, id), followed
    by the payload.  [dir_writable] is the part of the environment that
    decides whether the lock file and the temporary file can be created. *)

Record StoredFile := mkStoredFile {
  file_version : Z;
  file_uid : uid;
  file_payload : blob;
}.

Record FileBackend := mkFileBackend {
  file_base : BaseBackend;
  file : option StoredFile;          (* None: FileNotFoundError *)
  dir_writable : bool;
}.

Definition FileBackend_init (f : option StoredFile) (writable : bool) : FileBackend :=
  mkFileBackend BaseBackend_init f writable.

Definition FileBackend_set_id (unique_id : option uid) : M FileBackend unit :=
  lift_base file_base (λ b s, mkFileBackend b (file s) (dir_writable s))
            (BaseBackend_set_id unique_id).

Definition FileBackend__get_version : M FileBackend Z :=
  λ self,
    match file self with
    | Some f => (Ok (file_version f), self)
    | None => (Ok 0, self)
    end.

Definition FileBackend_read : M FileBackend (option Z * option blob) :=
  λ self,
    match file self with
    | Some f => (Ok (Some (file_version f), Some (file_payload f)), self)
    | None => (Ok (Some 0, None), self)
    end.

(** [pack ("<Q32s", version, self.unique_id)], written to the temporary
    file and renamed over [path]. *)
Definition FileBackend_store (version : Z) (new : blob) : M FileBackend unit :=
  λ self,
    match base_unique_id (file_base self) with
    | None => (Raise StructError, self)
    | Some u =>
        if bool_decide (0 ≤ version < 2 ^ 64)
        then (Ok tt, mkFileBackend (file_base self)
                       (Some (mkStoredFile version u new)) (dir_writable self))
        else (Raise StructError, self)
    end.

(** [with self.lock, self._tempfile () as fm:] *)
Definition FileBackend_locked {A} (body : M FileBackend A) : M FileBackend A :=
  λ self, if dir_writable self then body self else (Raise (OSError 13), self).

Definition FileBackend_write (new : blob) : M FileBackend Z :=
  FileBackend_locked (
    let! v := FileBackend__get_version in
    let version := v + 1 in
    FileBackend_store version new ;;
    ret version).

Definition FileBackend_try_write (new : blob) (expected : Z)
    : M FileBackend (bool * Z) :=
  FileBackend_locked (
    let! version := FileBackend__get_version in
    if bool_decide (version ≠ expected) then ret (false, version)
    else
      let expected := expected + 1 in
      FileBackend_store expected new ;;
      ret (true, expected)).

Global Instance FileBackend_Backend : Backend FileBackend := {
  backend_set_id := FileBackend_set_id;
  backend_read := FileBackend_read;
  backend_write := FileBackend_write;
  backend_try_write := FileBackend_try_write;
}.

(** ** The state of one participant *)

(** transaction.Transaction.  [objs] is the dict xid -> (obj, prev), in
    insertion order; [dmgr] is the Manager of the world. *)
Record Transaction := mkTransaction {
  objs : list (Z * (addr * value));
  depth : Z;
  tversion : Z;                 (* Transaction.version *)
}.

(** manager.Manager.  [cur_trans] is either None or [_saved_tr], the only
    value ever stored in it.  The lock, the buffer [iov] and the watcher
    thread are left out. *)
Record Manager := mkManager {
  unique_id : uid;
  root_obj : slot;
  _xid : Z;
  objmap : loc;
  new_objmap : loc;
  cur_trans : bool;
  needs_update : bool;
  version : Z;
  _saved_tr : Transaction;
}.

Record World (B : Type) := mkWorld {
  heap : gmap addr DObject;            (* the DObjects, by identity *)
  dicts : gmap loc (gmap Z addr);      (* the dicts of the Manager, by identity *)
  mgr : Manager;
  backend : B;
  ticks : nat;                         (* calls of time () so far *)
}.
Arguments mkWorld {B}.
Arguments heap {B}.
Arguments dicts {B}.
Arguments mgr {B}.
Arguments backend {B}.
Arguments ticks {B}.

(** What the interpreter and the machine contribute: the depth at which
    recursion is cut off and the readings of the clock. *)
Class Env := {
  recursion_limit : nat;
  clock : nat → Q;
}.

(** *** Field updates *)

Definition set_heap {B} (f : gmap addr DObject → gmap addr DObject) (w : World B) :=
  mkWorld (f (heap w)) (dicts w) (mgr w) (backend w) (ticks w).
Definition set_dicts {B} (f : gmap loc (gmap Z addr) → gmap loc (gmap Z addr)) (w : World B) :=
  mkWorld (heap w) (f (dicts w)) (mgr w) (backend w) (ticks w).
Definition set_mgr {B} (f : Manager → Manager) (w : World B) :=
  mkWorld (heap w) (dicts w) (f (mgr w)) (backend w) (ticks w).
Definition set_backend {B} (b : B) (w : World B) :=
  mkWorld (heap w) (dicts w) (mgr w) b (ticks w).
Definition set_ticks {B} (n : nat) (w : World B) :=
  mkWorld (heap w) (dicts w) (mgr w) (backend w) n.

Definition with_root_obj (r : slot) (m : Manager) :=
  mkManager (unique_id m) r (_xid m) (objmap m) (new_objmap m) (cur_trans m)
            (needs_update m) (version m) (_saved_tr m).
Definition with__xid (x : Z) (m : Manager) :=
  mkManager (unique_id m) (root_obj m) x (objmap m) (new_objmap m) (cur_trans m)
            (needs_update m) (version m) (_saved_tr m).
Definition with_objmap (l : loc) (m : Manager) :=
  mkManager (unique_id m) (root_obj m) (_xid m) l (new_objmap m) (cur_trans m)
            (needs_update m) (version m) (_saved_tr m).
Definition with_new_objmap (l : loc) (m : Manager) :=
  mkManager (unique_id m) (root_obj m) (_xid m) (objmap m) l (cur_trans m)
            (needs_update m) (version m) (_saved_tr m).
Definition with_cur_trans (c : bool) (m : Manager) :=
  mkManager (unique_id m) (root_obj m) (_xid m) (objmap m) (new_objmap m) c
            (needs_update m) (version m) (_saved_tr m).
Definition with_needs_update (n : bool) (m : Manager) :=
  mkManager (unique_id m) (root_obj m) (_xid m) (objmap m) (new_objmap m) (cur_trans m)
            n (version m) (_saved_tr m).
Definition with_version (v : Z) (m : Manager) :=
  mkManager (unique_id m) (root_obj m) (_xid m) (objmap m) (new_objmap m) (cur_trans m)
            (needs_update m) v (_saved_tr m).
Definition with_tr (f : Transaction → Transaction) (m : Manager) :=
  mkManager (unique_id m) (root_obj m) (_xid m) (objmap m) (new_objmap m) (cur_trans m)
            (needs_update m) (version m) (f (_saved_tr m)).

Definition with_subobj (v : value) (d : DObject) :=
  mkDObject (cls d) v (xid d) (dmgr d) (dversion d).
Definition with_xid (x : Z) (d : DObject) :=
  mkDObject (cls d) (subobj d) x (dmgr d) (dversion d).
Definition with_dmgr (m : option mgr_ref) (d : DObject) :=
  mkDObject (cls d) (subobj d) (xid d) m (dversion d).
Definition with_dversion (v : Z) (d : DObject) :=
  mkDObject (cls d) (subobj d) (xid d) (dmgr d) v.

(** *** Python dicts that are iterated: association lists in insertion order *)

Fixpoint dict_get {V} (k : Z) (d : list (Z * V)) : option V :=
  match d with
  | [] => None
  | (k', v) :: d' => if bool_decide (k = k') then Some v else dict_get k d'
  end.

(** [d[k] = v]: the value is replaced where the key is, or the item is
    appended. *)
Fixpoint dict_set {V} (k : Z) (v : V) (d : list (Z * V)) : list (Z * V) :=
  match d with
  | [] => [(k, v)]
  | (k', v') :: d' =>
      if bool_decide (k = k') then (k, v) :: d' else (k', v') :: dict_set k v d'
  end.

(** [for x in l: body x] *)
Definition forM_ {S A} (body : A → M S unit) : list A → M S unit :=
  fix go l :=
    match l with
    | [] => ret tt
    | x :: l' => body x ;; go l'
    end.

(** An object on which no attribute has been set yet. *)
Definition blank (k : dclass) : DObject := mkDObject k VNone 0 None 0.

Definition deref {B} (w : World B) (a : addr) : DObject :=
  default (blank DObjectBase) (heap w !! a).

Definition dict_at {B} (w : World B) (l : loc) : gmap Z addr :=
  default ∅ (dicts w !! l).

(** ** One participant: Manager, proxies, pickler, transaction *)

Section Participant.
Context {B : Type} {BK : Backend B} {EV : Env}.

Abbreviation Mw := (M (World B)).

(** A backend call from the Manager. *)
Definition on_backend {A} (m : M B A) : Mw A :=
  λ w, let '(r, b) := m (backend w) in (r, set_backend b w).

(** [time ()] *)
Definition time : Mw Q :=
  λ w, (Ok (clock (ticks w)), set_ticks (S (ticks w)) w).

(** Attribute access on a DObject. *)
Definition getattr {A} (self : addr) (f : DObject → A) : Mw A :=
  gets (λ w, f (deref w self)).
Definition setattr (self : addr) (f : DObject → DObject) : Mw unit :=
  modify (λ w, set_heap (insert self (f (deref w self))) w).

(** A new object, a new empty dict. *)
Definition alloc (d : DObject) : Mw addr :=
  λ w, let a := fresh (dom (heap w)) in (Ok a, set_heap (insert a d) w).
Definition new_dict : Mw loc :=
  λ w, let l := fresh (dom (dicts w)) in (Ok l, set_dicts (insert l ∅) w).

Definition mgr_get {A} (f : Manager → A) : Mw A := gets (λ w, f (mgr w)).
Definition mgr_set (f : Manager → Manager) : Mw unit := modify (set_mgr f).

(** *** manager.py: identities and linking *)

(** The property [Manager.xid]. *)
Definition Manager_xid : Mw Z :=
  let! r := mgr_get _xid in
  mgr_set (with__xid (r + 1)) ;;
  ret r.

Definition Manager_is_linked (obj : value) : Mw bool :=
  match obj with
  | VRef a =>
      gets (λ w, bool_decide (is_Some (dict_at w (objmap (mgr w)) !! xid (deref w a))))
  | _ => ret false
  end.

(** [Transaction.is_traced] *)
Definition Transaction_is_traced (obj : addr) : Mw bool :=
  gets (λ w, bool_decide (is_Some (dict_get (xid (deref w obj)) (objs (_saved_tr (mgr w)))))).

Definition Manager_is_dirty (obj : value) : Mw bool :=
  let! tr := mgr_get cur_trans in
  match obj with
  | VRef a => if tr then Transaction_is_traced a else ret false
  | _ => ret false
  end.

Definition Manager_link (obj : addr) : Mw unit :=
  let! x := getattr obj xid in
  let! x :=
    (if bool_decide (x = 0) then
       let! n := Manager_xid in
       setattr obj (with_xid n) ;;
       ret n
     else
       let! tmp := gets (λ w, dict_at w (new_objmap (mgr w)) !! x) in
       match tmp with
       | Some t => if bool_decide (t ≠ obj) then raise ValueError else ret x
       | None => ret x
       end) in
  let! v := mgr_get version in
  setattr obj (with_dversion v) ;;
  modify (λ w, set_dicts
                 (insert (new_objmap (mgr w))
                         (<[x := obj]> (dict_at w (new_objmap (mgr w))))) w).

(** *** dtypes.py: the read path *)

(** The loop of the source re-reads [dmgr.version] to detect a refresh by
    another thread between two reads; in this sequential model both reads
    see the same state, so its body runs once. *)
Definition _ensure_latest_subobj (self : addr) : Mw value :=
  let! d := getattr self id in
  let! mv := mgr_get version in
  if bool_decide (dmgr d = None) || bool_decide (dversion d = mv) then
    ret (subobj d)
  else
    let! version := mgr_get version in
    let! d_obj := gets (λ w, dict_at w (objmap (mgr w)) !! xid d) in
    match d_obj with
    | None =>
        setattr self (with_dmgr None) ;;
        ret (subobj d)
    | Some o =>
        let! sub := getattr o subobj in
        setattr self (with_subobj sub) ;;
        setattr self (with_dversion version) ;;
        ret sub
    end.

(** [DObject.__init__].  Of the conversions [BASE_TYPE (subobj)] only
    tuple to list and bytes to bytearray are modelled. *)
Definition base_type (k : dclass) (v : value) : result value :=
  match k, v with
  | DObjectBase, _ => Ok v
  | DList, VList _ => Ok v
  | DSet, VSet _ => Ok v
  | DDict, VDict _ => Ok v
  | DByteArray, VByteArray _ => Ok v
  | DList, VTuple l => Ok (VList l)
  | DByteArray, VBytes b => Ok (VByteArray b)
  | _, _ => Raise TypeError
  end.

Definition DObject___init__ (k : dclass) (sub : value) (x : Z)
    (dm : option mgr_ref) : Mw addr :=
  match sub with
  | VRef o =>
      let! d := getattr o id in
      alloc (mkDObject k (subobj d) (xid d) (dmgr d) (dversion d))
  | _ =>
      match base_type k sub with
      | Raise e => raise e
      | Ok s =>
          let! v := match dm with
                    | None => ret 0
                    | Some _ => mgr_get version
                    end in
          alloc (mkDObject k s x dm v)
      end
  end.

(** [DObject.__setstate__].  [xid] is an integer in every stream the
    pickler writes. *)
Definition DObject___setstate__ (self : addr) (state : value) : Mw unit :=
  match state with
  | VTuple [s; x; dm] =>
      match x with
      | VInt x =>
          setattr self (with_subobj s) ;;
          setattr self (with_xid x) ;;
          match dm with
          | VMgr => setattr self (with_dmgr (Some this_mgr)) ;; Manager_link self
          | _ => setattr self (with_dmgr None) ;; raise AttributeError
          end
      | _ => raise TypeError
      end
  | VTuple _ => raise ValueError
  | _ => raise TypeError
  end.

(** [DDescriptor.__get__] on an instance: [self.values[self.index]], a
    non-mutating method of DList. *)
Definition DDescriptor___get__ (values : addr) (index : nat) : Mw value :=
  let! sub := _ensure_latest_subobj values in
  match sub with
  | VList l =>
      match l !! index with
      | Some v => ret v
      | None => raise IndexError
      end
  | _ => raise TypeError
  end.

(** *** dpickler.py *)

Definition str_keys (l : list (value * value)) : option (list (string * value)) :=
  mapM (λ kv, match kv.1 with VStr s => Some (s, kv.2) | _ => None end) l.

Definition _make_any (typ attrs dm : value) : Mw value :=
  match attrs with
  | VDict l =>
      let! values := DObject___init__ DList (VList (l.*2)) 0 None in
      match dm with
      | VMgr => Manager_link values
      | _ => raise AttributeError
      end ;;
      match str_keys l, typ with
      | Some kl, VClass (CUser c) => ret (VDAny c (kl.*1) values)
      | _, _ => raise TypeError
      end
  | _ => raise AttributeError
  end.

Definition _DTYPES : list classref :=
  [CDType DList; CDType DSet; CDType DDict; CDType DByteArray;
   CDType DObjectBase; CMakeAny].

Definition dtype_index (k : dclass) : Z :=
  match k with
  | DList => 0 | DSet => 1 | DDict => 2 | DByteArray => 3 | DObjectBase => 4
  end.

Definition DUnpickler_persistent_load (pid : Z) : value :=
  if bool_decide (pid = -1) then VMgr
  else
    let i := if bool_decide (pid < 0) then pid + 6 else pid in
    if bool_decide (0 ≤ i) then
      match _DTYPES !! Z.to_nat i with
      | Some c => VClass c
      | None => VNone
      end
    else VNone.

(** The class named by [ty.__mro__[-3]] when [ty] is the class built by
    [_make_any] for [c]: its MRO is the new class, then that of [c], then
    DAny and object. *)
Definition mro_m3 (c : pyclass) : pyclass :=
  let dname := String.append "distributed-" (List.hd ""%string c) in
  [List.last (dname :: c) dname].

(** [_obj_attrs].  The [__dict__] of the Manager is cut down to its lock. *)
Definition _obj_attrs (obj : value) : Mw (list (string * value)) :=
  match obj with
  | VInst _ attrs => ret attrs
  | VDAny _ keys values =>
      map_M (λ ik, let! v := DDescriptor___get__ values ik.1 in ret (ik.2, v))
           (imap (λ i k, (i, k)) keys)
  | VWrapper c attrs =>
      ret [("_type"%string, VClass (CUser c));
           ("_attrs"%string, VDict (map (λ kv, (VStr kv.1, kv.2)) attrs));
           ("_dmgr"%string, VMgr)]
  | VMgr => ret [("lock"%string, VOpaque)]
  | _ => raise TypeError
  end.

Definition type_name (obj : value) : pyclass :=
  match obj with
  | VInst c _ => c
  | VDAny c _ _ => mro_m3 c
  | VWrapper _ _ => ["_Wrapper"%string]
  | VMgr => ["Manager"%string]
  | _ => []
  end.

Fixpoint make_pickable (obj : value) : Mw value :=
  match obj with
  | VNone | VBool _ | VInt _ | VFloat _ | VStr _ | VBytes _
  | VTuple _ | VFrozenset _ | VRef _ => ret obj
  | VList l =>
      let! l' := map_M make_pickable l in
      let! a := DObject___init__ DList (VList l') 0 (Some this_mgr) in
      ret (VRef a)
  | VSet l =>
      let! l' := map_M make_pickable l in
      let! a := DObject___init__ DSet (VSet l') 0 (Some this_mgr) in
      ret (VRef a)
  | VDict l =>
      let! sub := map_M (λ kv, match kv with
                              | (k, v) =>
                                  let! k' := make_pickable k in
                                  let! v' := make_pickable v in
                                  ret (k', v')
                              end) l in
      let! a := DObject___init__ DDict (VDict sub) 0 (Some this_mgr) in
      ret (VRef a)
  | VByteArray _ =>
      let! a := DObject___init__ DByteArray obj 0 (Some this_mgr) in
      ret (VRef a)
  | _ =>
      let! attrs := _obj_attrs obj in
      ret (VWrapper (type_name obj) attrs)
  end.

(** [DPickler.dump]: what the pickler saves for [obj], with the hooks of
    the source ([persistent_id], [DObject.__getstate__],
    [_Wrapper.__reduce__]).  The stream is a tree: an object reachable
    twice is saved twice, and a cyclic graph exhausts the recursion depth
    [n].  [persistent_id] searches [_DTYPES] with [==]; on a DObject that
    comparison is the proxied [__eq__], which rebases the object before its
    state is taken. *)
Fixpoint DPickler_dump (n : nat) (obj : value) : Mw pk :=
  match n with
  | O => raise RecursionError
  | S n =>
      let save := DPickler_dump n in
      match obj with
      | VNone => ret PNone
      | VBool b => ret (PBool b)
      | VInt z => ret (PInt z)
      | VFloat f => ret (PFloat f)
      | VStr s => ret (PStr s)
      | VBytes b => ret (PBytes b)
      | VByteArray b => ret (PByteArray b)
      | VTuple l => let! l' := map_M save l in ret (PTuple l')
      | VFrozenset l => let! l' := map_M save l in ret (PFrozenset l')
      | VList l => let! l' := map_M save l in ret (PList l')
      | VSet l => let! l' := map_M save l in ret (PSet l')
      | VDict l =>
          let! l' := map_M (λ kv, let! k := save kv.1 in
                                  let! v := save kv.2 in
                                  ret (k, v)) l in
          ret (PDict l')
      | VRef a =>
          _ensure_latest_subobj a ;;
          let! d := getattr a id in
          let! s := save (subobj d) in
          let dm := match dmgr d with
                    | Some _ => PPersId (-1)
                    | None => PNone
                    end in
          ret (PNewObj (PPersId (dtype_index (cls d)))
                       (PTuple [s; PInt (xid d); dm]))
      | VInst c attrs =>
          let! l := map_M (λ kv, let! v := save kv.2 in ret (PStr kv.1, v)) attrs in
          ret (PNewObj (PGlobal c) (PDict l))
      | VDAny _ _ _ => raise PicklingError
      | VWrapper c attrs =>
          let! l := map_M (λ kv, let! v := save kv.2 in ret (PStr kv.1, v)) attrs in
          ret (PReduce (PPersId 5) [PGlobal c; PDict l; PPersId (-1)]
                       (PPersId (-1)))
      | VClass (CUser c) => ret (PGlobal c)
      | VClass (CDType k) => ret (PPersId (dtype_index k))
      | VClass CMakeAny => ret (PPersId 5)
      | VOpaque => raise TypeError
      | VMgr => ret (PPersId (-1))
      end
  end.

(** [DUnpickler.load], with [persistent_load], [DObject.__setstate__] and
    [_make_any].  Streams that the pickler above does not write (a call of
    something else than [_make_any], a state that is not a dict for a user
    class) raise TypeError. *)
Fixpoint DUnpickler_load (p : pk) : Mw value :=
  match p with
  | PNone => ret VNone
  | PBool b => ret (VBool b)
  | PInt z => ret (VInt z)
  | PFloat f => ret (VFloat f)
  | PStr s => ret (VStr s)
  | PBytes b => ret (VBytes b)
  | PByteArray b => ret (VByteArray b)
  | PTuple l => let! l' := map_M DUnpickler_load l in ret (VTuple l')
  | PFrozenset l => let! l' := map_M DUnpickler_load l in ret (VFrozenset l')
  | PList l => let! l' := map_M DUnpickler_load l in ret (VList l')
  | PSet l => let! l' := map_M DUnpickler_load l in ret (VSet l')
  | PDict l =>
      let! l' := map_M (λ kv, match kv with
                              | (k, v) =>
                                  let! k' := DUnpickler_load k in
                                  let! v' := DUnpickler_load v in
                                  ret (k', v')
                              end) l in
      ret (VDict l')
  | PPersId pid => ret (DUnpickler_persistent_load pid)
  | PGlobal c => ret (VClass (CUser c))
  | PNewObj c st =>
      let! cv := DUnpickler_load c in
      match cv with
      | VClass (CDType k) =>
          let! a := alloc (blank k) in
          let! s := DUnpickler_load st in
          DObject___setstate__ a s ;;
          ret (VRef a)
      | VClass (CUser c) =>
          let! s := DUnpickler_load st in
          match s with
          | VDict l =>
              match str_keys l with
              | Some attrs => ret (VInst c attrs)
              | None => raise TypeError
              end
          | _ => raise TypeError
          end
      | _ => raise TypeError
      end
  | PReduce f args st =>
      let! fv := DUnpickler_load f in
      let! av := map_M DUnpickler_load args in
      let! r := match fv, av with
                | VClass CMakeAny, [typ; attrs; dm] => _make_any typ attrs dm
                | _, _ => raise TypeError
                end in
      (* the state goes to DAny.__setstate__, which does nothing *)
      let! _ := DUnpickler_load st in
      ret r
  end.

(** *** manager.py: payloads, refresh, write *)

(** [Manager._payload] and [Manager.dump] have the same body.  NIL is a
    bare [object ()]: it has neither __slots__ nor __dict__. *)
Definition Manager_dump (obj : slot) : Mw blob :=
  match obj with
  | NIL => raise TypeError
  | Obj v =>
      let! p := make_pickable v in
      DPickler_dump recursion_limit p
  end.

Definition Manager__payload (obj : slot) : Mw blob := Manager_dump obj.

(** [Manager.load]: the payload None is an empty stream. *)
Definition Manager_load (payload : option blob) : Mw value :=
  match payload with
  | None => raise EOFError
  | Some p => DUnpickler_load p
  end.

Definition Manager__load (payload : option blob) : Mw value :=
  let! l := new_dict in
  mgr_set (with_new_objmap l) ;;
  Manager_load payload.

Definition Manager__update (version' : Z) (root : value) : Mw unit :=
  let! v := mgr_get version in
  if bool_decide (version' > v) then
    mgr_set (with_version version') ;;
    mgr_set (with_root_obj (Obj root)) ;;
    let! n := mgr_get new_objmap in
    mgr_set (with_objmap n)
  else ret tt.

Definition Manager_write (obj : slot) : Mw unit :=
  let! payload := Manager__payload obj in
  let! version := on_backend (backend_write payload) in
  let! root := Manager__load (Some payload) in
  Manager__update version root.

Definition Manager_try_write (obj : slot) (exp_version : option Z) : Mw bool :=
  let! exp_version := match exp_version with
                      | None => mgr_get version
                      | Some v => ret v
                      end in
  let! payload := Manager__payload obj in
  let! rv := on_backend (backend_try_write payload exp_version) in
  (if rv.1 then
     let! root := Manager__load (Some payload) in
     Manager__update rv.2 root
   else ret tt) ;;
  ret rv.1.

Definition Manager__refresh_locked (dfl : slot) : Mw slot :=
  let! vp := on_backend backend_read in
  match vp.1 with
  | None => ret dfl
  | Some version' =>
      let! v := mgr_get version in
      if bool_decide (v >= version') then mgr_get root_obj
      else
        mgr_set (with_version version') ;;
        mgr_set (with_needs_update false) ;;
        let! r := Manager__load vp.2 in
        mgr_set (with_root_obj (Obj r)) ;;
        let! n := mgr_get new_objmap in
        mgr_set (with_objmap n) ;;
        mgr_get root_obj
  end.

Definition Manager_transaction : Mw unit :=
  let! c := mgr_get cur_trans in
  if negb c then mgr_set (with_cur_trans true) else ret tt.

Definition Manager_unlink_trans : Mw unit :=
  let! n := mgr_get needs_update in
  (if n then let! _ := Manager__refresh_locked (Obj VNone) in ret tt else ret tt) ;;
  mgr_set (with_cur_trans false).

(** *** transaction.py *)

Definition tr_get {A} (f : Transaction → A) : Mw A := mgr_get (λ m, f (_saved_tr m)).

Definition Transaction_trace_obj (obj : addr) (prev : value) : Mw unit :=
  let! x := getattr obj xid in
  mgr_set (with_tr (λ t, mkTransaction (dict_set x (obj, prev) (objs t))
                                       (depth t) (tversion t))).

(** [outmap[xid]], a KeyError when the key is absent. *)
Definition objmap_item (l : loc) (x : Z) : Mw addr :=
  let! o := gets (λ w, dict_at w l !! x) in
  match o with
  | Some a => ret a
  | None => raise KeyError
  end.

Definition Transaction_rollback : Mw unit :=
  let! objmap := mgr_get objmap in
  let! items := tr_get objs in
  forM_ (λ item : Z * (addr * value),
           let prev_obj := item.2.1 in
           let prev_val := item.2.2 in
           let! x := getattr prev_obj xid in
           let! o := objmap_item objmap x in
           setattr o (with_subobj prev_val) ;;
           setattr prev_obj (with_subobj prev_val))
        items.

Definition Transaction_commit : Mw bool :=
  let! items := tr_get objs in
  match items with
  | [] => ret true
  | _ =>
      let! outmap := mgr_get objmap in
      forM_ (λ item : Z * (addr * value),
               let! o := objmap_item outmap item.1 in
               let! s := getattr item.2.1 subobj in
               setattr o (with_subobj s))
            items ;;
      let! rv := try_except
                   (let! root := mgr_get root_obj in
                    let! v := tr_get tversion in
                    Manager_try_write root (Some v))
                   (λ _, ret false) in
      (if negb rv then Transaction_rollback else ret tt) ;;
      ret rv
  end.

Definition Transaction___enter__ : Mw unit :=
  let! d := tr_get depth in
  (if bool_decide (d = 0) then
     let! v := mgr_get version in
     mgr_set (with_tr (λ t, mkTransaction (objs t) (depth t) v))
   else ret tt) ;;
  mgr_set (with_tr (λ t, mkTransaction (objs t) (depth t + 1) (tversion t))).

Definition Transaction_unlink : Mw unit :=
  mgr_set (with_tr (λ t, mkTransaction [] (depth t) (tversion t))) ;;
  Manager_unlink_trans.

(** [Transaction.__exit__]; the value returned is always False, so the
    exception of the body is never swallowed. *)
Definition Transaction___exit__ (exc_type : option exn) : Mw bool :=
  mgr_set (with_tr (λ t, mkTransaction (objs t) (depth t - 1) (tversion t))) ;;
  let! d := tr_get depth in
  (if bool_decide (d = 0) then
     match exc_type with
     | Some _ =>
         Transaction_rollback ;;
         Transaction_unlink
     | None =>
         let! rv := Transaction_commit in
         Transaction_unlink ;;
         if negb rv then raise TransactionError else ret tt
     end
   else ret tt) ;;
  ret false.

(** [with dmgr.transaction (): body] *)
Definition with_transaction {A} (body : Mw A) : Mw A :=
  Manager_transaction ;;
  Transaction___enter__ ;;
  λ w, match body w with
       | (Ok a, w1) =>
           match Transaction___exit__ None w1 with
           | (Ok _, w2) => (Ok a, w2)
           | (Raise e, w2) => (Raise e, w2)
           end
       | (Raise e, w1) =>
           match Transaction___exit__ (Some e) w1 with
           | (Ok _, w2) => (Raise e, w2)
           | (Raise e', w2) => (Raise e', w2)
           end
       end.

Definition Manager_refresh (dfl : slot) : Mw slot :=
  with_transaction (Manager__refresh_locked dfl).

Definition Manager_read (dfl : slot) : Mw slot :=
  let! r := mgr_get root_obj in
  match r with
  | NIL => Manager_refresh dfl
  | Obj _ => ret r
  end.

Definition Manager___init__ (unique_id : uid) (b : B) : result unit * World B :=
  on_backend (backend_set_id (Some unique_id))
    (mkWorld ∅ {[ 0%nat := ∅ ]}
             (mkManager unique_id NIL 1 0%nat 0%nat false false 0
                        (mkTransaction [] 0 0))
             b 0%nat).

(** *** dtypes.py: the write path *)

(** A method of the base type, applied to a container: what it returns or
    raises, and the content it leaves in the container. *)
Definition pymethod := value → result value * value.

(** Containers are modelled by value, so a shallow copy is the value. *)
Definition shallow_copy (v : value) : value := v.

(** [method (self.subobj, *args, **kwargs)] *)
Definition call_on_subobj (self : addr) (method : pymethod) : Mw value :=
  λ w, let '(r, s) := method (subobj (deref w self)) in
       (r, set_heap (insert self (with_subobj s (deref w self))) w).

Definition detach_and_call (self : addr) (method : pymethod) : Mw value :=
  setattr self (with_dmgr None) ;;
  call_on_subobj self method.

(** As for the read path, the loop of the slow path runs once in the
    sequential model. *)
Definition _call_with_latest (self : addr) (method : pymethod) : Mw value :=
  let! d := getattr self id in
  match dmgr d with
  | None => call_on_subobj self method
  | Some _ =>
      let x := xid d in
      let! oget := mgr_get objmap in
      let! mv := mgr_get version in
      if bool_decide (dversion d = mv) then
        let! d_obj := gets (λ w, dict_at w oget !! x) in
        match d_obj with
        | None => detach_and_call self method
        | Some _ =>
            let! dirty := Manager_is_dirty (VRef self) in
            let! trace :=
              (if negb dirty then
                 setattr self (with_subobj (shallow_copy (subobj d))) ;;
                 ret (Some (subobj d))
               else ret None) in
            let! r := call_on_subobj self method in
            match trace with
            | Some prev => with_transaction (Transaction_trace_obj self prev)
            | None => ret tt
            end ;;
            ret r
        end
      else
        let! version := mgr_get version in
        let! d_obj := gets (λ w, dict_at w oget !! x) in
        match d_obj with
        | None => detach_and_call self method
        | Some o =>
            let! sub := getattr o subobj in
            setattr self (with_dversion version) ;;
            let prev := sub in
            setattr self (with_subobj (shallow_copy sub)) ;;
            let! r := call_on_subobj self method in
            with_transaction (Transaction_trace_obj self prev ;; ret r)
        end
  end.

(** [_make_method (attr, False)]: a method that does not mutate. *)
Definition nonmutating_method (self : addr) (attr : value → result value)
    : Mw value :=
  let! s := _ensure_latest_subobj self in
  match attr s with
  | Ok r => ret r
  | Raise e => raise e
  end.

(** [_make_mutable_method (attr)] *)
Definition mutable_method (self : addr) (attr : pymethod) : Mw value :=
  _call_with_latest self attr.

(** *** transaction.py: the retry decorator *)

Definition is_None (v : value) : bool :=
  match v with
  | VNone => true
  | _ => false
  end.

Definition as_int (v : value) : option Z :=
  match v with
  | VInt z => Some z
  | VBool b => Some (Z.b2z b)
  | _ => None
  end.

Definition as_number (v : value) : option pyfloat :=
  match v with
  | VInt z => Some (FFin (inject_Z z))
  | VBool b => Some (FFin (inject_Z (Z.b2z b)))
  | VFloat f => Some f
  | _ => None
  end.

(** [x < 0] and [t > x] on floats *)
Definition float_neg (x : pyfloat) : bool :=
  match x with
  | FNan => false
  | FInf neg => neg
  | FFin q => negb (Qle_bool 0 q)
  end.

Definition time_gt (t : Q) (x : pyfloat) : bool :=
  match x with
  | FNan => false
  | FInf neg => neg
  | FFin q => negb (Qle_bool t q)
  end.

Definition time_plus (t : Q) (x : pyfloat) : pyfloat :=
  match x with
  | FFin q => FFin (Qplus t q)
  | _ => x
  end.

(** The loop of [_f]; [None] when [fuel] attempts were made and the loop
    is still running. *)
Fixpoint _f_loop {A} (fuel : nat) (fn : Mw A) (num_retries : option Z)
    (deadline : option pyfloat) : Mw (option A) :=
  match fuel with
  | O => ret None
  | S fuel =>
      λ w,
        match with_transaction fn w with
        | (Ok a, w1) => (Ok (Some a), w1)
        | (Raise e, w1) =>
            if bool_decide (e = TransactionError) then
              (let! num_retries :=
                 match num_retries with
                 | Some n =>
                     let n := n - 1 in
                     if bool_decide (n ≤ 0) then raise TransactionRetryError
                     else ret (Some n)
                 | None => ret None
                 end in
               match deadline with
               | Some d =>
                   let! t := time in
                   if time_gt t d then raise TransactionTimeoutError else ret tt
               | None => ret tt
               end ;;
               _f_loop fuel fn num_retries deadline) w1
            else (Raise e, w1)
        end
  end.

Definition _f {A} (retries timeout : value) (fn : Mw A) (fuel : nat)
    : Mw (option A) :=
  let num_retries := as_int retries in
  let! deadline :=
    match as_number timeout with
    | None => ret None
    | Some x => let! t := time in ret (Some (time_plus t x))
    end in
  _f_loop fuel fn num_retries deadline.

(** [transactional (dmgr, retries, timeout)]: the checks, then the
    decorator. *)
Definition transactional {A} (retries timeout : value)
    : result (Mw A → nat → Mw (option A)) :=
  if negb (is_None retries) &&
     match as_int retries with
     | None => true
     | Some z => bool_decide (z < 0)
     end
  then Raise ValueError
  else if negb (is_None timeout) &&
          match as_number timeout with
          | None => true
          | Some x => float_neg x
          end
  then Raise ValueError
  else Ok (_f retries timeout).

End Participant.

(** *** backends/inproc.py: copies and the wait of the watcher *)

(** [InprocBackend.copy]: a new backend object, without an id, over the
    same [InprocData]. *)
Definition InprocBackend_copy (self : InprocBackend) : InprocBackend :=
  mkInprocBackend BaseBackend_init (data self).

(** Two backend objects over one [InprocData], as [copy] leaves them: the
    data is shared, the ids are not. *)
Record InprocPair := mkInprocPair {
  shared : InprocData;
  base_a : BaseBackend;
  base_b : BaseBackend;
}.

(** [self] and [self.copy ()]. *)
Definition InprocPair_of (self : InprocBackend) : InprocPair :=
  mkInprocPair (data self) (inproc_base self)
               (inproc_base (InprocBackend_copy self)).

(** A call on the first, on the second object of the pair. *)
Definition on_a {A} (m : M InprocBackend A) : M InprocPair A :=
  λ p, let '(r, b) := m (mkInprocBackend (base_a p) (shared p)) in
       (r, mkInprocPair (data b) (inproc_base b) (base_b p)).

Definition on_b {A} (m : M InprocBackend A) : M InprocPair A :=
  λ p, let '(r, b) := m (mkInprocBackend (base_b p) (shared p)) in
       (r, mkInprocPair (data b) (base_a p) (inproc_base b)).

(** [InprocBackend.target_wait], woken up in the state [self].  [version]
    is what the method read when it was entered; the loop waits as long as
    the version of the data is that one, which is the answer [None]. *)
Definition InprocBackend_target_wait (version : Z)
    : M InprocBackend (option bool) :=
  λ self,
    let d := data self in
    if bool_decide (version = data_version d) then (Ok None, self)
    else (Ok (Some (bool_decide (version < data_version d) &&
                    bool_decide (notifier d ≠ base_unique_id (inproc_base self)))),
          self).

(** The calls that the Manager of either object of a pair makes. *)
Inductive backend_call :=
| CallSetId (unique_id : option uid)
| CallRead
| CallWrite (new : blob)
| CallTryWrite (new : blob) (expected : Z).

Definition InprocBackend_call (c : backend_call) (b : InprocBackend)
    : InprocBackend :=
  match c with
  | CallSetId u => (InprocBackend_set_id u b).2
  | CallRead => (InprocBackend_read b).2
  | CallWrite new => (InprocBackend_write new b).2
  | CallTryWrite new expected => (InprocBackend_try_write new expected b).2
  end.

(** Calls in a row, each of them on the first ([true]) or on the second
    object. *)
Fixpoint InprocPair_calls (cs : list (bool * backend_call)) (p : InprocPair)
    : InprocPair :=
  match cs with
  | [] => p
  | (who, c) :: cs =>
      let run := λ b, (Ok tt, InprocBackend_call c b) in
      InprocPair_calls cs ((if who : bool then on_a run else on_b run) p).2
  end.

Definition FileBackend_call (c : backend_call) (b : FileBackend) : FileBackend :=
  match c with
  | CallSetId u => (FileBackend_set_id u b).2
  | CallRead => (FileBackend_read b).2
  | CallWrite new => (FileBackend_write new b).2
  | CallTryWrite new expected => (FileBackend_try_write new expected b).2
  end.

(** *** dpickler.py: persistent ids *)

Global Instance classref_eq_dec : EqDecision classref.
Proof. solve_decision. Defined.

Section PersistentId.
Context {B : Type}.

(** [DPickler.persistent_id]: -1 for the Manager, the position in
    [_DTYPES] for what is found there, None otherwise.  [index] compares
    with [==], which on a distributed object is the proxied operator: it
    brings the object up to date, then compares its sub-object with the
    class, and that is never equal. *)
Definition DPickler_persistent_id (obj : value) : M (World B) (option Z) :=
  match obj with
  | VMgr => ret (Some (-1))
  | VClass c =>
      ret ((λ ic, Z.of_nat ic.1) <$> list_find (λ c', c' = c) _DTYPES)
  | VRef a => _ensure_latest_subobj a ;; ret None
  | _ => ret None
  end.

End PersistentId.

(** *** dtypes.py: descriptors of a rebuilt record *)

(** [list.__setitem__ (index, value)], for an index that is not negative
    (the indices of descriptors come from [enumerate]). *)
Definition list_setitem (index : nat) (v : value) : pymethod :=
  λ s, match s with
       | VList l =>
           if bool_decide (index < length l)%nat
           then (Ok VNone, VList (<[index := v]> l))
           else (Raise IndexError, s)
       | _ => (Raise TypeError, s)
       end.

Section Descriptors.
Context {B : Type} {BK : Backend B} {EV : Env}.

(** [DDescriptor.__set__]: [self.values[self.index] = value], a mutable
    method of DList. *)
Definition DDescriptor___set__ (values : addr) (index : nat) (v : value)
    : M (World B) unit :=
  let! _ := mutable_method values (list_setitem index v) in ret tt.

(** *** manager.py: the watcher *)

(** One turn of the loop of [watcher_target], for a Manager that is still
    alive; [changed] is what [backend.target_wait ()] answered. *)
Definition Manager_watcher_step (changed : bool) : M (World B) unit :=
  if changed then
    let! tr := mgr_get cur_trans in
    if tr then mgr_set (with_needs_update true)
    else let! _ := Manager__refresh_locked (Obj VNone) in ret tt
  else ret tt.

End Descriptors.

(** ** Scenarios and fixtures used in the statements below *)

(** [b.set_id (a); b.set_id (b')] on a backend just built: the two
    outcomes. *)
Definition set_id_twice (a b : option uid) : result unit * result unit :=
  let '(r1, s1) := BaseBackend_set_id a BaseBackend_init in
  let '(r2, _) := BaseBackend_set_id b s1 in
  (r1, r2).

(** An interpreter with a recursion limit of 1000 and a clock that
    advances by one second at each reading. *)
Definition env0 : Env :=
  {| recursion_limit := 1000; clock := λ n, inject_Z (Z.of_nat n) |}.

(** What the checks of [transactional] accept. *)
Definition valid_retries (retries : value) : Prop :=
  retries = VNone ∨ ∃ z, as_int retries = Some z ∧ 0 ≤ z.

Definition valid_timeout (timeout : value) : Prop :=
  timeout = VNone ∨ ∃ x, as_number timeout = Some x ∧ float_neg x = false.

(** A Manager just built over a filesystem backend whose file does not
    exist, and one over an in-process backend that holds nothing. *)
Definition new_file_world : World FileBackend :=
  (Manager___init__ "participant-1" (FileBackend_init None true)).2.

Definition new_inproc_world : World InprocBackend :=
  (Manager___init__ "participant-1" InprocBackend_init).2.

(** *** Attempts of the retry loop *)

Section Attempts.
Context {B : Type} {BK : Backend B} {EV : Env} {A : Type}.

(** One attempt of [_f] is [with dmgr.transaction (): return fn ()].  The
    world after [k] attempts in a row, and the fact that these [k] attempts
    all raised TransactionError. *)
Fixpoint after_attempts (fn : M (World B) A) (k : nat) (w : World B) : World B :=
  match k with
  | O => w
  | S k => after_attempts fn k (with_transaction fn w).2
  end.

Fixpoint attempts_fail (fn : M (World B) A) (k : nat) (w : World B) : Prop :=
  match k with
  | O => True
  | S k => (with_transaction fn w).1 = Raise TransactionError ∧
           attempts_fail fn k (with_transaction fn w).2
  end.

(** What [_f] returns when an attempt ends with [r]. *)
Definition attempt_result (r : result A) : result (option A) :=
  match r with
  | Ok a => Ok (Some a)
  | Raise e => Raise e
  end.

End Attempts.

(** A function that reads the clock and then fails with TransactionError:
    the number of readings counts the attempts. *)
Definition failing_fn : M (World InprocBackend) value :=
  let! _ := time (EV := env0) in raise TransactionError.

(** *** Frames: what a piece of code leaves alone *)

Section FrameDefs.
Context {B : Type}.

(** [m] maintains [I], whether it returns or raises. *)
Definition invariant {A} (I : World B → Prop) (m : M (World B) A) : Prop :=
  ∀ w, I w → I (m w).2.

(** From [w0] to [w] only the object store changed: objects were added,
    and older objects kept their class and their xid.  This is all that
    [make_pickable] and [DPickler.dump] do. *)
Definition pickle_frame (w0 w : World B) : Prop :=
  mgr w = mgr w0 ∧ dicts w = dicts w0 ∧ backend w = backend w0 ∧
  ticks w = ticks w0 ∧
  ∀ a, a ∈ dom (heap w0) →
       a ∈ dom (heap w) ∧ xid (deref w a) = xid (deref w0 a) ∧
       cls (deref w a) = cls (deref w0 a).

(** From [w0] to [w] the objects of [w0] are untouched, and so are the
    Manager but for its counter [_xid], and every dict but [new_objmap].
    This is all that [DUnpickler.load] does. *)
Definition load_frame (w0 w : World B) : Prop :=
  (∀ a, a ∈ dom (heap w0) → heap w !! a = heap w0 !! a) ∧
  with__xid 0 (mgr w) = with__xid 0 (mgr w0) ∧
  (∀ l, l ≠ new_objmap (mgr w0) → dicts w !! l = dicts w0 !! l) ∧
  dom (dicts w0) ⊆ dom (dicts w) ∧
  backend w = backend w0 ∧ ticks w = ticks w0.

End FrameDefs.

(** A Manager over the filesystem backend after two writes, hence at
    version 2, and the same once the file has been removed from the
    disk. *)
Definition file_world_v2 : World FileBackend :=
  let w1 := (Manager_write (EV := env0) (Obj (VList [VInt 1])) new_file_world).2 in
  (Manager_write (EV := env0) (Obj (VList [VInt 2])) w1).2.

Definition file_world_removed : World FileBackend :=
  set_backend (mkFileBackend (file_base (backend file_world_v2)) None true)
              file_world_v2.

(** The fields of the Manager that neither pickling, nor a backend call,
    nor unpickling change. *)
Definition same_commit_state (m m' : Manager) : Prop :=
  version m' = version m ∧ root_obj m' = root_obj m ∧ objmap m' = objmap m ∧
  cur_trans m' = cur_trans m ∧ needs_update m' = needs_update m ∧
  _saved_tr m' = _saved_tr m.

(** A Manager over the in-process backend after [write ([1])], and
    [write (root)] on it stopped between [_load] and [_update]. *)
Definition inproc_world_written : World InprocBackend :=
  (Manager_write (EV := env0) (Obj (VList [VInt 1])) new_inproc_world).2.

Definition inproc_world_mid_write : result value * World InprocBackend :=
  (let! payload := Manager__payload (EV := env0)
                     (root_obj (mgr inproc_world_written)) in
   let! version := on_backend (backend_write payload) in
   Manager__load (Some payload)) inproc_world_written.

(** *** Operations on a proxy *)

(** The three kinds of methods that [_make_dbuiltin] installs: a method
    that does not mutate (it may fail), a method of [_MUTABLES], and an
    operator of [_OPERATORS] with its other operand. *)
Inductive proxy_op :=
| OpRead (attr : value → result value)
| OpWrite (method : pymethod)
| OpOperator (arg : value) (attr : value → value → result value).

Section ProxyOps.
Context {B : Type} {BK : Backend B} {EV : Env}.

(** [_make_method (attr, True)] *)
Definition operator_method (self : addr) (arg : value)
    (attr : value → value → result value) : M (World B) value :=
  let! arg := match arg with
              | VRef o => _ensure_latest_subobj o
              | _ => ret arg
              end in
  let! s := _ensure_latest_subobj self in
  match attr s arg with
  | Ok r => ret r
  | Raise e => raise e
  end.

Definition run_op (self : addr) (op : proxy_op) : M (World B) value :=
  match op with
  | OpRead attr => nonmutating_method self attr
  | OpWrite method => mutable_method self method
  | OpOperator arg attr => operator_method self arg attr
  end.

(** Operations in a row, each of them returning or raising. *)
Fixpoint run_ops (self : addr) (ops : list proxy_op) (w : World B) : World B :=
  match ops with
  | [] => w
  | op :: ops => run_ops self ops (run_op self op w).2
  end.

End ProxyOps.

(** What the same operations, applied to a plain container holding [s],
    leave in it. *)
Fixpoint local_run (ops : list proxy_op) (s : value) : value :=
  match ops with
  | [] => s
  | OpWrite method :: ops => local_run ops (method s).2
  | _ :: ops => local_run ops s
  end.

(** A detached proxy (its xid is 1 and the Manager has nothing linked)
    holding [1, 2], and the method [append (3)]. *)
Definition detached_world : World InprocBackend :=
  set_heap (insert 0%nat (mkDObject DList (VList [VInt 1; VInt 2]) 1 None 0))
           new_inproc_world.

Definition append3 : pymethod :=
  λ s, match s with
       | VList l => (Ok VNone, VList (l ++ [VInt 3]))
       | _ => (Raise TypeError, s)
       end.

Definition list_len (s : value) : result value :=
  match s with
  | VList l => Ok (VInt (Z.of_nat (length l)))
  | _ => Raise TypeError
  end.

(** *** The transaction record *)

Section TransactionDefs.
Context {B : Type}.
Implicit Types (w : World B) (item : Z * (addr * value)).

(** The items xid -> (proxy, pre-image) of the transaction. *)
Definition traced w : list (Z * (addr * value)) := objs (_saved_tr (mgr w)).

(** An item is well formed when it is filed under the xid of its proxy and
    the object map has an entry for that xid, itself carrying that xid.
    [trace_obj] files a proxy under its xid, [_call_with_latest] traces a
    proxy only after it has found its xid in the object map, and [link]
    stores an object under its own xid. *)
Definition item_ok w item : Prop :=
  item.2.1 ∈ dom (heap w) ∧ xid (deref w item.2.1) = item.1 ∧
  ∃ o, dict_at w (objmap (mgr w)) !! item.1 = Some o ∧
       o ∈ dom (heap w) ∧ xid (deref w o) = item.1.

Definition traced_ok w : Prop :=
  NoDup (traced w).*1 ∧ Forall (item_ok w) (traced w).


(** In [w] every proxy of [items], and the entry of the object map for its
    xid, hold the pre-image. *)
Definition rolled_back (items : list (Z * (addr * value))) w : Prop :=
  ∀ k p pre o,
    (k, (p, pre)) ∈ items → dict_at w (objmap (mgr w)) !! k = Some o →
    subobj (deref w p) = pre ∧ subobj (deref w o) = pre.

(** In [w] the entry of the object map for each xid of [items] holds the
    sub-object that the proxy held in [w0]. *)
Definition installed (items : list (Z * (addr * value))) w0 w : Prop :=
  ∀ k p pre o,
    (k, (p, pre)) ∈ items → dict_at w (objmap (mgr w)) !! k = Some o →
    subobj (deref w o) = subobj (deref w0 p) ∧
    subobj (deref w p) = subobj (deref w0 p).

(** From [w0] to [w] nothing changed but the sub-objects of some
    objects. *)
Definition subobj_frame w0 w : Prop :=
  mgr w = mgr w0 ∧ dicts w = dicts w0 ∧ backend w = backend w0 ∧
  ticks w = ticks w0 ∧ dom (heap w) = dom (heap w0) ∧
  ∀ a, with_subobj VNone (deref w a) = with_subobj VNone (deref w0 a).

(** From [w0] to [w] the transaction record, the object map and the xids
    of the objects of [w0] are the same. *)
Definition record_frame w0 w : Prop :=
  objmap (mgr w) = objmap (mgr w0) ∧ _saved_tr (mgr w) = _saved_tr (mgr w0) ∧
  needs_update (mgr w) = needs_update (mgr w0) ∧
  cur_trans (mgr w) = cur_trans (mgr w0) ∧
  dict_at w (objmap (mgr w0)) = dict_at w0 (objmap (mgr w0)) ∧
  ∀ a, a ∈ dom (heap w0) →
       a ∈ dom (heap w) ∧ xid (deref w a) = xid (deref w0 a).



(** [self.depth -= 1] *)
Definition leave w : World B :=
  set_mgr (with_tr (λ t, mkTransaction (objs t) (depth t - 1) (tversion t))) w.

End TransactionDefs.

(** *** Worlds inside a transaction *)

Section InstallWorld.
Context {B : Type} {BK : Backend B} {EV : Env}.

(** The world that the first loop of [commit] leaves: each entry of the
    object map refers to the sub-object of the traced proxy. *)
Definition install_world (w : World B) : World B :=
  (forM_ (λ item : Z * (addr * value),
            let! o := objmap_item (objmap (mgr w)) item.1 in
            let! s := getattr item.2.1 subobj in
            setattr o (with_subobj s))
         (traced w) w).2.

End InstallWorld.

(** [lst[0] = 0] *)
Definition set_first_zero : pymethod :=
  λ s, match s with
       | VList (_ :: l) => (Ok VNone, VList (VInt 0 :: l))
       | _ => (Raise IndexError, s)
       end.

(** After [write ([1])]: a transaction was opened and the root proxy was
    mutated by [root[0] = 0]. *)
Definition open_transaction_world : World InprocBackend :=
  ((Manager_transaction ;;
    Transaction___enter__ ;;
    mutable_method (EV := env0) 1%nat set_first_zero) inproc_world_written).2.

(** Another participant, holding a copy of the in-process backend,
    writes [p]. *)
Definition concurrent_write (p : blob) (w : World InprocBackend)
    : World InprocBackend :=
  let other := mkInprocBackend (mkBaseBackend (Some "participant-2"%string))
                               (data (backend w)) in
  set_backend (mkInprocBackend (inproc_base (backend w))
                               (data (InprocBackend_write p other).2)) w.


(** The stream of the list [9] filed under xid 1. *)
Definition nine_payload : blob :=
  PNewObj (PPersId 0) (PTuple [PList [PInt 9]; PInt 1; PPersId (-1)]).

(** The world that [unlink] leaves when no refresh was deferred: the
    record is emptied and the Manager has no current transaction. *)
Definition unlinked {B} (w : World B) : World B :=
  set_mgr (with_cur_trans false)
    (set_mgr (with_tr (λ t, mkTransaction [] (depth t) (tversion t))) w).

(** *** The round trip of the serialiser *)

(** Values that hold no proxy, no class object and nothing of the
    machinery: scalars (but NaN, which is equal to nothing), tuples,
    frozensets, lists, sets, dicts, bytearrays and user records of such
    values. *)
Fixpoint plain (v : value) : bool :=
  match v with
  | VNone | VBool _ | VInt _ | VStr _ | VBytes _ | VByteArray _ => true
  | VFloat f => match f with FNan => false | _ => true end
  | VTuple l | VFrozenset l | VList l | VSet l => forallb plain l
  | VDict l => forallb (λ kv, let '(k, v) := kv in plain k && plain v) l
  | VInst _ attrs => forallb (λ kv, let '(_, v) := kv in plain v) attrs
  | _ => false
  end.

(** How deep a value is nested. *)
Fixpoint height (v : value) : nat :=
  match v with
  | VTuple l | VFrozenset l | VList l | VSet l =>
      S (foldr (λ x n, height x `max` n) 0 l)%nat
  | VDict l =>
      S (foldr (λ kv n, let '(k, v) := kv in
                        (height k `max` height v) `max` n) 0 l)%nat
  | VInst _ attrs =>
      S (foldr (λ kv n, let '(_, v) := kv in height v `max` n) 0 attrs)%nat
  | _ => 1%nat
  end.

(** The stream that the pickler writes for a plain value saved as it
    is. *)
Fixpoint raw_stream (v : value) : pk :=
  match v with
  | VNone => PNone
  | VBool b => PBool b
  | VInt z => PInt z
  | VFloat f => PFloat f
  | VStr s => PStr s
  | VBytes b => PBytes b
  | VByteArray b => PByteArray b
  | VTuple l => PTuple (map raw_stream l)
  | VFrozenset l => PFrozenset (map raw_stream l)
  | VList l => PList (map raw_stream l)
  | VSet l => PSet (map raw_stream l)
  | VDict l => PDict (map (λ kv, let '(k, v) := kv in
                                 (raw_stream k, raw_stream v)) l)
  | VInst c attrs =>
      PNewObj (PGlobal c)
              (PDict (map (λ kv, let '(k, v) := kv in (PStr k, raw_stream v))
                          attrs))
  | _ => PNone
  end.

(** The stream of a new distributed object of class [k] (its xid is 0, it
    has a Manager) whose sub-object is saved as [s]. *)
Definition dobject_stream (k : dclass) (s : pk) : pk :=
  PNewObj (PPersId (dtype_index k)) (PTuple [s; PInt 0; PPersId (-1)]).

(** The stream that [dump] writes for a plain value: scalars, tuples and
    frozensets as they are; lists, sets, dicts and bytearrays as the
    distributed object they are promoted to, their elements in turn; a
    user record as a call of [_make_any]. *)
Fixpoint stream (v : value) : pk :=
  match v with
  | VList l => dobject_stream DList (PList (map stream l))
  | VSet l => dobject_stream DSet (PSet (map stream l))
  | VDict l =>
      dobject_stream DDict
        (PDict (map (λ kv, let '(k, v) := kv in (stream k, stream v)) l))
  | VByteArray b => dobject_stream DByteArray (PByteArray b)
  | VInst c attrs =>
      PReduce (PPersId 5)
              [PGlobal c;
               PDict (map (λ kv, let '(k, v) := kv in (PStr k, raw_stream v))
                          attrs);
               PPersId (-1)]
              (PPersId (-1))
  | _ => raw_stream v
  end.

(** [==] on floats. *)
Definition float_eq (f g : pyfloat) : bool :=
  match f, g with
  | FInf a, FInf b => bool_decide (a = b)
  | FFin p, FFin q => Qeq_bool p q
  | _, _ => false
  end.

Section All2.
Context {A C : Type} (f : A → C → bool).

Fixpoint all2 (l : list A) (l' : list C) : bool :=
  match l, l' with
  | [], [] => true
  | x :: l, y :: l' => f x y && all2 l l'
  | _, _ => false
  end.

End All2.

(** What a comparison sees of its operand: the operators of a proxy work
    on its sub-object. *)
Definition seen (h : gmap addr DObject) (y : value) : option value :=
  match y with
  | VRef a => subobj <$> h !! a
  | _ => Some y
  end.

(** [y == x] for a plain value [x], by the equality of the underlying
    values: a proxy compares by its sub-object, element by element, and a
    record built by [_make_any] by its attributes, read through their
    descriptors. *)
Fixpoint sem_eq (h : gmap addr DObject) (x y : value) {struct x} : bool :=
  match x with
  | VNone => match y with VNone => true | _ => false end
  | VBool b => match y with VBool b' => bool_decide (b = b') | _ => false end
  | VInt z => match y with VInt z' => bool_decide (z = z') | _ => false end
  | VFloat f => match y with VFloat f' => float_eq f f' | _ => false end
  | VStr s => match y with VStr s' => bool_decide (s = s') | _ => false end
  | VBytes b => match y with VBytes b' => bool_decide (b = b') | _ => false end
  | VTuple l =>
      match y with VTuple l' => all2 (sem_eq h) l l' | _ => false end
  | VFrozenset l =>
      match y with VFrozenset l' => all2 (sem_eq h) l l' | _ => false end
  | VList l =>
      match seen h y with Some (VList l') => all2 (sem_eq h) l l' | _ => false end
  | VSet l =>
      match seen h y with Some (VSet l') => all2 (sem_eq h) l l' | _ => false end
  | VDict l =>
      match seen h y with
      | Some (VDict l') =>
          all2 (λ kv kv', let '(k, v) := kv in
                          sem_eq h k kv'.1 && sem_eq h v kv'.2) l l'
      | _ => false
      end
  | VByteArray b =>
      match seen h y with
      | Some (VByteArray b') => bool_decide (b = b')
      | _ => false
      end
  | VInst c attrs =>
      match y with
      | VInst c' attrs' =>
          bool_decide (c = c') &&
          all2 (λ kv kv', let '(k, v) := kv in
                          bool_decide (k = kv'.1) && sem_eq h v kv'.2)
               attrs attrs'
      | VDAny c' keys values =>
          bool_decide (c = c') &&
          match seen h (VRef values) with
          | Some (VList vals) =>
              bool_decide (length keys = length vals) &&
              all2 (λ kv kv', let '(k, v) := kv in
                              bool_decide (k = kv'.1) && sem_eq h v kv'.2)
                   attrs (zip keys vals)
          | _ => false
          end
      | _ => false
      end
  | _ => false
  end.

(** A user record with a list among its attributes. *)
Definition point_record : value :=
  VInst ["Point"%string]
        [("x"%string, VInt 1); ("tags"%string, VList [VStr "a"; VStr "b"])].

(** A value of every plain kind. *)
Definition sample_value : value :=
  VList [VInt 1; VFloat (FFin (314 # 100)); VStr "abcdef";
         VTuple [VInt 1; VList [VNone]]; VBytes [97; 98];
         VDict [(VStr "a", VSet [VInt 1; VInt 2]);
                (VStr "b", VByteArray [1; 2; 3])];
         VFrozenset [VBool true]; point_record].

Section RoundTripDefs.
Context {B : Type} {BK : Backend B} {EV : Env}.

(** In every world that extends [w], and with depth enough, the pickler
    saves [y] as the stream of [x], and changes nothing. *)
Definition dumps_as (x y : value) (w : World B) : Prop :=
  ∀ w' n, load_frame w w' → (2 * height x ≤ n)%nat →
          DPickler_dump n y w' = (Ok (stream x), w').

(** [y] is equal to [x] in every object store that holds the objects made
    between [w] and [w'] as [w'] has them. *)
Definition equal_on_new (x y : value) (w w' : World B) : Prop :=
  ∀ h : gmap addr DObject,
    (∀ a, a ∉ dom (heap w) → a ∈ dom (heap w') → h !! a = heap w' !! a) →
    sem_eq h x y = true.

End RoundTripDefs.

(** A second participant, over a copy of the backend of the first. *)
Definition second_inproc_world : World InprocBackend :=
  (Manager___init__ "participant-2"
     (InprocBackend_copy (backend new_inproc_world))).2.

(** *** Mutations through a proxy *)

Section MutationDefs.
Context {B : Type}.

(** The proxy [self] holds [s] and is at the version of the Manager. *)
Definition rebased (self : addr) (s : value) (w : World B) : World B :=
  set_heap (insert self (with_subobj s
                           (with_dversion (version (mgr w)) (deref w self))))
           w.

(** The transaction record has the item [x -> (obj, prev)]. *)
Definition with_traced (x : Z) (obj : addr) (prev : value) (w : World B)
    : World B :=
  set_mgr (with_tr (λ t, mkTransaction (dict_set x (obj, prev) (objs t))
                                       (depth t) (tversion t))) w.

End MutationDefs.

(** * Properties *)

(** ** Backend.set_id *)

Lemma set_id_first_succeeds (a : option uid) :
  BaseBackend_set_id a BaseBackend_init = (Ok tt, mkBaseBackend a).
Proof. reflexivity. Qed.

(** C8, as stated, fails: installing the same non-null id a second time is
    refused although the second id is not distinct from the first. *)
Lemma set_id_same_id_refused :
  let a := Some "participant"%string in
  (set_id_twice a a).2 = Raise ValueError ∧ ¬ (a ≠ None ∧ a ≠ None ∧ a ≠ a).
Proof.
  split; [reflexivity | intros (_ & _ & Hne); by apply Hne].
Qed.

(** C8 (amended): on a backend just built, the first [set_id] always
    succeeds, and the second one fails exactly when both ids are non-null,
    whether or not they are distinct. *)
Theorem set_id_one_shot (a b : option uid) :
  (set_id_twice a b).1 = Ok tt ∧
  ((set_id_twice a b).2 = Raise ValueError ↔ a ≠ None ∧ b ≠ None) ∧
  ((set_id_twice a b).2 = Ok tt ↔ a = None ∨ b = None).
Proof.
  destruct a as [a|], b as [b|]; cbn; repeat split;
    try done; try (intros [? ?]; done); try (intros [?|?]; done); eauto.
Qed.

(** The subclasses inherit the behaviour. *)
Lemma InprocBackend_set_id_base (u : option uid) (s : InprocBackend) :
  (InprocBackend_set_id u s).1 = (BaseBackend_set_id u (inproc_base s)).1.
Proof.
  unfold InprocBackend_set_id, lift_base.
  by destruct (BaseBackend_set_id u (inproc_base s)).
Qed.

Lemma FileBackend_set_id_base (u : option uid) (s : FileBackend) :
  (FileBackend_set_id u s).1 = (BaseBackend_set_id u (file_base s)).1.
Proof.
  unfold FileBackend_set_id, lift_base.
  by destruct (BaseBackend_set_id u (file_base s)).
Qed.

(** ** transactional: the checks made when the decorator is built *)

Section Validation.
Context {B : Type} {BK : Backend B} {EV : Env} {A : Type}.

Lemma float_neg_FFin (q : Q) : float_neg (FFin q) = true ↔ (q < 0)%Q.
Proof.
  cbn. destruct (Qle_bool 0 q) eqn:E; cbn.
  - apply Qle_bool_iff in E. split; [done | intros Hq].
    exfalso. by eapply Qlt_not_le.
  - split; [intros _ | done].
    apply Qnot_le_lt. intros Hle. apply Qle_bool_iff in Hle. congruence.
Qed.

Lemma valid_retries_dec (retries : value) :
  valid_retries retries ↔
  (negb (is_None retries) &&
   match as_int retries with
   | None => true
   | Some z => bool_decide (z < 0)
   end) = false.
Proof.
  unfold valid_retries. split.
  - intros [-> | (z & Hz & Hpos)]; [done |].
    rewrite Hz. rewrite bool_decide_eq_false_2 by lia.
    by rewrite andb_false_r.
  - intros Hb. destruct (is_None retries) eqn:En.
    + left. by destruct retries.
    + right. cbn in Hb. destruct (as_int retries) as [z|]; [| done].
      exists z. split; [done |]. apply bool_decide_eq_false in Hb. lia.
Qed.

Lemma valid_timeout_dec (timeout : value) :
  valid_timeout timeout ↔
  (negb (is_None timeout) &&
   match as_number timeout with
   | None => true
   | Some x => float_neg x
   end) = false.
Proof.
  unfold valid_timeout. split.
  - intros [-> | (x & Hx & Hneg)]; [done |].
    rewrite Hx, Hneg. by rewrite andb_false_r.
  - intros Hb. destruct (is_None timeout) eqn:En.
    + left. by destruct timeout.
    + right. cbn in Hb. destruct (as_number timeout) as [x|]; [| done].
      by exists x.
Qed.

(** C7 (amended): [transactional] checks its configuration before any
    attempt is made.  It raises ValueError for every negative [retries]
    (and every [retries] that is not an integer) and for every negative
    [timeout] (and every [timeout] that is not a number); every other
    configuration, [retries = 0] included, is accepted and yields the
    decorator. *)
Theorem transactional_checks (retries timeout : value) :
  (valid_retries retries → valid_timeout timeout →
   transactional (A := A) retries timeout = Ok (_f retries timeout)) ∧
  (¬ (valid_retries retries ∧ valid_timeout timeout) →
   transactional (A := A) retries timeout = Raise ValueError) ∧
  (∀ z, retries = VInt z → z < 0 →
   transactional (A := A) retries timeout = Raise ValueError) ∧
  (∀ q, timeout = VFloat (FFin q) → (q < 0)%Q →
   transactional (A := A) retries timeout = Raise ValueError) ∧
  (∀ z, timeout = VInt z → z < 0 →
   transactional (A := A) retries timeout = Raise ValueError).
Proof.
  assert (Hbad : ¬ (valid_retries retries ∧ valid_timeout timeout) →
                 transactional (A := A) retries timeout = Raise ValueError).
  { intros Hn. unfold transactional.
    destruct (negb (is_None retries) && _) eqn:Er; [done |].
    destruct (negb (is_None timeout) && _) eqn:Et; [done |].
    exfalso. apply Hn. split.
    - by apply valid_retries_dec.
    - by apply valid_timeout_dec. }
  split; [| split; [done | split; [| split]]].
  - intros Hr Ht. unfold transactional.
    apply valid_retries_dec in Hr. apply valid_timeout_dec in Ht.
    by rewrite Hr, Ht.
  - intros z -> Hz. apply Hbad. intros [[? | (z' & Hz' & Hpos)] _]; [done |].
    cbn in Hz'. simplify_eq. lia.
  - intros q -> Hq. apply Hbad. intros [_ [? | (x & Hx & Hneg)]]; [done |].
    cbn in Hx. simplify_eq. apply float_neg_FFin in Hq. congruence.
  - intros z -> Hz. apply Hbad. intros [_ [? | (x & Hx & Hneg)]]; [done |].
    cbn in Hx. simplify_eq.
    assert (float_neg (FFin (inject_Z z)) = true); [| congruence].
    apply float_neg_FFin. unfold Qlt, inject_Z. cbn. lia.
Qed.

End Validation.

(** [transactional_checks] at retries = 3, timeout = 0.5 s. *)
Lemma transactional_checks_witness :
  transactional (B := InprocBackend) (EV := env0) (A := value)
                (VInt 3) (VFloat (FFin (1 # 2))) =
  Ok (_f (EV := env0) (VInt 3) (VFloat (FFin (1 # 2)))).
Proof.
  apply (proj1 (transactional_checks (EV := env0) (VInt 3)
                                     (VFloat (FFin (1 # 2))))).
  - right. exists 3. split; [reflexivity | lia].
  - right. exists (FFin (1 # 2)). split; reflexivity.
Defined.

(** C7, as stated, fails: the non-positive value [retries = 0] is accepted
    (it is the configuration of test_transaction_retries_exceeded). *)
Lemma transactional_accepts_zero_retries :
  0 ≤ 0 ∧
  transactional (B := InprocBackend) (EV := env0) (A := value) (VInt 0) VNone
  = Ok (_f (EV := env0) (VInt 0) VNone).
Proof. split; [lia | reflexivity]. Qed.

(** ** Reading an empty backend *)

Section EmptyBackend.
Context {B : Type} {BK : Backend B} {EV : Env}.

(** When the backend reports no version, [_refresh_locked] hands back the
    default and leaves the Manager as it was. *)
Lemma refresh_locked_empty (dfl : slot) (w : World B) (p : option blob) (b : B) :
  backend_read (backend w) = (Ok (None, p), b) →
  Manager__refresh_locked dfl w = (Ok dfl, set_backend b w).
Proof.
  intros Hr. unfold Manager__refresh_locked, bind, on_backend.
  by rewrite Hr.
Qed.

End EmptyBackend.

Lemma InprocBackend_read_empty (s : InprocBackend) :
  bvec (data s) = None → InprocBackend_read s = (Ok (None, None), s).
Proof. intros Hb. unfold InprocBackend_read. by rewrite Hb. Qed.

(** On the in-process backend the default comes back. *)
Lemma refresh_new_inproc (dfl : slot) :
  (Manager_refresh (EV := env0) dfl new_inproc_world).1 = Ok dfl.
Proof. reflexivity. Qed.

(** C5, the failing input: the filesystem backend, when its file does not
    exist, reads as (0, None) and not as (None, None); [Manager.refresh]
    then takes the branch [self.version >= version] and returns the cached
    root, which is NIL on a Manager just built, whatever the default. *)
Theorem refresh_missing_file_ignores_default (dfl : slot) :
  (FileBackend_read (backend new_file_world)).1 = Ok (Some 0, None) ∧
  (Manager_refresh (EV := env0) dfl new_file_world).1 = Ok NIL ∧
  (Manager_read (EV := env0) dfl new_file_world).1 = Ok NIL.
Proof. repeat split. Qed.

(** ** transactional: the retry loop *)

Section Retry.
Context {B : Type} {BK : Backend B} {EV : Env} {A : Type}.
Implicit Types (fn : M (World B) A) (w : World B).

Lemma f_no_timeout (retries : value) fn fuel w :
  _f retries VNone fn fuel w = _f_loop fuel fn (as_int retries) None w.
Proof. reflexivity. Qed.

Lemma loop_attempt_ends fn fuel n w r w1 :
  with_transaction fn w = (r, w1) →
  r ≠ Raise TransactionError →
  _f_loop (S fuel) fn n None w = (attempt_result r, w1).
Proof.
  intros Hw Hr. cbn. rewrite Hw. destruct r as [a | e]; [done |].
  rewrite bool_decide_eq_false_2; [done | congruence].
Qed.

Lemma loop_attempt_fails fn fuel n w :
  (with_transaction fn w).1 = Raise TransactionError →
  _f_loop (S fuel) fn (Some n) None w =
    if bool_decide (n - 1 ≤ 0)
    then (Raise TransactionRetryError, (with_transaction fn w).2)
    else _f_loop fuel fn (Some (n - 1)) None (with_transaction fn w).2.
Proof.
  intros Hw. cbn. destruct (with_transaction fn w) as [r w1]. cbn in *. subst r.
  rewrite bool_decide_eq_true_2 by done.
  unfold bind, raise, ret. by case_bool_decide.
Qed.

Lemma loop_attempt_fails_unbounded fn fuel w :
  (with_transaction fn w).1 = Raise TransactionError →
  _f_loop (S fuel) fn None None w =
    _f_loop fuel fn None None (with_transaction fn w).2.
Proof.
  intros Hw. cbn. destruct (with_transaction fn w) as [r w1]. cbn in *. subst r.
  by rewrite bool_decide_eq_true_2.
Qed.

(** With [num_retries = n], the loop gives up at failure number
    [max n 1]. *)
Lemma loop_exhausts fn (k : nat) : ∀ n fuel w,
  Z.of_nat k = Z.max n 1 → (k ≤ fuel)%nat → attempts_fail fn k w →
  _f_loop fuel fn (Some n) None w =
    (Raise TransactionRetryError, after_attempts fn k w).
Proof.
  induction k as [| k IH]; intros n fuel w Hk Hfuel Hfail; [lia |].
  destruct fuel as [| fuel]; [lia |]. destruct Hfail as [H1 Hrest].
  rewrite loop_attempt_fails by done. case_bool_decide as Hn.
  - assert (k = 0%nat) as -> by lia. done.
  - cbn [after_attempts]. apply IH; [lia | lia | done].
Qed.

(** Before that, the loop continues: after [j] failures it runs the next
    attempt and ends with it unless that attempt fails too. *)
Lemma loop_continues fn (j : nat) : ∀ n fuel w r w1,
  Z.of_nat j < Z.max n 1 → (j < fuel)%nat → attempts_fail fn j w →
  with_transaction fn (after_attempts fn j w) = (r, w1) →
  r ≠ Raise TransactionError →
  _f_loop fuel fn (Some n) None w = (attempt_result r, w1).
Proof.
  induction j as [| j IH]; intros n fuel w r w1 Hj Hfuel Hfail Hw Hr.
  - destruct fuel as [| fuel]; [lia |]. by apply loop_attempt_ends.
  - destruct fuel as [| fuel]; [lia |]. destruct Hfail as [H1 Hrest].
    rewrite loop_attempt_fails by done. case_bool_decide as Hn; [lia |].
    apply IH; [lia | lia | done | done | done].
Qed.

Lemma loop_unbounded_running fn (fuel : nat) : ∀ w,
  attempts_fail fn fuel w →
  _f_loop fuel fn None None w = (Ok None, after_attempts fn fuel w).
Proof.
  induction fuel as [| fuel IH]; intros w Hfail; [done |].
  destruct Hfail as [H1 Hrest].
  rewrite loop_attempt_fails_unbounded by done. by apply IH.
Qed.

(** Whatever an unbounded loop raises was raised by one of its attempts,
    and is not TransactionError. *)
Lemma loop_unbounded_raises fn (fuel : nat) : ∀ w e w1,
  _f_loop fuel fn None None w = (Raise e, w1) →
  ∃ j, (j < fuel)%nat ∧ attempts_fail fn j w ∧
       with_transaction fn (after_attempts fn j w) = (Raise e, w1) ∧
       e ≠ TransactionError.
Proof.
  induction fuel as [| fuel IH]; intros w e w1 Hrun; [done |].
  destruct (with_transaction fn w) as [r w2] eqn:Hw.
  assert (r = Raise TransactionError ∨ r ≠ Raise TransactionError)
    as [-> | Hr].
  { destruct r as [a | e']; [by right |].
    destruct (decide (e' = TransactionError)) as [-> | ?]; [by left |].
    right. congruence. }
  - rewrite loop_attempt_fails_unbounded in Hrun by by rewrite Hw.
    rewrite Hw in Hrun. cbn in Hrun.
    destruct (IH _ _ _ Hrun) as (j & Hj & Hfail & Hlast & He).
    exists (S j). cbn. rewrite Hw. cbn. repeat split; [lia | done | done | done].
  - erewrite loop_attempt_ends in Hrun by done.
    destruct r as [a | e']; cbn in Hrun; [done |]. simplify_eq.
    exists 0%nat. cbn. repeat split; [lia | done | congruence].
Qed.

(** C3 (amended): with [retries = r >= 0] and no timeout, the wrapper
    raises TransactionRetryError when the attempts number 1 to [max r 1]
    have all failed, that is after exactly [r] failed attempts for
    [r >= 1] and after the first failed attempt for [r = 0]; it does not
    raise it earlier, since an attempt that does not fail before that ends
    the call with its own outcome.  With neither retries nor timeout the
    wrapper is still retrying after any number of failed attempts, and it
    raises nothing that an attempt did not raise. *)
Theorem retries_exhausted fn (fuel : nat) w (r : Z) :
  0 ≤ r →
  let k := Z.to_nat (Z.max r 1) in
  (k ≤ fuel)%nat →
  (attempts_fail fn k w →
   _f (VInt r) VNone fn fuel w =
     (Raise TransactionRetryError, after_attempts fn k w)) ∧
  (∀ (j : nat) res w1,
     (j < k)%nat → attempts_fail fn j w →
     with_transaction fn (after_attempts fn j w) = (res, w1) →
     res ≠ Raise TransactionError →
     _f (VInt r) VNone fn fuel w = (attempt_result res, w1)) ∧
  (attempts_fail fn fuel w →
   _f VNone VNone fn fuel w = (Ok None, after_attempts fn fuel w)) ∧
  (∀ e w1, _f VNone VNone fn fuel w = (Raise e, w1) →
     ∃ j, (j < fuel)%nat ∧ attempts_fail fn j w ∧
          with_transaction fn (after_attempts fn j w) = (Raise e, w1) ∧
          e ≠ TransactionError).
Proof.
  intros Hr k Hfuel. subst k. repeat split.
  - intros Hfail. rewrite f_no_timeout. apply loop_exhausts; [lia | done | done].
  - intros j res w1 Hj Hfail Hw Hres. rewrite f_no_timeout.
    apply (loop_continues fn j r fuel w res w1); [lia | lia | done | done | done].
  - intros Hfail. rewrite f_no_timeout. by apply loop_unbounded_running.
  - intros e w1 Hrun. rewrite f_no_timeout in Hrun.
    by apply loop_unbounded_raises.
Qed.

End Retry.
(** [retries_exhausted] at retries = 2, with a function that always
    fails: the error comes after two attempts. *)
Lemma retries_exhausted_witness :
  _f (EV := env0) (VInt 2) VNone failing_fn 5 new_inproc_world =
    (Raise TransactionRetryError,
     after_attempts (EV := env0) failing_fn 2 new_inproc_world) ∧
  ticks (after_attempts (EV := env0) failing_fn 2 new_inproc_world) = 2%nat.
Proof.
  split; [| vm_compute; reflexivity].
  pose proof (retries_exhausted (EV := env0) failing_fn 5 new_inproc_world 2) as H.
  cbv zeta in H.
  destruct H as (H1 & _); [lia | vm_compute; lia |].
  change (Z.to_nat (Z.max 2 1)) with 2%nat in H1.
  apply H1. vm_compute. repeat split.
Defined.

(** C3, as stated, fails at [r = 0]: the error is not raised after zero
    failed attempts.  A call whose first attempt succeeds returns, and a
    call whose attempts fail raises after one attempt has been made and
    has failed. *)
Lemma zero_retries_needs_one_failure :
  (_f (EV := env0) (VInt 0) VNone (ret VNone) 5 new_inproc_world).1
    = Ok (Some VNone) ∧
  (_f (EV := env0) (VInt 0) VNone failing_fn 5 new_inproc_world).1
    = Raise TransactionRetryError ∧
  ticks (_f (EV := env0) (VInt 0) VNone failing_fn 5 new_inproc_world).2
    = 1%nat.
Proof. repeat split; vm_compute; reflexivity. Qed.
(** ** Induction on values and on pickle streams *)

Section ValueInd.
Variable P : value → Prop.
Hypothesis HNone : P VNone.
Hypothesis HBool : ∀ b, P (VBool b).
Hypothesis HInt : ∀ z, P (VInt z).
Hypothesis HFloat : ∀ f, P (VFloat f).
Hypothesis HStr : ∀ s, P (VStr s).
Hypothesis HBytes : ∀ b, P (VBytes b).
Hypothesis HTuple : ∀ l, Forall P l → P (VTuple l).
Hypothesis HFrozenset : ∀ l, Forall P l → P (VFrozenset l).
Hypothesis HList : ∀ l, Forall P l → P (VList l).
Hypothesis HSet : ∀ l, Forall P l → P (VSet l).
Hypothesis HDict : ∀ l, Forall (λ kv, P kv.1 ∧ P kv.2) l → P (VDict l).
Hypothesis HByteArray : ∀ b, P (VByteArray b).
Hypothesis HRef : ∀ a, P (VRef a).
Hypothesis HInst : ∀ c attrs, Forall (λ kv, P kv.2) attrs → P (VInst c attrs).
Hypothesis HDAny : ∀ c keys a, P (VDAny c keys a).
Hypothesis HWrapper : ∀ c attrs, Forall (λ kv, P kv.2) attrs → P (VWrapper c attrs).
Hypothesis HClass : ∀ c, P (VClass c).
Hypothesis HOpaque : P VOpaque.
Hypothesis HMgr : P VMgr.

Lemma value_nested_ind : ∀ v, P v.
Proof.
  fix go 1. intros v.
  assert (Hl : ∀ l : list value, Forall P l).
  { fix gol 1. intros [| x l]; constructor; [apply go | apply gol]. }
  assert (Hd : ∀ l : list (value * value), Forall (λ kv, P kv.1 ∧ P kv.2) l).
  { fix gol 1. intros [| [k x] l]; constructor;
      [split; apply go | apply gol]. }
  assert (Ha : ∀ l : list (string * value), Forall (λ kv, P kv.2) l).
  { fix gol 1. intros [| [k x] l]; constructor; [apply go | apply gol]. }
  clear go. destruct v; auto.
Qed.

End ValueInd.

Section PkInd.
Variable P : pk → Prop.
Hypothesis HNone : P PNone.
Hypothesis HBool : ∀ b, P (PBool b).
Hypothesis HInt : ∀ z, P (PInt z).
Hypothesis HFloat : ∀ f, P (PFloat f).
Hypothesis HStr : ∀ s, P (PStr s).
Hypothesis HBytes : ∀ b, P (PBytes b).
Hypothesis HTuple : ∀ l, Forall P l → P (PTuple l).
Hypothesis HFrozenset : ∀ l, Forall P l → P (PFrozenset l).
Hypothesis HList : ∀ l, Forall P l → P (PList l).
Hypothesis HSet : ∀ l, Forall P l → P (PSet l).
Hypothesis HDict : ∀ l, Forall (λ kv, P kv.1 ∧ P kv.2) l → P (PDict l).
Hypothesis HByteArray : ∀ b, P (PByteArray b).
Hypothesis HPersId : ∀ pid, P (PPersId pid).
Hypothesis HGlobal : ∀ c, P (PGlobal c).
Hypothesis HNewObj : ∀ c st, P c → P st → P (PNewObj c st).
Hypothesis HReduce : ∀ f args st, P f → Forall P args → P st → P (PReduce f args st).

Lemma pk_nested_ind : ∀ p, P p.
Proof.
  fix go 1. intros p.
  assert (Hl : ∀ l : list pk, Forall P l).
  { fix gol 1. intros [| x l]; constructor; [apply go | apply gol]. }
  assert (Hd : ∀ l : list (pk * pk), Forall (λ kv, P kv.1 ∧ P kv.2) l).
  { fix gol 1. intros [| [k x] l]; constructor;
      [split; apply go | apply gol]. }
  destruct p; try (clear go; auto; fail).
  - apply HNewObj; apply go.
  - apply HReduce; [apply go | apply Hl | apply go].
Qed.

End PkInd.

(** ** Frame lemmas *)

Section Frames.
Context {B : Type} {BK : Backend B} {EV : Env}.
Implicit Types (w : World B) (I : World B → Prop).

Lemma invariant_ret {A} I (a : A) : invariant I (ret a).
Proof. by intros w. Qed.

Lemma invariant_raise {A} I e : invariant I (raise (A := A) e).
Proof. by intros w. Qed.

Lemma invariant_gets {A} I (f : World B → A) : invariant I (gets f).
Proof. by intros w. Qed.

Lemma invariant_bind {A C} I (m : M (World B) A) (k : A → M (World B) C) :
  invariant I m → (∀ a, invariant I (k a)) → invariant I (bind m k).
Proof.
  intros Hm Hk w Hw. unfold bind. specialize (Hm w Hw).
  destruct (m w) as [[a | e] w1]; cbn in *; [by apply Hk | done].
Qed.

(** The same, when the continuation needs to know what [m] returned. *)
Lemma invariant_bind_post {A C} I (Q : A → Prop)
    (m : M (World B) A) (k : A → M (World B) C) :
  (∀ w, I w → I (m w).2 ∧ ∀ a, (m w).1 = Ok a → Q a) →
  (∀ a, Q a → invariant I (k a)) → invariant I (bind m k).
Proof.
  intros Hm Hk w Hw. unfold bind. destruct (Hm w Hw) as [H1 H2].
  destruct (m w) as [[a | e] w1]; cbn in *; [| done].
  apply Hk; [by apply H2 | done].
Qed.

Lemma invariant_try_except {A} I (m : M (World B) A) h :
  invariant I m → (∀ e, invariant I (h e)) → invariant I (try_except m h).
Proof.
  intros Hm Hh w Hw. unfold try_except. specialize (Hm w Hw).
  destruct (m w) as [[a | e] w1]; cbn in *; [done | by apply Hh].
Qed.

Lemma invariant_map_M {A C} I (f : A → M (World B) C) (l : list A) :
  Forall (λ x, invariant I (f x)) l → invariant I (map_M f l).
Proof.
  induction 1 as [| x l Hx Hl IH]; cbn; [apply invariant_ret |].
  apply invariant_bind; [done | intros y].
  apply invariant_bind; [done | intros ys]. apply invariant_ret.
Qed.

Lemma invariant_forM_ {A} I (f : A → M (World B) unit) (l : list A) :
  Forall (λ x, invariant I (f x)) l → invariant I (forM_ f l).
Proof.
  induction 1 as [| x l Hx Hl IH]; cbn; [apply invariant_ret |].
  apply invariant_bind; [done | intros _; done].
Qed.

Lemma invariant_mgr_get {A} I (f : Manager → A) : invariant I (mgr_get f).
Proof. by intros w. Qed.

Lemma invariant_getattr {A} I a (f : DObject → A) : invariant I (getattr a f).
Proof. by intros w. Qed.

(** *** The object store *)

Lemma deref_insert w a d : deref (set_heap (insert a d) w) a = d.
Proof. unfold deref. cbn. by rewrite lookup_insert_eq. Qed.

Lemma deref_insert_ne w a a' d :
  a ≠ a' → deref (set_heap (insert a d) w) a' = deref w a'.
Proof. intros Hne. unfold deref. cbn. by rewrite lookup_insert_ne. Qed.

Lemma alloc_fresh w d : (alloc d w).1 = Ok (fresh (dom (heap w))) ∧
                        fresh (dom (heap w)) ∉ dom (heap w).
Proof. split; [done | apply is_fresh]. Qed.

(** *** pickle_frame *)

Lemma pickle_frame_refl w : pickle_frame w w.
Proof. by repeat split. Qed.

Lemma pickle_frame_trans w0 w1 w2 :
  pickle_frame w0 w1 → pickle_frame w1 w2 → pickle_frame w0 w2.
Proof.
  intros (Hm1 & Hd1 & Hb1 & Ht1 & Hh1) (Hm2 & Hd2 & Hb2 & Ht2 & Hh2).
  repeat split; try congruence.
  - by apply Hh2, Hh1.
  - destruct (Hh1 a) as (Hin & Hx & Hc); [done |].
    destruct (Hh2 a) as (_ & Hx' & _); [done |]. congruence.
  - destruct (Hh1 a) as (Hin & Hx & Hc); [done |].
    destruct (Hh2 a) as (_ & _ & Hc'); [done |]. congruence.
Qed.

(** Changing other attributes than the class and the xid. *)
Lemma pickle_frame_setattr w0 a (f : DObject → DObject) :
  (∀ d, xid (f d) = xid d ∧ cls (f d) = cls d) →
  invariant (pickle_frame w0) (setattr a f).
Proof.
  intros Hf w (Hm & Hd & Hb & Ht & Hh). repeat split; try done.
  - cbn. apply elem_of_dom. destruct (decide (a = a0)) as [-> | Hne].
    + by rewrite lookup_insert_eq.
    + rewrite lookup_insert_ne by done. apply elem_of_dom. by apply Hh.
  - cbn. destruct (decide (a = a0)) as [-> | Hne].
    + rewrite deref_insert. destruct (Hf (deref w a0)) as [-> _]. by apply Hh.
    + rewrite deref_insert_ne by done. by apply Hh.
  - cbn. destruct (decide (a = a0)) as [-> | Hne].
    + rewrite deref_insert. destruct (Hf (deref w a0)) as [_ ->]. by apply Hh.
    + rewrite deref_insert_ne by done. by apply Hh.
Qed.

Lemma pickle_frame_alloc w0 d : invariant (pickle_frame w0) (alloc d).
Proof.
  intros w (Hm & Hd & Hb & Ht & Hh). repeat split; try done; cbn.
  - apply elem_of_dom. destruct (decide (fresh (dom (heap w)) = a)) as [<- | Hne].
    + by rewrite lookup_insert_eq.
    + rewrite lookup_insert_ne by done. apply elem_of_dom. by apply Hh.
  - destruct (Hh a) as (Hin & Hx & _); [done |].
    rewrite deref_insert_ne; [done |]. intros <-. by apply (is_fresh (dom (heap w))).
  - destruct (Hh a) as (Hin & _ & Hc); [done |].
    rewrite deref_insert_ne; [done |]. intros <-. by apply (is_fresh (dom (heap w))).
Qed.

Lemma pickle_frame_ensure_latest w0 a :
  invariant (pickle_frame w0) (_ensure_latest_subobj a).
Proof.
  unfold _ensure_latest_subobj.
  apply invariant_bind; [apply invariant_getattr | intros d].
  apply invariant_bind; [apply invariant_mgr_get | intros mv].
  destruct (_ || _); [apply invariant_ret |].
  apply invariant_bind; [apply invariant_mgr_get | intros v].
  apply invariant_bind; [apply invariant_gets | intros [o |]].
  - apply invariant_bind; [apply invariant_getattr | intros s].
    apply invariant_bind; [by apply pickle_frame_setattr | intros _].
    apply invariant_bind; [by apply pickle_frame_setattr | intros _].
    apply invariant_ret.
  - apply invariant_bind; [by apply pickle_frame_setattr | intros _].
    apply invariant_ret.
Qed.

Lemma pickle_frame_init w0 k s x dm :
  invariant (pickle_frame w0) (DObject___init__ k s x dm).
Proof.
  unfold DObject___init__.
  assert (Hgen : invariant (pickle_frame w0)
            match base_type k s with
            | Ok s0 =>
                let! v := match dm with
                          | Some _ => mgr_get version
                          | None => ret 0
                          end in
                alloc (mkDObject k s0 x dm v)
            | Raise e => raise e
            end).
  { destruct (base_type k s); [| apply invariant_raise].
    apply invariant_bind; [| intros v; apply pickle_frame_alloc].
    destruct dm; [apply invariant_mgr_get | apply invariant_ret]. }
  destruct s; try exact Hgen.
  apply invariant_bind; [apply invariant_getattr | intros d].
  apply pickle_frame_alloc.
Qed.

Lemma pickle_frame_descriptor_get w0 a i :
  invariant (pickle_frame w0) (DDescriptor___get__ a i).
Proof.
  unfold DDescriptor___get__.
  apply invariant_bind; [apply pickle_frame_ensure_latest | intros s].
  destruct s; try apply invariant_raise.
  destruct (l !! i); [apply invariant_ret | apply invariant_raise].
Qed.

Lemma pickle_frame_obj_attrs w0 v :
  invariant (pickle_frame w0) (_obj_attrs v).
Proof.
  destruct v; cbn; try apply invariant_raise; try apply invariant_ret.
  apply invariant_map_M. apply Forall_forall. intros [i k] _.
  apply invariant_bind; [apply pickle_frame_descriptor_get | intros x].
  apply invariant_ret.
Qed.

Lemma pickle_frame_make_pickable w0 v :
  invariant (pickle_frame w0) (make_pickable v).
Proof.
  induction v using value_nested_ind; cbn [make_pickable];
    try apply invariant_ret;
    try (apply invariant_bind; [apply pickle_frame_obj_attrs | intros ?];
         apply invariant_ret).
  - apply invariant_bind; [by apply invariant_map_M | intros l'].
    apply invariant_bind; [apply pickle_frame_init | intros a].
    apply invariant_ret.
  - apply invariant_bind; [by apply invariant_map_M | intros l'].
    apply invariant_bind; [apply pickle_frame_init | intros a].
    apply invariant_ret.
  - apply invariant_bind; [| intros l'].
    + apply invariant_map_M. eapply Forall_impl; [done |].
      intros [k x] [Hk Hx]. cbn in *.
      apply invariant_bind; [done | intros k'].
      apply invariant_bind; [done | intros x']. apply invariant_ret.
    + apply invariant_bind; [apply pickle_frame_init | intros a].
      apply invariant_ret.
  - apply invariant_bind; [apply pickle_frame_init | intros a].
    apply invariant_ret.
Qed.

Lemma pickle_frame_dump w0 n : ∀ v,
  invariant (pickle_frame w0) (DPickler_dump n v).
Proof.
  induction n as [| n IH]; intros v; cbn [DPickler_dump];
    [apply invariant_raise |].
  assert (Hl : ∀ l : list value,
             invariant (pickle_frame w0) (map_M (DPickler_dump n) l)).
  { intros l. apply invariant_map_M, Forall_forall. by intros. }
  assert (Ha : ∀ l : list (string * value),
             invariant (pickle_frame w0)
               (map_M (λ kv, let! v := DPickler_dump n kv.2 in ret (PStr kv.1, v)) l)).
  { intros l. apply invariant_map_M, Forall_forall. intros kv _.
    apply invariant_bind; [done | intros; apply invariant_ret]. }
  destruct v; try apply invariant_ret; try apply invariant_raise;
    try (apply invariant_bind; [apply Hl | intros; apply invariant_ret]);
    try (apply invariant_bind; [apply Ha | intros; apply invariant_ret]).
  - apply invariant_bind; [| intros; apply invariant_ret].
    apply invariant_map_M, Forall_forall. intros kv _.
    apply invariant_bind; [done | intros k].
    apply invariant_bind; [done | intros x]. apply invariant_ret.
  - apply invariant_bind; [apply pickle_frame_ensure_latest | intros _].
    apply invariant_bind; [apply invariant_getattr | intros d].
    apply invariant_bind; [done | intros s]. apply invariant_ret.
  - destruct c; apply invariant_ret.
Qed.

Lemma pickle_frame_payload w obj :
  pickle_frame w (Manager__payload obj w).2.
Proof.
  assert (H : invariant (pickle_frame w) (Manager__payload obj)).
  { unfold Manager__payload, Manager_dump. destruct obj; [apply invariant_raise |].
    apply invariant_bind; [apply pickle_frame_make_pickable | intros p].
    apply pickle_frame_dump. }
  apply H, pickle_frame_refl.
Qed.

End Frames.

Section LoadFrame.
Context {B : Type} {BK : Backend B} {EV : Env}.
Implicit Types (w : World B).

Lemma load_frame_refl w : load_frame w w.
Proof. by repeat split. Qed.

Lemma load_frame_dom w0 w a :
  load_frame w0 w → a ∈ dom (heap w0) → a ∈ dom (heap w).
Proof.
  intros (Hh & _) Ha. apply elem_of_dom. rewrite Hh by done.
  by apply elem_of_dom.
Qed.

Lemma load_frame_new_objmap w0 w :
  load_frame w0 w → new_objmap (mgr w) = new_objmap (mgr w0).
Proof.
  intros (_ & Hm & _).
  by apply (f_equal new_objmap) in Hm.
Qed.

Lemma load_frame_alloc w0 d w :
  load_frame w0 w →
  load_frame w0 (alloc d w).2 ∧
  ∀ a, (alloc d w).1 = Ok a → a ∉ dom (heap w0).
Proof.
  intros Hw. assert (Hfresh : fresh (dom (heap w)) ∉ dom (heap w0)).
  { intros Hin. eapply (is_fresh (dom (heap w))), load_frame_dom; done. }
  split; [| intros a [= <-]; done].
  destruct Hw as (Hh & Hm & Hd & Hdd & Hb & Ht). repeat split; try done.
  intros a Ha. cbn. rewrite lookup_insert_ne; [by apply Hh | congruence].
Qed.

Lemma load_frame_setattr w0 a f :
  a ∉ dom (heap w0) → invariant (load_frame w0) (setattr a f).
Proof.
  intros Ha w (Hh & Hm & Hd & Hdd & Hb & Ht). repeat split; try done.
  intros a' Ha'. cbn. rewrite lookup_insert_ne; [by apply Hh | congruence].
Qed.

Lemma load_frame_xid w0 : invariant (load_frame w0) Manager_xid.
Proof.
  intros w (Hh & Hm & Hd & Hdd & Hb & Ht). by repeat split.
Qed.

Lemma load_frame_link w0 a :
  a ∉ dom (heap w0) → invariant (load_frame w0) (Manager_link a).
Proof.
  intros Ha. unfold Manager_link.
  apply invariant_bind; [apply invariant_getattr | intros x].
  apply invariant_bind; [| intros x'].
  { case_bool_decide.
    - apply invariant_bind; [apply load_frame_xid | intros n].
      apply invariant_bind; [by apply load_frame_setattr | intros _].
      apply invariant_ret.
    - apply invariant_bind; [apply invariant_gets | intros [t |]];
        [| apply invariant_ret].
      case_bool_decide; [apply invariant_raise | apply invariant_ret]. }
  apply invariant_bind; [apply invariant_mgr_get | intros v].
  apply invariant_bind; [by apply load_frame_setattr | intros _].
  intros w Hw. pose proof (load_frame_new_objmap _ _ Hw) as Hn.
  destruct Hw as (Hh & Hm & Hd & Hdd & Hb & Ht). repeat split; try done; cbn.
  - intros l Hl. rewrite lookup_insert_ne; [by apply Hd | congruence].
  - rewrite dom_insert_L. set_solver.
Qed.

Lemma load_frame_setstate w0 a s :
  a ∉ dom (heap w0) → invariant (load_frame w0) (DObject___setstate__ a s).
Proof.
  intros Ha. unfold DObject___setstate__.
  destruct s; try apply invariant_raise.
  destruct l as [| s [| x [| dm [| ? ?]]]]; try apply invariant_raise.
  destruct x; try apply invariant_raise.
  apply invariant_bind; [by apply load_frame_setattr | intros _].
  apply invariant_bind; [by apply load_frame_setattr | intros _].
  destruct dm;
    (apply invariant_bind; [by apply load_frame_setattr | intros _]);
    try apply invariant_raise.
  by apply load_frame_link.
Qed.

Lemma load_frame_init w0 k s x dm w :
  load_frame w0 w →
  load_frame w0 (DObject___init__ k s x dm w).2 ∧
  ∀ a, (DObject___init__ k s x dm w).1 = Ok a → a ∉ dom (heap w0).
Proof.
  intros Hw. unfold DObject___init__.
  assert (Hbase : ∀ s',
            let r := match base_type k s' with
                     | Ok s0 =>
                         let! v := match dm with
                                   | Some _ => mgr_get version
                                   | None => ret 0
                                   end in
                         alloc (mkDObject k s0 x dm v)
                     | Raise e => raise e
                     end w in
            load_frame w0 r.2 ∧ ∀ a, r.1 = Ok a → a ∉ dom (heap w0)).
  { intros s'. cbn. destruct (base_type k s') as [s0 | e]; [| done].
    unfold bind.
    assert (∃ v, (match dm with
                  | Some _ => mgr_get version
                  | None => ret 0
                  end) w = (Ok v, w)) as [v ->] by (destruct dm; by eexists).
    by apply load_frame_alloc. }
  destruct s; try apply Hbase.
  unfold bind, getattr, gets. by apply load_frame_alloc.
Qed.

Lemma load_frame_make_any w0 typ attrs dm :
  invariant (load_frame w0) (_make_any typ attrs dm).
Proof.
  unfold _make_any. destruct attrs; try apply invariant_raise.
  eapply (invariant_bind_post _ (λ a, a ∉ dom (heap w0))).
  { intros w Hw. by apply load_frame_init. }
  intros a Ha.
  apply invariant_bind; [| intros _].
  { destruct dm; try apply invariant_raise. by apply load_frame_link. }
  destruct (str_keys l); [| apply invariant_raise].
  destruct typ; try apply invariant_raise.
  destruct c; try apply invariant_raise. apply invariant_ret.
Qed.

Lemma load_frame_load w0 p : invariant (load_frame w0) (DUnpickler_load p).
Proof.
  induction p using pk_nested_ind; cbn [DUnpickler_load];
    try apply invariant_ret;
    try (apply invariant_bind; [by apply invariant_map_M | intros ?];
         apply invariant_ret).
  - apply invariant_bind; [| intros; apply invariant_ret].
    apply invariant_map_M. eapply Forall_impl; [done |].
    intros [k x] [Hk Hx]. cbn in *.
    apply invariant_bind; [done | intros k'].
    apply invariant_bind; [done | intros x']. apply invariant_ret.
  - apply invariant_bind; [done | intros cv].
    destruct cv; try apply invariant_raise.
    destruct c; try apply invariant_raise.
    + apply invariant_bind; [done | intros s].
      destruct s; try apply invariant_raise.
      destruct (str_keys l); [apply invariant_ret | apply invariant_raise].
    + eapply (invariant_bind_post _ (λ a, a ∉ dom (heap w0))).
      { intros w Hw. by apply load_frame_alloc. }
      intros a Ha.
      apply invariant_bind; [done | intros s].
      apply invariant_bind; [by apply load_frame_setstate | intros _].
      apply invariant_ret.
  - apply invariant_bind; [done | intros fv].
    apply invariant_bind; [by apply invariant_map_M | intros av].
    apply invariant_bind; [| intros r].
    + destruct fv; try apply invariant_raise.
      destruct c; try apply invariant_raise.
      destruct av as [| typ [| attrs [| dm [| ? ?]]]]; try apply invariant_raise.
      apply load_frame_make_any.
    + apply invariant_bind; [done | intros _]. apply invariant_ret.
Qed.

End LoadFrame.

(** ** Manager.write *)

Section Write.
Context {B : Type} {BK : Backend B} {EV : Env}.
Implicit Types (w : World B).

Lemma on_backend_mgr {A} (m : M B A) w : mgr (on_backend m w).2 = mgr w.
Proof. unfold on_backend. by destruct (m (backend w)). Qed.

Lemma load_keeps_manager p w :
  same_commit_state (mgr w) (mgr (Manager__load p w).2).
Proof.
  unfold Manager__load, bind, new_dict, mgr_set, modify. cbn.
  set (w1 := set_mgr _ _).
  assert (Hm : with__xid 0 (mgr (Manager_load p w1).2) = with__xid 0 (mgr w1)).
  { unfold Manager_load. destruct p as [p |]; [| done].
    eapply (load_frame_load w1 p w1), load_frame_refl. }
  destruct (Manager_load p w1) as [[r | e] w2]; cbn in *;
    destruct (mgr w2); cbn in *; by simplify_eq.
Qed.

Lemma payload_keeps_manager obj w :
  mgr (Manager__payload obj w).2 = mgr w.
Proof. by destruct (pickle_frame_payload w obj) as (-> & _). Qed.

(** C6 (amended): when [Manager.write] returns, the payload was written,
    the backend answered with a version [v] and the payload was
    deserialised into [root]; the Manager adopts [root], [v] and the
    staging map exactly when [v] is greater than the version it held, and
    otherwise keeps its root, its version and its object map. *)
Theorem write_adopts_newer_version (obj : slot) w w' :
  Manager_write obj w = (Ok tt, w') →
  ∃ payload w1 v w2 root w3,
    Manager__payload obj w = (Ok payload, w1) ∧
    on_backend (backend_write payload) w1 = (Ok v, w2) ∧
    Manager__load (Some payload) w2 = (Ok root, w3) ∧
    (v > version (mgr w) →
     version (mgr w') = v ∧ root_obj (mgr w') = Obj root ∧
     objmap (mgr w') = new_objmap (mgr w3)) ∧
    (v ≤ version (mgr w) →
     version (mgr w') = version (mgr w) ∧
     root_obj (mgr w') = root_obj (mgr w) ∧
     objmap (mgr w') = objmap (mgr w)).
Proof.
  unfold Manager_write, bind. intros Hrun.
  pose proof (payload_keeps_manager obj w) as H1.
  destruct (Manager__payload obj w) as [[payload | e] w1] eqn:E1; [| done].
  pose proof (on_backend_mgr (backend_write payload) w1) as H2.
  destruct (on_backend (backend_write payload) w1) as [[v | e] w2] eqn:E2; [| done].
  pose proof (load_keeps_manager (Some payload) w2) as H3.
  destruct (Manager__load (Some payload) w2) as [[root | e] w3] eqn:E3; [| done].
  exists payload, w1, v, w2, root, w3. cbn in H1, H2, H3.
  split; [done |]. split; [done |]. split; [done |].
  destruct H3 as (Hv & Hr & Ho & _).
  assert (Hver : version (mgr w3) = version (mgr w)) by congruence.
  unfold Manager__update, bind, mgr_get, gets in Hrun.
  rewrite Hver in Hrun. cbn in Hrun. case_bool_decide as Hgt.
  - cbn in Hrun. injection Hrun as <-. cbn. split; [done |]. split; [done | lia].
  - cbn in Hrun. injection Hrun as <-.
    split; [lia |]. intros _. repeat split; congruence.
Qed.

End Write.

(** [write_adopts_newer_version] for the first write of [[1, 2]] through a
    Manager just built. *)
Lemma write_adopts_newer_version_witness :
  let w := new_inproc_world in
  let obj := Obj (VList [VInt 1; VInt 2]) in
  let w' := (Manager_write (EV := env0) obj w).2 in
  ∃ payload w1 v w2 root w3,
    Manager__payload (EV := env0) obj w = (Ok payload, w1) ∧
    on_backend (backend_write payload) w1 = (Ok v, w2) ∧
    Manager__load (Some payload) w2 = (Ok root, w3) ∧
    (v > version (mgr w) →
     version (mgr w') = v ∧ root_obj (mgr w') = Obj root ∧
     objmap (mgr w') = new_objmap (mgr w3)) ∧
    (v ≤ version (mgr w) →
     version (mgr w') = version (mgr w) ∧
     root_obj (mgr w') = root_obj (mgr w) ∧
     objmap (mgr w') = objmap (mgr w)).
Proof.
  intros w obj w'. apply write_adopts_newer_version.
  vm_compute. reflexivity.
Defined.

(** C6, as stated, fails: the adoption is guarded by
    [version > self.version].  A Manager at version 2 whose file was
    removed writes the value 7: the backend answers with version 1, and
    the Manager keeps version 2 and its former root. *)
Lemma write_not_adopted :
  let w := file_world_removed in
  let r := Manager_write (EV := env0) (Obj (VInt 7)) w in
  r.1 = Ok tt ∧
  (file_version <$> file (backend r.2)) = Some 1 ∧
  version (mgr r.2) = 2 ∧
  root_obj (mgr r.2) = root_obj (mgr w) ∧
  root_obj (mgr r.2) ≠ Obj (VInt 7).
Proof.
  intros w r.
  split; [vm_compute; reflexivity |].
  split; [vm_compute; reflexivity |].
  split; [vm_compute; reflexivity |].
  split; [vm_compute; reflexivity |].
  vm_compute. congruence.
Qed.

(** ** Manager.link and Manager.is_linked *)

Section Link.
Context {B : Type} {BK : Backend B} {EV : Env}.
Implicit Types (w : World B).

(** What a successful [link] does: the object gets an xid if it had none
    and the version of the Manager, and the dict [new_objmap] gets the
    item xid -> object; nothing else changes. *)
Lemma link_effect obj w w' :
  Manager_link obj w = (Ok tt, w') →
  ∃ x d,
    heap w' = <[obj := d]> (heap w) ∧ xid d = x ∧
    new_objmap (mgr w') = new_objmap (mgr w) ∧
    objmap (mgr w') = objmap (mgr w) ∧
    dicts w' = <[new_objmap (mgr w) := <[x := obj]> (dict_at w (new_objmap (mgr w)))]>
                 (dicts w).
Proof.
  unfold Manager_link, bind, getattr, gets, mgr_get, setattr, modify. cbn.
  case_bool_decide as Hx.
  - cbn. intros [= <-]. eexists _, _. cbn.
    split; [by rewrite deref_insert, insert_insert_eq |].
    by rewrite deref_insert.
  - destruct (dict_at w (new_objmap (mgr w)) !! xid (deref w obj)) as [t |] eqn:Ht.
    + cbn. case_bool_decide; [done |]. cbn. intros [= <-].
      eexists _, _. cbn. split; [done |]. done.
    + cbn. intros [= <-]. eexists _, _. cbn. split; [done |]. done.
Qed.

(** C10 (amended): [link] puts the object into the staging map
    [new_objmap], under its xid, and [is_linked] looks that xid up in the
    committed map [objmap].  When both names are bound to the same dict,
    the object is linked at once.  When they are not, as during
    [Manager._load], the object is linked exactly when the committed map
    already had its xid as a key, in particular not when the xid is new;
    and in every case it is linked once the staging map has been swapped
    in, by [_update] or by the assignment [self.objmap = self.new_objmap]
    of [_refresh_locked]. *)
Theorem link_then_is_linked (obj : addr) w w' :
  Manager_link obj w = (Ok tt, w') →
  let x := xid (deref w' obj) in
  dict_at w' (new_objmap (mgr w')) !! x = Some obj ∧
  (objmap (mgr w) = new_objmap (mgr w) →
   (Manager_is_linked (VRef obj) w').1 = Ok true) ∧
  (objmap (mgr w) ≠ new_objmap (mgr w) →
   (Manager_is_linked (VRef obj) w').1 =
     Ok (bool_decide (is_Some (dict_at w (objmap (mgr w)) !! x)))) ∧
  (∀ v r, v > version (mgr w') →
   (Manager_is_linked (VRef obj) (Manager__update v r w').2).1 = Ok true) ∧
  (Manager_is_linked (VRef obj)
     (set_mgr (λ m, with_objmap (new_objmap m) m) w')).1 = Ok true.
Proof.
  intros Hlink. destruct (link_effect _ _ _ Hlink) as (x & d & Hh & Hx & Hn & Ho & Hd).
  assert (Hobj : deref w' obj = d).
  { unfold deref. by rewrite Hh, lookup_insert_eq. }
  cbn zeta. rewrite Hobj, Hx.
  assert (Hstaged : dict_at w' (new_objmap (mgr w')) !! x = Some obj).
  { unfold dict_at at 1. rewrite Hd, Hn, lookup_insert_eq. cbn.
    by rewrite lookup_insert_eq. }
  split; [done |]. split; [| split; [| split]].
  - intros Halias. cbn. unfold gets. cbn. rewrite Hobj, Hx. f_equal.
    apply bool_decide_eq_true_2. rewrite Ho, Halias, <- Hn, Hstaged. by eexists.
  - intros Hne. cbn. unfold gets. cbn. rewrite Hobj, Hx, Ho.
    assert (Hsame : dict_at w' (objmap (mgr w)) = dict_at w (objmap (mgr w))).
    { unfold dict_at. by rewrite Hd, lookup_insert_ne. }
    by rewrite Hsame.
  - intros v r Hv. unfold Manager__update, bind, mgr_get, gets.
    cbn [fst snd mgr]. rewrite bool_decide_eq_true_2 by done. cbn. f_equal.
    apply bool_decide_eq_true_2.
    replace (deref _ obj) with d by (unfold deref; cbn; by rewrite Hh, lookup_insert_eq).
    rewrite Hx. unfold dict_at in *. cbn. rewrite Hstaged. by eexists.
  - cbn. unfold gets. cbn. f_equal. apply bool_decide_eq_true_2.
    replace (deref _ obj) with d by (unfold deref; cbn; by rewrite Hh, lookup_insert_eq).
    rewrite Hx. unfold dict_at in *. cbn. rewrite Hstaged. by eexists.
Qed.

End Link.

(** [link_then_is_linked] for the root object of a Manager after
    [write ([1])], outside of any load. *)
Lemma link_then_is_linked_witness :
  let w := inproc_world_written in
  let w' := (Manager_link 1%nat w).2 in
  let x := xid (deref w' 1%nat) in
  dict_at w' (new_objmap (mgr w')) !! x = Some 1%nat ∧
  (objmap (mgr w) = new_objmap (mgr w) →
   (Manager_is_linked (VRef 1%nat) w').1 = Ok true) ∧
  (objmap (mgr w) ≠ new_objmap (mgr w) →
   (Manager_is_linked (VRef 1%nat) w').1 =
     Ok (bool_decide (is_Some (dict_at w (objmap (mgr w)) !! x)))) ∧
  (∀ v r, v > version (mgr w') →
   (Manager_is_linked (VRef 1%nat) (Manager__update v r w').2).1 = Ok true) ∧
  (Manager_is_linked (VRef 1%nat)
     (set_mgr (λ m, with_objmap (new_objmap m) m) w')).1 = Ok true.
Proof.
  intros w w'. apply (link_then_is_linked 1%nat w w').
  vm_compute. reflexivity.
Defined.

(** C10, as stated, fails: [is_linked] goes by the xid.  While
    [write (root)] is loading the payload it has just written, the new
    root object has been linked into the staging map, the staging map has
    not been swapped in, and [is_linked] already answers True for it,
    because the committed map holds the former root under the same
    xid. *)
Lemma linked_before_swap :
  let w := inproc_world_written in
  let wm := snd inproc_world_mid_write in
  ∃ a, fst inproc_world_mid_write = Ok (VRef a) ∧
       (a ∉ dom (heap w)) ∧
       dict_at wm (new_objmap (mgr wm)) !! xid (deref wm a) = Some a ∧
       objmap (mgr wm) = objmap (mgr w) ∧
       objmap (mgr wm) ≠ new_objmap (mgr wm) ∧
       (Manager_is_linked (VRef a) wm).1 = Ok true.
Proof.
  intros w wm. exists 2%nat.
  split; [vm_compute; reflexivity |].
  split; [vm_compute; intros H; discriminate H |].
  split; [vm_compute; reflexivity |].
  split; [vm_compute; reflexivity |].
  split; [vm_compute; congruence |].
  vm_compute. reflexivity.
Qed.

(** ** Detached proxies *)

Section Detached.
Context {B : Type} {BK : Backend B} {EV : Env}.
Implicit Types (w : World B).

(** A read on a detached proxy returns the local sub-object and changes
    nothing. *)
Lemma detached_ensure_latest self w :
  dmgr (deref w self) = None →
  _ensure_latest_subobj self w = (Ok (subobj (deref w self)), w).
Proof.
  intros Hd. unfold _ensure_latest_subobj, bind, getattr, gets, mgr_get. cbn.
  by rewrite Hd.
Qed.

Lemma detached_read self attr w :
  dmgr (deref w self) = None →
  nonmutating_method self attr w =
    (attr (subobj (deref w self)), w).
Proof.
  intros Hd. unfold nonmutating_method, bind.
  rewrite detached_ensure_latest by done.
  by destruct (attr _).
Qed.

(** A write on a detached proxy is the method applied to the local
    sub-object: no shadow copy, no transaction, no Manager involved. *)
Lemma detached_write self method w :
  dmgr (deref w self) = None →
  mutable_method self method w =
    ((method (subobj (deref w self))).1,
     set_heap (insert self (with_subobj (method (subobj (deref w self))).2
                                        (deref w self))) w).
Proof.
  intros Hd. unfold mutable_method, _call_with_latest, bind, getattr, gets. cbn.
  rewrite Hd. unfold call_on_subobj. by destruct (method _).
Qed.

(** Rebasing some proxy leaves the Manager, its dicts and the backend
    alone, and can only clear a [dmgr]. *)
Lemma ensure_latest_other o self w :
  let w' := (_ensure_latest_subobj o w).2 in
  mgr w' = mgr w ∧ dicts w' = dicts w ∧ backend w' = backend w ∧
  (dmgr (deref w self) = None →
   dmgr (deref w' self) = None ∧ subobj (deref w' self) = subobj (deref w self)).
Proof.
  unfold _ensure_latest_subobj, bind, getattr, gets, mgr_get, setattr, modify.
  cbn. destruct (_ || _) eqn:Hfast; [done |].
  apply orb_false_iff in Hfast as [Hdm _]. apply bool_decide_eq_false in Hdm.
  destruct (dict_at w (objmap (mgr w)) !! xid (deref w o)) as [b |]; cbn.
  - split; [done |]. split; [done |]. split; [done |].
    intros Hd. destruct (decide (o = self)) as [-> | Hne]; [done |].
    by rewrite !deref_insert_ne.
  - split; [done |]. split; [done |]. split; [done |].
    intros Hd. destruct (decide (o = self)) as [-> | Hne]; [done |].
    by rewrite !deref_insert_ne.
Qed.

Lemma detached_op self op w :
  dmgr (deref w self) = None →
  let w' := (run_op self op w).2 in
  dmgr (deref w' self) = None ∧
  subobj (deref w' self) = local_run [op] (subobj (deref w self)) ∧
  mgr w' = mgr w ∧ dicts w' = dicts w ∧ backend w' = backend w.
Proof.
  intros Hd. destruct op as [attr | method | arg attr]; cbn [run_op local_run].
  - by rewrite detached_read.
  - rewrite detached_write by done. cbn. rewrite deref_insert. cbn.
    by rewrite Hd.
  - unfold operator_method, bind.
    assert (Harg : ∃ arg' w1,
               (match arg with
                | VRef o => _ensure_latest_subobj o
                | _ => ret arg
                end) w = (arg', w1) ∧
               mgr w1 = mgr w ∧ dicts w1 = dicts w ∧ backend w1 = backend w ∧
               dmgr (deref w1 self) = None ∧
               subobj (deref w1 self) = subobj (deref w self)).
    { destruct arg; try by (eexists _, _).
      pose proof (ensure_latest_other a self w) as (H1 & H2 & H3 & H4).
      destruct (H4 Hd) as [H5 H6].
      destruct (_ensure_latest_subobj a w) as [r w1]. by eexists _, _. }
    destruct Harg as (arg' & w1 & -> & Hm & Hdi & Hb & Hd1 & Hs1).
    destruct arg' as [arg' | e]; [| done].
    rewrite detached_ensure_latest by done.
    by destruct (attr _ _).
Qed.

(** C9: detachment is terminal.  Whatever operations (reads, writes,
    operators, returning or raising) are then made on a proxy whose
    [dmgr] is None, its [dmgr] is still None, and the operations ran on
    its local sub-object: it ends up holding what a plain container would
    hold, and the Manager, its object maps and the backend were not
    touched. *)
Theorem detachment_is_terminal (self : addr) (ops : list proxy_op) w :
  dmgr (deref w self) = None →
  let w' := run_ops self ops w in
  dmgr (deref w' self) = None ∧
  subobj (deref w' self) = local_run ops (subobj (deref w self)) ∧
  mgr w' = mgr w ∧ dicts w' = dicts w ∧ backend w' = backend w.
Proof.
  revert w. induction ops as [| op ops IH]; intros w Hd; [done |].
  destruct (detached_op self op w Hd) as (H1 & H2 & H3 & H4 & H5).
  destruct (IH _ H1) as (I1 & I2 & I3 & I4 & I5).
  cbn [run_ops]. cbn zeta in *. rewrite I2, H2.
  repeat split; try congruence.
  by destruct op.
Qed.

(** How a proxy gets detached: its xid is no longer a key of the object
    map when it is accessed (and, on the read path, its version is not
    that of the Manager). *)
Lemma read_detaches self w :
  dmgr (deref w self) ≠ None →
  dversion (deref w self) ≠ version (mgr w) →
  dict_at w (objmap (mgr w)) !! xid (deref w self) = None →
  let r := _ensure_latest_subobj self w in
  r.1 = Ok (subobj (deref w self)) ∧ dmgr (deref r.2 self) = None ∧
  subobj (deref r.2 self) = subobj (deref w self).
Proof.
  intros Hd Hv Hx. unfold _ensure_latest_subobj, bind, getattr, gets, mgr_get.
  cbn. rewrite !bool_decide_eq_false_2 by done. cbn. rewrite Hx. cbn.
  by rewrite deref_insert.
Qed.

Lemma write_detaches self method w :
  dmgr (deref w self) ≠ None →
  dict_at w (objmap (mgr w)) !! xid (deref w self) = None →
  let r := mutable_method self method w in
  r.1 = (method (subobj (deref w self))).1 ∧ dmgr (deref r.2 self) = None ∧
  subobj (deref r.2 self) = (method (subobj (deref w self))).2.
Proof.
  intros Hd Hx.
  unfold mutable_method, _call_with_latest, bind, getattr, gets, mgr_get.
  cbn. destruct (dmgr (deref w self)) as [m |] eqn:Hm; [| done]. cbn.
  unfold detach_and_call, call_on_subobj, bind, setattr, modify.
  case_bool_decide; cbn; rewrite Hx; cbn; rewrite !deref_insert; cbn;
    destruct (method _); cbn; by rewrite deref_insert.
Qed.

End Detached.

(** [detachment_is_terminal] on a detached proxy holding [1, 2]: after
    [len], [append (3)] and a comparison, it is still detached and holds
    [1, 2, 3]. *)
Lemma detachment_is_terminal_witness :
  let ops := [OpRead list_len; OpWrite append3;
              OpOperator (VList []) (λ _ _, Ok (VBool false))] in
  let w' := run_ops (EV := env0) 0%nat ops detached_world in
  dmgr (deref w' 0%nat) = None ∧
  subobj (deref w' 0%nat) = VList [VInt 1; VInt 2; VInt 3].
Proof.
  intros ops w'.
  destruct (detachment_is_terminal (EV := env0) 0%nat ops detached_world)
    as (H1 & H2 & _); [vm_compute; reflexivity |].
  split; [exact H1 |].
  etransitivity; [exact H2 | vm_compute; reflexivity].
Defined.

(** ** Commit and rollback *)

Section Rollback.
Context {B : Type} {BK : Backend B} {EV : Env}.
Implicit Types (w : World B) (item : Z * (addr * value)).

Lemma subobj_frame_refl w : subobj_frame w w.
Proof. by repeat split. Qed.

Lemma subobj_frame_trans w0 w1 w2 :
  subobj_frame w0 w1 → subobj_frame w1 w2 → subobj_frame w0 w2.
Proof.
  intros (? & ? & ? & ? & ? & Ha1) (? & ? & ? & ? & ? & Ha2).
  repeat split; try congruence; intros a; by rewrite Ha2, Ha1.
Qed.

Lemma subobj_frame_setattr w a v :
  a ∈ dom (heap w) →
  subobj_frame w (set_heap (insert a (with_subobj v (deref w a))) w).
Proof.
  intros Ha. repeat split; cbn.
  - rewrite dom_insert_L. apply set_eq. intros x.
    rewrite elem_of_union, elem_of_singleton.
    split; [intros [-> | Hx]; done | by right].
  - intros a'. destruct (decide (a = a')) as [<- | Hne].
    + by rewrite deref_insert.
    + by rewrite deref_insert_ne.
Qed.

Lemma subobj_frame_xid w0 w a :
  subobj_frame w0 w → xid (deref w a) = xid (deref w0 a).
Proof.
  intros (_ & _ & _ & _ & _ & H). specialize (H a).
  by apply (f_equal xid) in H.
Qed.

Lemma subobj_frame_record w0 w : subobj_frame w0 w → record_frame w0 w.
Proof.
  intros Hf. pose proof Hf as (Hm & Hd & _ & _ & Hdom & _).
  repeat split; try by rewrite Hm.
  - unfold dict_at. by rewrite Hd.
  - by rewrite Hdom.
  - by apply subobj_frame_xid.
Qed.

Lemma record_frame_refl w : record_frame w w.
Proof. by repeat split. Qed.

Lemma record_frame_trans w0 w1 w2 :
  record_frame w0 w1 → record_frame w1 w2 → record_frame w0 w2.
Proof.
  intros (Ho1 & Ht1 & Hn1 & Hc1 & Hd1 & Hx1) (Ho2 & Ht2 & Hn2 & Hc2 & Hd2 & Hx2).
  rewrite Ho1 in Hd2. repeat split; try congruence.
  - by apply Hx2, Hx1.
  - destruct (Hx1 a) as [Hin Hx]; [done |].
    destruct (Hx2 a) as [_ Hx']; [done |]. congruence.
Qed.

Lemma item_ok_frame w0 w item :
  record_frame w0 w → item_ok w0 item → item_ok w item.
Proof.
  intros (Ho & Ht & _ & _ & Hd & Hx) (Hp & Hxp & o & Hlook & Hin & Hxo).
  destruct (Hx _ Hp) as [Hp' Hxp']. destruct (Hx _ Hin) as [Hin' Hxo'].
  split; [done |]. split; [congruence |].
  exists o. rewrite Ho, Hd. split; [done |]. split; [done | congruence].
Qed.

Lemma traced_ok_frame w0 w :
  record_frame w0 w → traced_ok w0 → traced_ok w.
Proof.
  intros Hf [Hnd Hall]. pose proof Hf as (_ & Ht & _).
  unfold traced_ok, traced. rewrite Ht. split; [done |].
  eapply Forall_impl; [done |]. intros item. by apply item_ok_frame.
Qed.

(** Two well-formed items filed under different xids touch different
    objects. *)
Lemma items_apart w item item' o o' :
  item_ok w item → item_ok w item' → item.1 ≠ item'.1 →
  dict_at w (objmap (mgr w)) !! item.1 = Some o →
  dict_at w (objmap (mgr w)) !! item'.1 = Some o' →
  item.2.1 ≠ item'.2.1 ∧ item.2.1 ≠ o' ∧ o ≠ item'.2.1 ∧ o ≠ o'.
Proof.
  intros (_ & Hx & o1 & Ho1 & _ & Hxo) (_ & Hx' & o1' & Ho1' & _ & Hxo') Hne Ho Ho'.
  simplify_eq. repeat split; intros Heq; apply Hne; congruence.
Qed.

(** The loop of [rollback] over well-formed items. *)
Lemma rollback_loop (l : list (Z * (addr * value))) : ∀ w,
  NoDup l.*1 → Forall (item_ok w) l →
  ∃ w',
    forM_ (λ item : Z * (addr * value),
             let prev_obj := item.2.1 in
             let prev_val := item.2.2 in
             let! x := getattr prev_obj xid in
             let! o := objmap_item (objmap (mgr w)) x in
             setattr o (with_subobj prev_val) ;;
             setattr prev_obj (with_subobj prev_val)) l w = (Ok tt, w') ∧
    subobj_frame w w' ∧ rolled_back l w' ∧
    ∀ a, (∀ item o, item ∈ l →
            dict_at w (objmap (mgr w)) !! item.1 = Some o →
            a ≠ item.2.1 ∧ a ≠ o) →
         deref w' a = deref w a.
Proof.
  induction l as [| item l IH]; intros w Hnd Hall.
  - exists w. split; [done |]. split; [apply subobj_frame_refl |].
    split; [| done]. intros k p pre o Hin. by apply elem_of_nil in Hin.
  - apply NoDup_cons in Hnd as [Hk Hnd]. apply Forall_cons in Hall as [Hitem Hall].
    destruct item as [k [p pre]]. pose proof Hitem as (Hp & Hxp & o & Ho & Hin & Hxo).
    cbn in Hp, Hxp, Ho, Hin, Hxo.
    cbn [forM_]. unfold bind at 1. unfold bind at 1, getattr at 1, gets at 1.
    cbn [fst snd]. rewrite Hxp.
    unfold bind at 1, objmap_item at 1, bind at 1, gets at 1. rewrite Ho.
    unfold ret at 1. unfold bind at 1, setattr at 1, modify at 1.
    unfold setattr at 1, modify at 1.
    set (wo := set_heap (insert o (with_subobj pre (deref w o))) w).
    set (w1 := set_heap (insert p (with_subobj pre (deref wo p))) wo).
    assert (Hf1 : subobj_frame w w1).
    { eapply subobj_frame_trans; [by apply subobj_frame_setattr |].
      apply subobj_frame_setattr.
      subst wo. cbn. rewrite dom_insert_L, elem_of_union. by right. }
    assert (Hom : objmap (mgr w1) = objmap (mgr w)) by done.
    destruct (IH w1) as (w' & Hrun & Hf & Hrb & Hother); [done | |].
    { eapply Forall_impl; [done |]. intros it.
      by apply item_ok_frame, subobj_frame_record. }
    rewrite Hom in Hrun. exists w'. split; [exact Hrun |].
    split; [by eapply subobj_frame_trans |].
    assert (Hdict : ∀ w2, subobj_frame w w2 →
              dict_at w2 (objmap (mgr w2)) = dict_at w (objmap (mgr w))).
    { intros w2 (Hm & Hd & _). unfold dict_at. by rewrite Hm, Hd. }
    assert (Hapart : ∀ item' o', item' ∈ l →
              dict_at w (objmap (mgr w)) !! item'.1 = Some o' →
              p ≠ item'.2.1 ∧ p ≠ o' ∧ o ≠ item'.2.1 ∧ o ≠ o').
    { intros item' o' Hin' Ho'.
      apply (items_apart w (k, (p, pre)) item' o o'); try done.
      - by eapply Forall_forall in Hall.
      - cbn. intros ->. apply Hk. apply list_elem_of_fmap. by exists item'. }
    split.
    + intros k' p' pre' o' Hin' Ho'.
      rewrite (Hdict w') in Ho' by by eapply subobj_frame_trans.
      apply elem_of_cons in Hin' as [Heq | Hin'].
      * injection Heq as -> -> ->. assert (o' = o) as -> by congruence.
        assert (Hp' : deref w' p = deref w1 p).
        { apply Hother. intros item' o'' Hin'' Ho''.
          rewrite (Hdict w1) in Ho'' by done.
          destruct (Hapart item' o'' Hin'' Ho'') as (? & ? & ? & ?). done. }
        assert (Ho'' : deref w' o = deref w1 o).
        { apply Hother. intros item' o'' Hin'' Ho''.
          rewrite (Hdict w1) in Ho'' by done.
          destruct (Hapart item' o'' Hin'' Ho'') as (? & ? & ? & ?). done. }
        rewrite Hp', Ho''. subst w1. rewrite deref_insert. split; [done |].
        destruct (decide (p = o)) as [-> | Hne].
        -- by rewrite deref_insert.
        -- rewrite deref_insert_ne by done. subst wo. by rewrite deref_insert.
      * apply (Hrb k' p' pre' o' Hin').
        by rewrite (Hdict w') by by eapply subobj_frame_trans.
    + intros a Ha. rewrite Hother.
      * destruct (Ha (k, (p, pre)) o) as [Hap Hao]; [by left | done |].
        cbn in Hap. subst w1 wo. by rewrite !deref_insert_ne.
      * intros item' o' Hin' Ho'. rewrite (Hdict w1) in Ho' by done.
        apply (Ha item' o'); [by right | done].
Qed.

(** The loop of [commit] that brings the object map up to the proxies. *)
Lemma install_loop (l : list (Z * (addr * value))) : ∀ w,
  NoDup l.*1 → Forall (item_ok w) l →
  ∃ w',
    forM_ (λ item : Z * (addr * value),
             let! o := objmap_item (objmap (mgr w)) item.1 in
             let! s := getattr item.2.1 subobj in
             setattr o (with_subobj s)) l w = (Ok tt, w') ∧
    subobj_frame w w' ∧ installed l w w' ∧
    ∀ a, (∀ item, item ∈ l →
            dict_at w (objmap (mgr w)) !! item.1 ≠ Some a) →
         deref w' a = deref w a.
Proof.
  induction l as [| item l IH]; intros w Hnd Hall.
  - exists w. split; [done |]. split; [apply subobj_frame_refl |].
    split; [| done]. intros k p pre o Hin. by apply elem_of_nil in Hin.
  - apply NoDup_cons in Hnd as [Hk Hnd]. apply Forall_cons in Hall as [Hitem Hall].
    destruct item as [k [p pre]]. pose proof Hitem as (Hp & Hxp & o & Ho & Hin & Hxo).
    cbn in Hp, Hxp, Ho, Hin, Hxo.
    cbn [forM_]. unfold bind at 1. unfold bind at 1, objmap_item at 1.
    unfold bind at 1, gets at 1. cbn [fst snd]. rewrite Ho. unfold ret at 1.
    unfold bind at 1, getattr at 1, gets at 1. unfold setattr at 1, modify at 1.
    set (w1 := set_heap (insert o (with_subobj (subobj (deref w p)) (deref w o))) w).
    assert (Hf1 : subobj_frame w w1) by by apply subobj_frame_setattr.
    assert (Hom : objmap (mgr w1) = objmap (mgr w)) by done.
    destruct (IH w1) as (w' & Hrun & Hf & Hinst & Hother); [done | |].
    { eapply Forall_impl; [done |]. intros it.
      by apply item_ok_frame, subobj_frame_record. }
    rewrite Hom in Hrun. exists w'. split; [exact Hrun |].
    split; [by eapply subobj_frame_trans |].
    assert (Hdict : ∀ w2, subobj_frame w w2 →
              dict_at w2 (objmap (mgr w2)) = dict_at w (objmap (mgr w))).
    { intros w2 (Hm & Hd & _). unfold dict_at. by rewrite Hm, Hd. }
    assert (Hapart : ∀ item' o', item' ∈ l →
              dict_at w (objmap (mgr w)) !! item'.1 = Some o' →
              p ≠ item'.2.1 ∧ p ≠ o' ∧ o ≠ item'.2.1 ∧ o ≠ o').
    { intros item' o' Hin' Ho'.
      apply (items_apart w (k, (p, pre)) item' o o'); try done.
      - by eapply Forall_forall in Hall.
      - cbn. intros ->. apply Hk. apply list_elem_of_fmap. by exists item'. }
    assert (Hp1 : subobj (deref w1 p) = subobj (deref w p)).
    { subst w1. destruct (decide (o = p)) as [-> | Hne].
      - by rewrite deref_insert.
      - by rewrite deref_insert_ne. }
    split.
    + intros k' p' pre' o' Hin' Ho'.
      rewrite (Hdict w') in Ho' by by eapply subobj_frame_trans.
      apply elem_of_cons in Hin' as [Heq | Hin'].
      * injection Heq as -> -> ->. assert (o' = o) as -> by congruence.
        assert (Hso : deref w' o = deref w1 o).
        { apply Hother. intros item' Hin'' Hi.
          rewrite (Hdict w1) in Hi by done.
          destruct (Hapart item' o Hin'' Hi) as (? & ? & ? & ?). done. }
        rewrite Hso. split; [subst w1; by rewrite deref_insert |].
        destruct (decide (p = o)) as [-> | Hne].
        -- rewrite Hso. subst w1. by rewrite deref_insert.
        -- rewrite <- Hp1. f_equal. apply Hother. intros item' Hin'' Hi.
           rewrite (Hdict w1) in Hi by done.
           destruct (Hapart item' p Hin'' Hi) as (? & ? & ? & ?). done.
      * assert (Hp' : subobj (deref w1 p') = subobj (deref w p')).
        { destruct (Hapart (k', (p', pre')) o' Hin' Ho') as (_ & _ & Hop & _).
          subst w1. by rewrite deref_insert_ne. }
        rewrite <- Hp'. apply (Hinst k' p' pre' o' Hin').
        by rewrite (Hdict w') by by eapply subobj_frame_trans.
    + intros a Ha. rewrite Hother.
      * subst w1. rewrite deref_insert_ne; [done |]. intros <-.
        by apply (Ha (k, (p, pre))); [left |].
      * intros item' Hin'. rewrite (Hdict w1) by done.
        apply Ha. by right.
Qed.

End Rollback.

Section Commit.
Context {B : Type} {BK : Backend B} {EV : Env}.
Implicit Types (w : World B) (item : Z * (addr * value)).

Lemma rollback_spec w :
  traced_ok w →
  ∃ w',
    Transaction_rollback w = (Ok tt, w') ∧
    subobj_frame w w' ∧ rolled_back (traced w) w' ∧
    ∀ a, (∀ item o, item ∈ traced w →
            dict_at w (objmap (mgr w)) !! item.1 = Some o →
            a ≠ item.2.1 ∧ a ≠ o) →
         deref w' a = deref w a.
Proof.
  intros [Hnd Hall]. unfold Transaction_rollback, bind, mgr_get, tr_get, gets.
  cbn [fst snd]. by apply rollback_loop.
Qed.

Lemma pickle_frame_record w0 w : pickle_frame w0 w → record_frame w0 w.
Proof.
  intros (Hm & Hd & _ & _ & Hx). repeat split; try by rewrite Hm.
  - unfold dict_at. by rewrite Hd.
  - by apply Hx.
  - by apply Hx.
Qed.

(** [_load] swaps a new dict in as [new_objmap] and fills it: the object
    map and the objects that were there are not affected. *)
Lemma load_record_frame p w :
  objmap (mgr w) ∈ dom (dicts w) →
  record_frame w (Manager__load p w).2.
Proof.
  intros Hdom. unfold Manager__load, bind, new_dict, mgr_set, modify.
  cbn [fst snd].
  set (l := fresh (dom (dicts w))).
  set (w1 := set_mgr (with_new_objmap l) (set_dicts (insert l ∅) w)).
  assert (Hl : l ≠ objmap (mgr w)).
  { intros Heq. apply (is_fresh (dom (dicts w))). by rewrite <- Heq in Hdom. }
  assert (H1 : record_frame w w1).
  { repeat split; try done. unfold dict_at. cbn. by rewrite lookup_insert_ne. }
  assert (H2 : load_frame w1 (Manager_load p w1).2).
  { unfold Manager_load. destruct p as [p |]; [| apply load_frame_refl].
    apply (load_frame_load w1 p w1), load_frame_refl. }
  assert (H3 : record_frame w1 (Manager_load p w1).2).
  { destruct H2 as (Hh & Hm & Hd & _ & _ & _).
    assert (Hmm : ∀ f : Manager → loc, (∀ m, f (with__xid 0 m) = f m) →
              f (mgr (Manager_load p w1).2) = f (mgr w1)).
    { intros f Hf. rewrite <- (Hf (mgr w1)), <- Hm. by rewrite Hf. }
    repeat split.
    - by apply (Hmm objmap).
    - by apply (f_equal _saved_tr) in Hm.
    - by apply (f_equal needs_update) in Hm.
    - by apply (f_equal cur_trans) in Hm.
    - unfold dict_at. by rewrite Hd.
    - apply elem_of_dom. rewrite Hh by done. by apply elem_of_dom.
    - unfold deref. by rewrite Hh. }
  destruct (Manager_load p w1) as [[r | e] w2]; cbn [fst snd] in *;
    by eapply record_frame_trans.
Qed.

(** A [try_write] that does not return True leaves the transaction
    record, the object map and the xids as they were. *)
Lemma try_write_record_frame obj ev w :
  objmap (mgr w) ∈ dom (dicts w) →
  (Manager_try_write obj ev w).1 ≠ Ok true →
  record_frame w (Manager_try_write obj ev w).2.
Proof.
  intros Hdom. unfold Manager_try_write, bind.
  assert (Hev : ∃ v, (match ev with
                      | Some v => ret v
                      | None => mgr_get version
                      end) w = (Ok v, w)) by (destruct ev; by eexists).
  destruct Hev as [v ->].
  pose proof (pickle_frame_record _ _ (pickle_frame_payload w obj)) as H1.
  pose proof (pickle_frame_payload w obj) as (_ & Hd1 & _).
  destruct (Manager__payload obj w) as [[payload | e] w1]; cbn [fst snd] in *;
    [| done].
  assert (H2 : record_frame w1 (on_backend (backend_try_write payload v) w1).2).
  { unfold on_backend. destruct (backend_try_write payload v (backend w1)).
    by repeat split. }
  assert (Hd2 : dicts (on_backend (backend_try_write payload v) w1).2 = dicts w1).
  { unfold on_backend. by destruct (backend_try_write payload v (backend w1)). }
  destruct (on_backend (backend_try_write payload v) w1) as [[[ok v'] | e] w2];
    cbn [fst snd] in *; [| intros _; by eapply record_frame_trans].
  destruct ok; cbn [fst snd]; [| intros _; by eapply record_frame_trans].
  assert (H3 : record_frame w2 (Manager__load (Some payload) w2).2).
  { apply load_record_frame. destruct H2 as (-> & _). destruct H1 as (-> & _).
    by rewrite Hd2, Hd1. }
  destruct (Manager__load (Some payload) w2) as [[root | e] w3];
    cbn [fst snd] in *.
  - unfold Manager__update, bind, mgr_get, gets. cbn [fst snd].
    case_bool_decide; cbn; done.
  - intros _. eapply record_frame_trans; [done |].
    by eapply record_frame_trans.
Qed.

Lemma traced_objmap_dom w :
  traced_ok w → traced w ≠ [] → objmap (mgr w) ∈ dom (dicts w).
Proof.
  intros [_ Hall] Hne. destruct (traced w) as [| item l]; [done |].
  apply Forall_cons in Hall as [(_ & _ & o & Ho & _) _].
  unfold dict_at in Ho. apply elem_of_dom.
  destruct (dicts w !! objmap (mgr w)); [done |]. cbn in Ho.
  by rewrite lookup_empty in Ho.
Qed.

(** The part of [commit] that follows the loop. *)
Lemma commit_after_install w1 :
  (let! rv := try_except
                (let! root := mgr_get root_obj in
                 let! v := tr_get tversion in
                 Manager_try_write root (Some v))
                (λ _, ret false) in
   (if negb rv then Transaction_rollback else ret tt) ;;
   ret rv) w1 =
  let t := Manager_try_write (root_obj (mgr w1))
             (Some (tversion (_saved_tr (mgr w1)))) w1 in
  match t.1 with
  | Ok true => (Ok true, t.2)
  | _ => (let! _ := Transaction_rollback in ret false) t.2
  end.
Proof.
  unfold bind at 1, try_except.
  unfold bind at 1, mgr_get at 1, gets at 1. cbn [fst snd].
  unfold bind at 1, tr_get at 1, mgr_get at 1, gets at 1. cbn [fst snd].
  cbn zeta.
  destruct (Manager_try_write (root_obj (mgr w1))
              (Some (tversion (_saved_tr (mgr w1)))) w1) as [[[|] | e] w2];
    cbn [fst snd negb]; try done.
Qed.

(** What [commit] does when the transaction is not empty. *)
Lemma commit_spec w :
  traced_ok w → traced w ≠ [] →
  let w1 := install_world w in
    subobj_frame w w1 ∧ installed (traced w) w w1 ∧
    let t := Manager_try_write (root_obj (mgr w))
               (Some (tversion (_saved_tr (mgr w)))) w1 in
    (t.1 = Ok true → Transaction_commit w = (Ok true, t.2)) ∧
    (t.1 ≠ Ok true →
     ∃ w3, Transaction_commit w = (Ok false, w3) ∧
           subobj_frame t.2 w3 ∧ rolled_back (traced w) w3 ∧
           record_frame w w3).
Proof.
  intros Hok Hne. pose proof Hok as [Hnd Hall].
  destruct (install_loop (traced w) w Hnd Hall) as (w1 & Hrun & Hf & Hinst & _).
  assert (install_world w = w1) as -> by (unfold install_world; by rewrite Hrun).
  cbn zeta. split; [done |]. split; [done |].
  pose proof Hf as (Hm & _).
  assert (Hcommit : Transaction_commit w =
            (let! rv := try_except
                          (let! root := mgr_get root_obj in
                           let! v := tr_get tversion in
                           Manager_try_write root (Some v))
                          (λ _, ret false) in
             (if negb rv then Transaction_rollback else ret tt) ;;
             ret rv) w1).
  { unfold Transaction_commit. unfold bind at 1, tr_get at 1, mgr_get at 1, gets at 1.
    cbn [fst snd]. fold (traced w). destruct (traced w) as [| item l] eqn:Hitems; [done |].
    unfold bind at 1, mgr_get at 1, gets at 1. cbn [fst snd].
    unfold bind at 1. by rewrite Hrun. }
  rewrite Hcommit, commit_after_install. rewrite Hm. cbn zeta.
  pose proof (try_write_record_frame (root_obj (mgr w))
                (Some (tversion (_saved_tr (mgr w)))) w1) as Hframe.
  destruct (Manager_try_write (root_obj (mgr w))
              (Some (tversion (_saved_tr (mgr w)))) w1) as [r w2].
  cbn [fst snd] in *.
  assert (Hfail : r ≠ Ok true →
            ∃ w3, (let! _ := Transaction_rollback in ret false) w2 = (Ok false, w3) ∧
                  subobj_frame w2 w3 ∧ rolled_back (traced w) w3 ∧
                  record_frame w w3).
  { intros Hr.
    assert (Hrec : record_frame w w2).
    { eapply record_frame_trans; [by apply subobj_frame_record |].
      apply Hframe; [| done].
      destruct Hf as (-> & -> & _). by apply traced_objmap_dom. }
    assert (Hok2 : traced_ok w2) by by eapply traced_ok_frame.
    destruct (rollback_spec w2 Hok2) as (w3 & Hrb & Hf3 & Hrolled & _).
    exists w3. unfold bind. rewrite Hrb. split; [done |]. split; [done |].
    assert (Ht : traced w2 = traced w).
    { unfold traced. by destruct Hrec as (_ & -> & _). }
    rewrite Ht in Hrolled. split; [done |].
    eapply record_frame_trans; [done |]. by apply subobj_frame_record. }
  split.
  - intros ->. done.
  - intros Hr. destruct (Hfail Hr) as (w3 & Hrun3 & H3).
    exists w3. split; [| done].
    destruct r as [[|] | e]; [done | |]; exact Hrun3.
Qed.

Lemma exit_unfold exc w :
  depth (_saved_tr (mgr w)) = 1 →
  Transaction___exit__ exc w =
    ((match exc with
      | Some _ => Transaction_rollback ;; Transaction_unlink
      | None =>
          let! rv := Transaction_commit in
          Transaction_unlink ;;
          if negb rv then raise TransactionError else ret tt
      end) ;; ret false) (leave w).
Proof.
  intros Hd. unfold Transaction___exit__.
  unfold bind at 1, mgr_set at 1, modify at 1. fold (leave w).
  unfold bind at 1, tr_get at 1, mgr_get at 1, gets at 1. cbn [fst snd].
  rewrite bool_decide_eq_true_2; [done |]. cbn. lia.
Qed.



End Commit.



Section Abort.
Context {B : Type} {BK : Backend B} {EV : Env}.
Implicit Types (w : World B) (item : Z * (addr * value)).




Lemma unlink_no_deferred w :
  needs_update (mgr w) = false →
  Transaction_unlink w = (Ok tt, unlinked w).
Proof.
  intros Hn.
  unfold Transaction_unlink, Manager_unlink_trans, bind, mgr_set, mgr_get,
    modify, gets.
  cbn. by rewrite Hn.
Qed.



End Abort.




(** ** The round trip of the serialiser *)

Section MapM.
Context {S A C : Type}.
Implicit Types (f : A → M S C).

Lemma map_M_pure2 f ys ps (w : S) :
  Forall2 (λ y p, f y w = (Ok p, w)) ys ps → map_M f ys w = (Ok ps, w).
Proof.
  induction 1 as [| y p ys ps Hy _ IH]; [done |].
  cbn. unfold bind. rewrite Hy. fold (map_M f). by rewrite IH.
Qed.

Lemma map_M_pure f (g : A → C) l (w : S) :
  Forall (λ x, f x w = (Ok (g x), w)) l → map_M f l w = (Ok (map g l), w).
Proof.
  intros Hl. apply map_M_pure2. induction Hl; constructor; done.
Qed.

Lemma map_M_map {A'} f (g : A' → A) l : map_M f (map g l) = map_M (f ∘ g) l.
Proof.
  induction l as [| x l IH]; [done |]. cbn. fold (map_M f) (map_M (f ∘ g)).
  by rewrite IH.
Qed.

(** [map_M] over a list whose elements all return, for a property [Q] of
    an element, its result and the worlds before and after it, and a
    preorder of worlds [R] along which [Q] can be widened. *)
Lemma map_M_thread f (R : S → S → Prop) (Q : A → C → S → S → Prop) l :
  (∀ w, R w w) →
  (∀ w0 w1 w2, R w0 w1 → R w1 w2 → R w0 w2) →
  (∀ x y w0 w1 w2 w3, R w0 w1 → R w1 w2 → R w2 w3 → Q x y w1 w2 → Q x y w0 w3) →
  Forall (λ x, ∀ w, ∃ y w', f x w = (Ok y, w') ∧ R w w' ∧ Q x y w w') l →
  ∀ w, ∃ ys w', map_M f l w = (Ok ys, w') ∧ R w w' ∧
                Forall2 (λ x y, Q x y w w') l ys.
Proof.
  intros Hrefl Htrans Hwiden. induction 1 as [| x l Hx _ IH]; intros w.
  - exists [], w. split; [done |]. split; [apply Hrefl | constructor].
  - destruct (Hx w) as (y & w1 & Hrun & HR1 & HQ).
    destruct (IH w1) as (ys & w2 & Hruns & HR2 & HQs).
    exists (y :: ys), w2. cbn. unfold bind. rewrite Hrun.
    fold (map_M f). rewrite Hruns. split; [done |].
    split; [by eapply Htrans |]. constructor.
    + by apply (Hwiden x y w w w1 w2).
    + eapply Forall2_impl; [done |]. intros x' y' HQ'.
      by apply (Hwiden x' y' w w1 w2 w2).
Qed.

End MapM.

Lemma all2_Forall2 {A C} (f : A → C → bool) l l' :
  Forall2 (λ x y, f x y = true) l l' → all2 f l l' = true.
Proof.
  induction 1 as [| x y l l' Hxy _ IH]; [done |]. cbn. by rewrite Hxy, IH.
Qed.

(** *** Plain values and their height *)

Lemma plain_elem l x : forallb plain l = true → x ∈ l → plain x = true.
Proof.
  intros Hl Hx. rewrite forallb_forall in Hl. by apply Hl, list_elem_of_In.
Qed.

Lemma height_elem l (x : value) :
  x ∈ l → (height x ≤ foldr (λ x n, height x `max` n) 0 l)%nat.
Proof.
  induction l as [| y l IH]; intros Hx; [by apply elem_of_nil in Hx |].
  cbn. apply elem_of_cons in Hx as [-> | Hx]; [lia |].
  specialize (IH Hx). lia.
Qed.

Lemma plain_item (l : list (value * value)) k v :
  forallb (λ kv, let '(k, v) := kv in plain k && plain v) l = true →
  (k, v) ∈ l → plain k = true ∧ plain v = true.
Proof.
  intros Hl Hx. rewrite forallb_forall in Hl.
  apply list_elem_of_In, Hl in Hx. by apply andb_true_iff in Hx.
Qed.

Lemma height_item (l : list (value * value)) k v :
  (k, v) ∈ l →
  (height k `max` height v
   ≤ foldr (λ kv n, let '(k, v) := kv in (height k `max` height v) `max` n)
           0 l)%nat.
Proof.
  induction l as [| [k' v'] l IH]; intros Hx; [by apply elem_of_nil in Hx |].
  cbn. apply elem_of_cons in Hx as [[= -> ->] | Hx]; [lia |].
  specialize (IH Hx). lia.
Qed.

Lemma plain_attr (l : list (string * value)) k v :
  forallb (λ kv, let '(_, v) := kv in plain v) l = true →
  (k, v) ∈ l → plain v = true.
Proof.
  intros Hl Hx. rewrite forallb_forall in Hl.
  by apply list_elem_of_In, Hl in Hx.
Qed.

Lemma height_attr (l : list (string * value)) k v :
  (k, v) ∈ l →
  (height v ≤ foldr (λ kv n, let '(_, v) := kv in height v `max` n) 0 l)%nat.
Proof.
  induction l as [| [k' v'] l IH]; intros Hx; [by apply elem_of_nil in Hx |].
  cbn. apply elem_of_cons in Hx as [[= -> ->] | Hx]; [lia |].
  specialize (IH Hx). lia.
Qed.

Lemma height_pos v : (1 ≤ height v)%nat.
Proof. destruct v; cbn; lia. Qed.

Section RawRoundTrip.
Context {B : Type} {BK : Backend B} {EV : Env}.
Implicit Types (w : World B).

(** The pickler on a plain value that was not promoted: the state is not
    touched and the stream is [raw_stream]. *)
Lemma dump_raw x :
  plain x = true →
  ∀ n w, (height x ≤ n)%nat → DPickler_dump n x w = (Ok (raw_stream x), w).
Proof.
  induction x as [| | | | | | l IH | l IH | l IH | l IH | l IH | | | c l IH
                 | | c l IH | | |] using value_nested_ind;
    intros Hp [| n] w Hn; try (cbn in Hn; lia); try done.
  all: cbn in Hp, Hn; cbn [DPickler_dump raw_stream]; unfold bind.
  1-4: rewrite (map_M_pure _ raw_stream); [done |];
       rewrite Forall_forall in IH |- *; intros x Hx;
       apply IH; [done | by eapply plain_elem |];
       pose proof (height_elem l x Hx); lia.
  - rewrite (map_M_pure _ (λ kv, let '(k, v) := kv in
                                 (raw_stream k, raw_stream v))); [done |].
    rewrite Forall_forall in IH |- *. intros [k v] Hx.
    destruct (IH _ Hx) as [IHk IHv]. cbn in IHk, IHv.
    destruct (plain_item l k v Hp Hx) as [Hk Hv].
    pose proof (height_item l k v Hx).
    unfold bind. cbn [fst snd].
    rewrite IHk; [| done | lia]. by rewrite IHv; [| done | lia].
  - rewrite (map_M_pure _ (λ kv, let '(k, v) := kv in (PStr k, raw_stream v)));
      [done |].
    rewrite Forall_forall in IH |- *. intros [k v] Hx.
    pose proof (IH _ Hx) as IHv. cbn in IHv.
    pose proof (plain_attr l k v Hp Hx) as Hv.
    pose proof (height_attr l k v Hx).
    unfold bind. cbn [fst snd]. by rewrite IHv; [| done | lia].
Qed.

Lemma str_keys_attrs (l : list (string * value)) :
  str_keys (map (λ kv, let '(k, v) := kv in (VStr k, v)) l) = Some l.
Proof.
  unfold str_keys. induction l as [| [k v] l IH]; [done |].
  cbn. cbn in IH. by rewrite IH.
Qed.

(** The unpickler on such a stream: the state is not touched and the value
    is the one that was saved. *)
Lemma load_raw x :
  plain x = true → ∀ w, DUnpickler_load (raw_stream x) w = (Ok x, w).
Proof.
  induction x as [| | | | | | l IH | l IH | l IH | l IH | l IH | | | c l IH
                 | | c l IH | | |] using value_nested_ind;
    intros Hp w; try done.
  all: cbn in Hp; cbn [DUnpickler_load raw_stream]; unfold bind.
  1-4: rewrite map_M_map, (map_M_pure _ id); [by rewrite map_id |];
       rewrite Forall_forall in IH |- *; intros x Hx;
       apply IH; [done | by eapply plain_elem].
  - rewrite map_M_map, (map_M_pure _ id); [by rewrite map_id |].
    rewrite Forall_forall in IH |- *. intros [k v] Hx.
    destruct (IH _ Hx) as [IHk IHv]. cbn in IHk, IHv.
    destruct (plain_item l k v Hp Hx) as [Hk Hv].
    cbn. unfold bind. rewrite IHk by done. by rewrite IHv.
  - cbn. unfold bind.
    rewrite map_M_map,
      (map_M_pure _ (λ kv : string * value, let '(k, v) := kv in (VStr k, v))).
    + cbn. by rewrite str_keys_attrs.
    + rewrite Forall_forall in IH |- *. intros [k v] Hx.
      pose proof (IH _ Hx) as IHv. cbn in IHv.
      pose proof (plain_attr l k v Hp Hx) as Hv.
      cbn. unfold bind. by rewrite IHv.
Qed.

Lemma float_eq_refl f : f ≠ FNan → float_eq f f = true.
Proof.
  destruct f as [| b | q]; intros Hf; [done | |]; cbn.
  - by apply bool_decide_eq_true_2.
  - apply Qeq_bool_iff. reflexivity.
Qed.

(** A plain value is equal to itself. *)
Lemma sem_eq_refl h x : plain x = true → sem_eq h x x = true.
Proof.
  induction x as [| | | f | | | l IH | l IH | l IH | l IH | l IH | | | c l IH
                 | | c l IH | | |] using value_nested_ind;
    intros Hp; try done; cbn in Hp; cbn [sem_eq seen];
    try (by apply bool_decide_eq_true_2).
  - apply float_eq_refl. by destruct f.
  - apply all2_Forall2, Forall_Forall2_diag.
    rewrite Forall_forall in IH |- *. intros x Hx.
    apply IH; [done | by eapply plain_elem].
  - apply all2_Forall2, Forall_Forall2_diag.
    rewrite Forall_forall in IH |- *. intros x Hx.
    apply IH; [done | by eapply plain_elem].
  - apply all2_Forall2, Forall_Forall2_diag.
    rewrite Forall_forall in IH |- *. intros x Hx.
    apply IH; [done | by eapply plain_elem].
  - apply all2_Forall2, Forall_Forall2_diag.
    rewrite Forall_forall in IH |- *. intros x Hx.
    apply IH; [done | by eapply plain_elem].
  - apply all2_Forall2, Forall_Forall2_diag.
    rewrite Forall_forall in IH |- *. intros [k v] Hx.
    destruct (IH _ Hx) as [IHk IHv]. cbn in IHk, IHv.
    destruct (plain_item l k v Hp Hx) as [Hk Hv].
    cbn. by rewrite IHk, IHv.
  - rewrite bool_decide_eq_true_2 by done. cbn.
    apply all2_Forall2, Forall_Forall2_diag.
    rewrite Forall_forall in IH |- *. intros [k v] Hx.
    pose proof (IH _ Hx) as IHv. cbn in IHv.
    pose proof (plain_attr l k v Hp Hx) as Hv.
    cbn. rewrite bool_decide_eq_true_2 by done. by rewrite IHv.
Qed.

End RawRoundTrip.

Section Promote.
Context {B : Type} {BK : Backend B} {EV : Env}.
Implicit Types (w : World B).

Lemma load_frame_trans w0 w1 w2 :
  load_frame w0 w1 → load_frame w1 w2 → load_frame w0 w2.
Proof.
  intros H01 H12. pose proof (load_frame_new_objmap _ _ H01) as Hn.
  pose proof (λ a, load_frame_dom _ _ a H01) as Hdom.
  destruct H01 as (Hh & Hm & Hd & Hdd & Hb & Ht).
  destruct H12 as (Hh' & Hm' & Hd' & Hdd' & Hb' & Ht').
  split; [| split; [| split; [| split; [| split]]]]; try congruence.
  - intros a Ha. rewrite Hh' by auto. by apply Hh.
  - intros l Hl. rewrite Hd' by congruence. by apply Hd.
  - set_solver.
Qed.

Lemma load_frame_version w0 w :
  load_frame w0 w → version (mgr w) = version (mgr w0).
Proof. intros (_ & Hm & _). by apply (f_equal version) in Hm. Qed.

Lemma load_frame_lookup w0 w a d :
  load_frame w0 w → heap w0 !! a = Some d → heap w !! a = Some d.
Proof.
  intros (Hh & _) Ha. rewrite Hh; [done |]. by apply elem_of_dom.
Qed.

(** [DObject (subobj, dmgr = self)] on a sub-object of the class's base
    type. *)
Lemma init_new k s w :
  base_type k s = Ok s → (∀ o, s ≠ VRef o) →
  let a := fresh (dom (heap w)) in
  let d := mkDObject k s 0 (Some this_mgr) (version (mgr w)) in
  DObject___init__ k s 0 (Some this_mgr) w = (Ok a, set_heap (insert a d) w) ∧
  load_frame w (set_heap (insert a d) w) ∧
  heap (set_heap (insert a d) w) !! a = Some d.
Proof.
  intros Hs Hne a d. split; [| split].
  - unfold DObject___init__. destruct s; try (by rewrite Hs); by destruct (Hne a0).
  - apply (load_frame_alloc w d w), load_frame_refl.
  - cbn. by rewrite lookup_insert_eq.
Qed.

(** The pickler on a proxy that is up to date. *)
Lemma dump_proxy a d w n p :
  heap w !! a = Some d → dmgr d = Some this_mgr →
  dversion d = version (mgr w) →
  DPickler_dump n (subobj d) w = (Ok p, w) →
  DPickler_dump (S n) (VRef a) w =
    (Ok (PNewObj (PPersId (dtype_index (cls d)))
                 (PTuple [p; PInt (xid d); PPersId (-1)])), w).
Proof.
  intros Ha Hm Hv Hs. cbn [DPickler_dump].
  unfold bind at 1. unfold _ensure_latest_subobj, bind at 1, getattr at 1, gets at 1.
  assert (Hd : deref w a = d) by (unfold deref; by rewrite Ha).
  cbn [fst snd]. rewrite Hd. unfold bind at 1, mgr_get at 1, gets at 1.
  cbn [fst snd]. rewrite (bool_decide_eq_true_2 (dversion d = _)) by done.
  rewrite orb_true_r. unfold ret at 1.
  unfold bind at 1, getattr at 1, gets at 1. cbn [fst snd]. rewrite Hd.
  unfold bind, id. rewrite Hs. by rewrite Hm.
Qed.

(** A new proxy over [s], seen from a later world. *)
Lemma dump_new_proxy k s w w' n p :
  let a := fresh (dom (heap w)) in
  let d := mkDObject k s 0 (Some this_mgr) (version (mgr w)) in
  load_frame (set_heap (insert a d) w) w' →
  DPickler_dump n s w' = (Ok p, w') →
  DPickler_dump (S n) (VRef a) w' = (Ok (dobject_stream k p), w').
Proof.
  intros a d Hf Hs.
  apply (dump_proxy a d); [| done | | done].
  - eapply load_frame_lookup; [done |]. cbn. by rewrite lookup_insert_eq.
  - cbn. by rewrite (load_frame_version _ _ Hf).
Qed.

Lemma Forall2_elem_impl {A C} (P Q : A → C → Prop) l l' :
  Forall2 P l l' → (∀ x y, x ∈ l → P x y → Q x y) → Forall2 Q l l'.
Proof.
  induction 1 as [| x y l l' Hxy _ IH]; intros HPQ; constructor.
  - apply HPQ; [by left | done].
  - apply IH. intros x' y' Hx'. apply HPQ. by right.
Qed.

(** [make_pickable] on a plain value returns, makes new objects only, and
    what it returns is saved as [stream]. *)
Lemma make_pickable_plain x :
  plain x = true →
  ∀ w, ∃ y w', make_pickable x w = (Ok y, w') ∧ load_frame w w' ∧
               dumps_as x y w'.
Proof.
  assert (Hraw : ∀ x w, plain x = true → stream x = raw_stream x →
                        make_pickable x w = (Ok x, w) →
                        ∃ y w', make_pickable x w = (Ok y, w') ∧
                                load_frame w w' ∧ dumps_as x y w').
  { intros v w Hp Hs Hrun. exists v, w. split; [done |].
    split; [apply load_frame_refl |]. intros w' n _ Hn. rewrite Hs.
    apply dump_raw; [done | lia]. }
  assert (Hwiden : ∀ (v y : value) (w0 w1 w2 w3 : World B),
             load_frame w0 w1 → load_frame w1 w2 → load_frame w2 w3 →
             dumps_as v y w2 → dumps_as v y w3).
  { intros v y w0 w1 w2 w3 _ _ H23 HQ w' n Hf Hn.
    apply HQ; [by eapply load_frame_trans | done]. }
  assert (Hseq : ∀ l w,
             Forall (λ x, plain x = true →
                          ∀ w, ∃ y w', make_pickable x w = (Ok y, w') ∧
                                       load_frame w w' ∧ dumps_as x y w') l →
             forallb plain l = true →
             ∃ ys w1, map_M make_pickable l w = (Ok ys, w1) ∧
                      load_frame w w1 ∧
                      ∀ w' n, load_frame w1 w' →
                              (2 * S (foldr (λ x n, height x `max` n) 0 l)
                               ≤ S (S n))%nat →
                              map_M (DPickler_dump n) ys w'
                              = (Ok (map stream l), w')).
  { intros l w IH Hp.
    destruct (map_M_thread make_pickable load_frame
                (λ x y _ w, dumps_as x y w) l load_frame_refl
                load_frame_trans Hwiden) with (w := w)
      as (ys & w1 & Hrun & Hf1 & Hys).
    { rewrite Forall_forall in IH |- *. intros v Hv w0.
      apply IH; [done | by eapply plain_elem]. }
    exists ys, w1. split; [done |]. split; [done |]. intros w' n Hf Hn.
    apply map_M_pure2, Forall2_fmap_r, Forall2_flip.
    eapply Forall2_elem_impl; [done |]. intros v y Hv HQ. cbn in HQ.
    apply HQ; [done |]. pose proof (height_elem l v Hv). lia. }
  induction x as [| | | | | | l IH | l IH | l IH | l IH | l IH | b | | c l IH
                 | | c l IH | | |] using value_nested_ind;
    intros Hp w; try done; try (by apply Hraw).
  - (* list *)
    cbn in Hp. cbn [make_pickable]. unfold bind at 1.
    destruct (Hseq l w IH Hp) as (ys & w1 & Hrun & Hf1 & Hdump).
    rewrite Hrun.
    destruct (init_new DList (VList ys) w1) as (Hinit & Hf2 & Hd); [done.. |].
    unfold bind. rewrite Hinit. eexists _, _. split; [done |].
    split; [by eapply load_frame_trans |].
    intros w' [| [| n]] Hf Hn; [cbn in Hn; lia.. |].
    apply (dump_new_proxy DList (VList ys) w1); [done |].
    cbn [DPickler_dump]. unfold bind.
    rewrite Hdump; [done | by eapply load_frame_trans | done].
  - (* set *)
    cbn in Hp. cbn [make_pickable]. unfold bind at 1.
    destruct (Hseq l w IH Hp) as (ys & w1 & Hrun & Hf1 & Hdump).
    rewrite Hrun.
    destruct (init_new DSet (VSet ys) w1) as (Hinit & Hf2 & Hd); [done.. |].
    unfold bind. rewrite Hinit. eexists _, _. split; [done |].
    split; [by eapply load_frame_trans |].
    intros w' [| [| n]] Hf Hn; [cbn in Hn; lia.. |].
    apply (dump_new_proxy DSet (VSet ys) w1); [done |].
    cbn [DPickler_dump]. unfold bind.
    rewrite Hdump; [done | by eapply load_frame_trans | done].
  - (* dict *)
    cbn in Hp. cbn [make_pickable]. unfold bind at 1.
    destruct (map_M_thread
                (λ kv : value * value,
                   match kv with
                   | (k, v) =>
                       let! k' := make_pickable k in
                       let! v' := make_pickable v in
                       ret (k', v')
                   end)
                load_frame
                (λ kv kv' _ w, dumps_as kv.1 kv'.1 w ∧ dumps_as kv.2 kv'.2 w)
                l load_frame_refl load_frame_trans) with (w := w)
      as (ys & w1 & Hrun & Hf1 & Hys).
    { intros kv kv' w0 w1 w2 w3 H01 H12 H23 [HQ1 HQ2].
      split; by apply (Hwiden _ _ w0 w1 w2 w3). }
    { rewrite Forall_forall in IH |- *. intros [k v] Hx w0.
      destruct (IH _ Hx) as [IHk IHv]. cbn in IHk, IHv.
      destruct (plain_item l k v Hp Hx) as [Hk Hv].
      destruct (IHk Hk w0) as (k' & w1 & Hrk & Hfk & HQk).
      destruct (IHv Hv w1) as (v' & w2 & Hrv & Hfv & HQv).
      exists (k', v'), w2. unfold bind. rewrite Hrk, Hrv.
      split; [done |]. split; [by eapply load_frame_trans |].
      split; [| done].
      by apply (Hwiden k k' w1 w1 w1 w2); [apply load_frame_refl.. | |]. }
    rewrite Hrun.
    destruct (init_new DDict (VDict ys) w1) as (Hinit & Hf2 & Hd); [done.. |].
    unfold bind. rewrite Hinit. eexists _, _. split; [done |].
    split; [by eapply load_frame_trans |].
    intros w' [| [| n]] Hf Hn; [cbn in Hn; lia.. |].
    apply (dump_new_proxy DDict (VDict ys) w1); [done |].
    cbn [DPickler_dump]. unfold bind.
    rewrite (map_M_pure2 _ ys
               (map (λ kv, let '(k, v) := kv in (stream k, stream v)) l));
      [done |].
    apply Forall2_fmap_r, Forall2_flip.
    eapply Forall2_elem_impl; [done |]. intros [k v] [k' v'] Hx [HQk HQv].
    cbn in HQk, HQv. pose proof (height_item l k v Hx). cbn in Hn.
    unfold bind. cbn [fst snd].
    rewrite HQk; [| by eapply load_frame_trans | lia].
    by rewrite HQv; [| by eapply load_frame_trans | lia].
  - (* bytearray *)
    cbn [make_pickable].
    destruct (init_new DByteArray (VByteArray b) w) as (Hinit & Hf2 & Hd);
      [done.. |].
    unfold bind. rewrite Hinit. eexists _, _. split; [done |].
    split; [done |].
    intros w' [| [| n]] Hf Hn; [cbn in Hn; lia.. |].
    by apply (dump_new_proxy DByteArray (VByteArray b) w).
  - (* user record *)
    cbn in Hp. exists (VWrapper c l), w. split; [done |].
    split; [apply load_frame_refl |].
    intros w' [| n] Hf Hn; [cbn in Hn; lia |].
    cbn [DPickler_dump stream]. unfold bind.
    rewrite (map_M_pure _ (λ kv, let '(k, v) := kv in (PStr k, raw_stream v)));
      [done |].
    rewrite Forall_forall. intros [k v] Hx.
    pose proof (plain_attr l k v Hp Hx) as Hv.
    pose proof (height_attr l k v Hx). cbn in Hn.
    unfold bind. cbn [fst snd]. by rewrite dump_raw; [| done | lia].
Qed.

End Promote.

Section Reload.
Context {B : Type} {BK : Backend B} {EV : Env}.
Implicit Types (w : World B).

(** [link] on an object that has no xid yet gives it one and files it:
    its sub-object and the other objects are not touched. *)
Lemma link_new a w :
  xid (deref w a) = 0 →
  ∃ w' d, Manager_link a w = (Ok tt, w') ∧
          heap w' !! a = Some d ∧ subobj d = subobj (deref w a) ∧
          ∀ a', a' ≠ a → heap w' !! a' = heap w !! a'.
Proof.
  intros Hx.
  unfold Manager_link, bind at 1, getattr at 1, gets at 1. cbn [fst snd].
  rewrite Hx. rewrite bool_decide_eq_true_2 by done.
  unfold Manager_xid, bind, mgr_get, mgr_set, setattr, modify, gets, ret.
  cbn [fst snd]. eexists _, _. split; [done |]. cbn.
  rewrite lookup_insert_eq. split; [done |]. split.
  - unfold deref. cbn. by rewrite lookup_insert_eq.
  - intros a' Ha'. by rewrite !lookup_insert_ne.
Qed.

(** [__setstate__] with the state of a new object. *)
Lemma setstate_new a s w :
  ∃ w' d, DObject___setstate__ a (VTuple [s; VInt 0; VMgr]) w = (Ok tt, w') ∧
          heap w' !! a = Some d ∧ subobj d = s ∧
          ∀ a', a' ≠ a → heap w' !! a' = heap w !! a'.
Proof.
  unfold DObject___setstate__.
  unfold bind at 1, setattr at 1, modify at 1.
  unfold bind at 1, setattr at 1, modify at 1.
  unfold bind at 1, setattr at 1, modify at 1.
  cbn [fst snd].
  set (w3 := set_heap (insert a _) (set_heap (insert a _) (set_heap _ w))).
  destruct (link_new a w3) as (w' & d & Hrun & Hd & Hs & Hother).
  { subst w3. by rewrite !deref_insert. }
  exists w', d. split; [done |]. split; [done |]. split.
  - rewrite Hs. subst w3. by rewrite !deref_insert.
  - intros a' Ha'. rewrite Hother by done. subst w3. cbn.
    by rewrite !lookup_insert_ne.
Qed.

Lemma persistent_load_dtype k :
  DUnpickler_persistent_load (dtype_index k) = VClass (CDType k).
Proof. by destruct k. Qed.

(** The unpickler on the stream of a new distributed object: the object is
    made first, then its state is loaded and set. *)
Lemma load_dobject k sp s w wn :
  let a := fresh (dom (heap w)) in
  DUnpickler_load sp (set_heap (insert a (blank k)) w) = (Ok s, wn) →
  ∃ w' d, DUnpickler_load (dobject_stream k sp) w = (Ok (VRef a), w') ∧
          heap w' !! a = Some d ∧ subobj d = s ∧
          ∀ a', a' ≠ a → heap w' !! a' = heap wn !! a'.
Proof.
  intros a Hs.
  destruct (setstate_new a s wn) as (w' & d & Hrun & Hd & Hsub & Hother).
  exists w', d. split; [| done].
  unfold dobject_stream. cbn [DUnpickler_load].
  unfold bind at 1, ret at 1. rewrite persistent_load_dtype.
  unfold bind at 1, alloc at 1. cbn [fst snd]. fold a.
  unfold bind at 1. cbn [map_M]. unfold bind at 1 2. rewrite Hs.
  cbn [DUnpickler_load]. unfold bind, ret.
  change (DUnpickler_persistent_load (-1)) with VMgr.
  by rewrite Hrun.
Qed.

(** The objects made while the state of a new object [a] was loaded are
    in the final store as they were made. *)
Lemma new_under a k w (wn : World B) w' (h : gmap addr DObject) :
  (∀ a', a' ≠ a → heap w' !! a' = heap wn !! a') →
  (∀ a', a' ∉ dom (heap w) → a' ∈ dom (heap w') → h !! a' = heap w' !! a') →
  ∀ a', a' ∉ dom (heap (set_heap (insert a (blank k)) w)) →
        a' ∈ dom (heap wn) → h !! a' = heap wn !! a'.
Proof.
  intros Hother Hh a' Hout Hin. cbn in Hout.
  rewrite dom_insert_L, not_elem_of_union, not_elem_of_singleton in Hout.
  destruct Hout as [Hne Hout].
  rewrite <- Hother by done. apply Hh; [done |].
  apply elem_of_dom. rewrite Hother by done. by apply elem_of_dom.
Qed.

Lemma load_frame_of_load p w y w' :
  DUnpickler_load p w = (Ok y, w') → load_frame w w'.
Proof.
  intros Hrun. pose proof (load_frame_load w p w (load_frame_refl w)) as Hf.
  by rewrite Hrun in Hf.
Qed.

Lemma equal_on_new_widen (x y : value) w0 w1 w2 w3 :
  load_frame w0 w1 → load_frame w1 w2 → load_frame w2 w3 →
  equal_on_new x y w1 w2 → equal_on_new x y w0 w3.
Proof.
  intros H01 H12 H23 HQ h Hh. apply HQ. intros a Hout Hin.
  rewrite Hh.
  - destruct H23 as [Hheap _]. by apply Hheap.
  - intros Ha. apply Hout. by eapply load_frame_dom.
  - by eapply load_frame_dom.
Qed.

End Reload.

Section RoundTrip.
Context {B : Type} {BK : Backend B} {EV : Env}.
Implicit Types (w : World B).

(** The unpickler on the stream of a user record: [_make_any] files the
    values of the attributes in a new DList, and returns an instance whose
    attributes are read from it. *)
Lemma load_record c (attrs : list (string * value)) w :
  forallb (λ kv, let '(_, v) := kv in plain v) attrs = true →
  let a := fresh (dom (heap w)) in
  ∃ w' d, DUnpickler_load (stream (VInst c attrs)) w
            = (Ok (VDAny c attrs.*1 a), w') ∧
          heap w' !! a = Some d ∧ subobj d = VList attrs.*2.
Proof.
  intros Hp a.
  set (l' := map (λ kv : string * value, let '(k, v) := kv in (VStr k, v)) attrs).
  assert (Hvals : l'.*2 = attrs.*2).
  { subst l'. clear. induction attrs as [| [k v] attrs IH]; [done |].
    cbn. by rewrite IH. }
  set (d0 := mkDObject DList (VList attrs.*2) 0 None 0).
  destruct (link_new a (set_heap (insert a d0) w))
    as (w' & d & Hlink & Hd & Hsub & _); [by rewrite deref_insert |].
  rewrite deref_insert in Hsub.
  exists w', d. split; [| done].
  cbn [stream DUnpickler_load]. unfold bind at 1, ret at 1.
  change (DUnpickler_persistent_load 5) with (VClass CMakeAny).
  unfold bind at 1. cbn [map_M DUnpickler_load].
  unfold bind at 1 2, ret at 1. unfold bind at 1 2 3.
  rewrite map_M_map.
  rewrite (map_M_pure _ (λ kv : string * value,
                           let '(k, v) := kv in (VStr k, v))).
  - fold l'. unfold bind at 1 2 3, ret at 1 2 3 4 5.
    change (DUnpickler_persistent_load (-1)) with VMgr.
    unfold bind at 1. unfold _make_any, bind at 1.
    unfold DObject___init__. cbn [base_type]. unfold bind at 1, ret at 1.
    unfold alloc. cbn [fst snd]. fold a. rewrite Hvals. fold d0.
    unfold ret. cbn [fst snd]. fold a. fold d0.
    unfold bind at 1. rewrite Hlink.
    subst l'. by rewrite str_keys_attrs.
  - rewrite Forall_forall. intros [k v] Hx.
    pose proof (plain_attr attrs k v Hp Hx) as Hv.
    cbn. unfold bind. by rewrite load_raw.
Qed.

(** The elements of a container, loaded in turn. *)
Lemma load_elements (l : list value) w :
  Forall (λ x, plain x = true →
               ∀ w, ∃ y w', DUnpickler_load (stream x) w = (Ok y, w') ∧
                            equal_on_new x y w w') l →
  forallb plain l = true →
  ∃ ys wn, map_M DUnpickler_load (map stream l) w = (Ok ys, wn) ∧
           Forall2 (λ x y, equal_on_new x y w wn) l ys.
Proof.
  intros IH Hp. rewrite map_M_map.
  destruct (map_M_thread (DUnpickler_load (B := B) ∘ stream) load_frame equal_on_new l
              load_frame_refl load_frame_trans equal_on_new_widen)
    with (w := w) as (ys & wn & Hrun & _ & Hys); [| by exists ys, wn].
  rewrite Forall_forall in IH |- *. intros x Hx w0.
  destruct (IH x Hx (plain_elem l x Hp Hx) w0) as (y & w' & Hr & HQ).
  exists y, w'. split; [done |]. split; [by eapply load_frame_of_load | done].
Qed.

(** The unpickler on the stream of a plain value returns, and what it
    returns is equal to the value. *)
Lemma load_stream x :
  plain x = true →
  ∀ w, ∃ y w', DUnpickler_load (stream x) w = (Ok y, w') ∧
               equal_on_new x y w w'.
Proof.
  assert (Hraw : ∀ v w, plain v = true → stream v = raw_stream v →
                        ∃ y w', DUnpickler_load (stream v) w = (Ok y, w') ∧
                                equal_on_new v y w w').
  { intros v w Hp Hs. exists v, w. rewrite Hs. split; [by apply load_raw |].
    intros h _. by apply sem_eq_refl. }
  induction x as [| | | | | | l IH | l IH | l IH | l IH | l IH | b | | c l IH
                 | | c l IH | | |] using value_nested_ind;
    intros Hp w; try done; try (by apply Hraw).
  - (* list *)
    cbn in Hp. cbn [stream]. set (a := fresh (dom (heap w))).
    destruct (load_elements l (set_heap (insert a (blank DList)) w) IH Hp)
      as (ys & wn & Hrun & Hys).
    destruct (load_dobject DList (PList (map stream l)) (VList ys) w wn)
      as (w' & d & Hload & Hd & Hsub & Hother).
    { cbn [DUnpickler_load]. unfold bind. fold a. by rewrite Hrun. }
    subst a. eexists _, w'. split; [done |]. intros h Hh.
    cbn [sem_eq seen].
    rewrite (Hh (fresh (dom (heap w)))), Hd;
      [| apply is_fresh | by apply elem_of_dom].
    cbn. rewrite Hsub. apply all2_Forall2.
    eapply Forall2_impl; [done |]. intros x y HQ. apply HQ.
    by eapply new_under.
  - (* set *)
    cbn in Hp. cbn [stream]. set (a := fresh (dom (heap w))).
    destruct (load_elements l (set_heap (insert a (blank DSet)) w) IH Hp)
      as (ys & wn & Hrun & Hys).
    destruct (load_dobject DSet (PSet (map stream l)) (VSet ys) w wn)
      as (w' & d & Hload & Hd & Hsub & Hother).
    { cbn [DUnpickler_load]. unfold bind. fold a. by rewrite Hrun. }
    subst a. eexists _, w'. split; [done |]. intros h Hh.
    cbn [sem_eq seen].
    rewrite (Hh (fresh (dom (heap w)))), Hd;
      [| apply is_fresh | by apply elem_of_dom].
    cbn. rewrite Hsub. apply all2_Forall2.
    eapply Forall2_impl; [done |]. intros x y HQ. apply HQ.
    by eapply new_under.
  - (* dict *)
    cbn in Hp. cbn [stream]. set (a := fresh (dom (heap w))).
    set (load_item := λ kv : pk * pk,
           match kv with
           | (k, v) =>
               let! k' := DUnpickler_load (B := B) k in
               let! v' := DUnpickler_load v in
               ret (k', v')
           end).
    destruct (map_M_thread
                (load_item ∘ (λ kv : value * value,
                                let '(k, v) := kv in (stream k, stream v)))
                load_frame
                (λ kv kv' w w', equal_on_new kv.1 kv'.1 w w' ∧
                                equal_on_new kv.2 kv'.2 w w')
                l load_frame_refl load_frame_trans)
      with (w := set_heap (insert a (blank DDict)) w)
      as (ys & wn & Hrun & _ & Hys).
    { intros kv kv' w0 w1 w2 w3 H01 H12 H23 [HQ1 HQ2].
      split; by apply (equal_on_new_widen _ _ w0 w1 w2 w3). }
    { rewrite Forall_forall in IH |- *. intros [k v] Hx w0.
      destruct (IH _ Hx) as [IHk IHv]. cbn in IHk, IHv.
      destruct (plain_item l k v Hp Hx) as [Hk Hv].
      destruct (IHk Hk w0) as (k' & w1 & Hrk & HQk).
      destruct (IHv Hv w1) as (v' & w2 & Hrv & HQv).
      pose proof (load_frame_of_load _ _ _ _ Hrk) as Hfk.
      pose proof (load_frame_of_load _ _ _ _ Hrv) as Hfv.
      exists (k', v'), w2. cbn. unfold bind. rewrite Hrk, Hrv.
      split; [done |]. split; [by eapply load_frame_trans |]. split.
      - by apply (equal_on_new_widen k k' w0 w0 w1 w2);
          [apply load_frame_refl | | |].
      - by apply (equal_on_new_widen v v' w0 w1 w2 w2);
          [| | apply load_frame_refl |]. }
    destruct (load_dobject DDict
                (PDict (map (λ kv, let '(k, v) := kv in (stream k, stream v)) l))
                (VDict ys) w wn)
      as (w' & d & Hload & Hd & Hsub & Hother).
    { cbn [DUnpickler_load]. fold load_item. unfold bind at 1.
      rewrite map_M_map. fold a. by rewrite Hrun. }
    subst a. eexists _, w'. split; [done |]. intros h Hh.
    cbn [sem_eq seen].
    rewrite (Hh (fresh (dom (heap w)))), Hd;
      [| apply is_fresh | by apply elem_of_dom].
    cbn. rewrite Hsub. apply all2_Forall2.
    eapply Forall2_impl; [done |]. intros [k v] [k' v'] [HQk HQv].
    cbn in HQk, HQv. cbn.
    rewrite HQk by (by eapply new_under). by rewrite HQv by (by eapply new_under).
  - (* bytearray *)
    cbn [stream]. set (a := fresh (dom (heap w))).
    destruct (load_dobject DByteArray (PByteArray b) (VByteArray b) w
                (set_heap (insert a (blank DByteArray)) w))
      as (w' & d & Hload & Hd & Hsub & Hother); [done |].
    subst a. eexists _, w'. split; [done |]. intros h Hh.
    cbn [sem_eq seen].
    rewrite (Hh (fresh (dom (heap w)))), Hd;
      [| apply is_fresh | by apply elem_of_dom].
    cbn. rewrite Hsub. by apply bool_decide_eq_true_2.
  - (* user record *)
    cbn in Hp. destruct (load_record c l w Hp) as (w' & d & Hload & Hd & Hsub).
    eexists _, w'. split; [done |]. intros h Hh.
    cbn [sem_eq seen].
    rewrite (Hh (fresh (dom (heap w)))), Hd;
      [| apply is_fresh | by apply elem_of_dom].
    cbn. rewrite Hsub. rewrite bool_decide_eq_true_2 by done.
    rewrite bool_decide_eq_true_2 by (by rewrite !length_fmap).
    rewrite zip_fst_snd. cbn.
    apply all2_Forall2, Forall_Forall2_diag.
    rewrite Forall_forall. intros [k v] Hx.
    rewrite bool_decide_eq_true_2 by done. cbn.
    apply sem_eq_refl. by eapply plain_attr.
Qed.

(** C4: the round trip of the serialiser on a plain value [x] (scalars
    but NaN, tuples, frozensets, lists, sets, dicts, bytearrays and user
    records of such values) that is not nested deeper than the recursion
    limit allows.  [dump] returns, and the stream is [stream x]: lists,
    sets, dicts and bytearrays are saved as the distributed object they
    were promoted to, scalars as they are.  [load] of that stream returns,
    and what it returns is equal to [x], a proxy being compared by its
    sub-object. *)
Theorem round_trip x w :
  plain x = true →
  (2 * height x ≤ recursion_limit)%nat →
  ∃ w1 y w2,
    Manager_dump (Obj x) w = (Ok (stream x), w1) ∧
    Manager_load (Some (stream x)) w1 = (Ok y, w2) ∧
    sem_eq (heap w2) x y = true.
Proof.
  intros Hp Hn.
  destruct (make_pickable_plain x Hp w) as (p & w1 & Hmake & Hf & Hdump).
  destruct (load_stream x Hp w1) as (y & w2 & Hload & Heq).
  exists w1, y, w2. split; [| split; [done |]].
  - unfold Manager_dump, bind. rewrite Hmake.
    apply Hdump; [apply load_frame_refl | done].
  - by apply Heq.
Qed.

End RoundTrip.

(** [round_trip] on a list that holds a value of every plain kind, on a
    new Manager. *)
Lemma round_trip_witness :
  ∃ w1 y w2,
    Manager_dump (EV := env0) (Obj sample_value) new_inproc_world
      = (Ok (stream sample_value), w1) ∧
    Manager_load (Some (stream sample_value)) w1 = (Ok y, w2) ∧
    sem_eq (heap w2) sample_value y = true.
Proof.
  apply (round_trip (EV := env0) sample_value new_inproc_world).
  - vm_compute. reflexivity.
  - vm_compute. lia.
Defined.

(** The root of a Manager after [write ([1])] is a distributed list that
    the Manager has linked.  [dump] of it returns; [load] of the stream
    raises ValueError: the stream carries the xid of the root, and [link]
    refuses a second object under an xid of the staging map. *)
Lemma linked_object_fails_round_trip :
  let w := inproc_world_written in
  let d := Manager_dump (EV := env0) (root_obj (mgr w)) w in
  root_obj (mgr w) = Obj (VRef 1%nat) ∧
  cls (deref w 1%nat) = DList ∧
  subobj (deref w 1%nat) = VList [VInt 1] ∧
  (Manager_is_linked (VRef 1%nat) w).1 = Ok true ∧
  d.1 = Ok (PNewObj (PPersId 0)
                    (PTuple [PList [PInt 1]; PInt 1; PPersId (-1)])) ∧
  (Manager_load (match d.1 with Ok p => Some p | Raise _ => None end) d.2).1
    = Raise ValueError.
Proof.
  intros w d.
  split; [vm_compute; reflexivity |]. split; [vm_compute; reflexivity |].
  split; [vm_compute; reflexivity |]. split; [vm_compute; reflexivity |].
  split; [vm_compute; reflexivity |]. vm_compute. reflexivity.
Qed.

(** * Further properties *)

(** ** The in-process backend *)

(** X1: a backend and its copy share what is stored.  What either object
    writes, at the version that [write] returns (the former version plus
    one), is what the other object reads next; the copy starts without an
    id. *)
Theorem inproc_copy_shares (self : InprocBackend) (new : blob) :
  let p := InprocPair_of self in
  let v := data_version (data self) + 1 in
  base_b p = BaseBackend_init ∧
  (on_a (InprocBackend_write new) p).1 = Ok v ∧
  (on_b InprocBackend_read (on_a (InprocBackend_write new) p).2).1
    = Ok (Some v, Some new) ∧
  (on_b (InprocBackend_write new) p).1 = Ok v ∧
  (on_a InprocBackend_read (on_b (InprocBackend_write new) p).2).1
    = Ok (Some v, Some new).
Proof. done. Qed.

(** X2: [try_write] on the in-process backend is a compare-and-swap on the
    version.  With another version than the one stored it answers False
    with the stored version and changes nothing; with the stored version
    it answers True with that version plus one, and a [read] that follows
    returns the new payload. *)
Theorem inproc_try_write_cas (b : InprocBackend) (new : blob) (expected : Z) :
  let r := InprocBackend_try_write new expected b in
  (data_version (data b) ≠ expected →
   r = (Ok (false, data_version (data b)), b)) ∧
  (data_version (data b) = expected →
   r.1 = Ok (true, expected + 1) ∧
   InprocBackend_read r.2 = (Ok (Some (expected + 1), Some new), r.2)).
Proof.
  unfold InprocBackend_try_write. split; intros Hv.
  - by rewrite bool_decide_eq_true_2.
  - rewrite bool_decide_eq_false_2 by (intros Hne; by apply Hne).
    by rewrite <- Hv.
Qed.

(** [inproc_try_write_cas] on a backend that holds nothing: the expected
    version 0 is accepted, the expected version 1 is not. *)
Lemma inproc_try_write_cas_witness :
  (InprocBackend_try_write PNone 1 InprocBackend_init
   = (Ok (false, 0), InprocBackend_init)) ∧
  (InprocBackend_try_write PNone 0 InprocBackend_init).1 = Ok (true, 1).
Proof.
  split.
  - apply (inproc_try_write_cas InprocBackend_init PNone 1). vm_compute. congruence.
  - apply (inproc_try_write_cas InprocBackend_init PNone 0). reflexivity.
Defined.

Lemma InprocBackend_call_version c (b : InprocBackend) :
  let b' := InprocBackend_call c b in
  data_version (data b) ≤ data_version (data b') ∧
  ((bvec (data b) = None ↔ data_version (data b) = 0) →
   0 ≤ data_version (data b) →
   bvec (data b') = None ↔ data_version (data b') = 0).
Proof.
  destruct c as [u | | new | new expected]; cbn.
  - unfold InprocBackend_set_id, lift_base.
    destruct (BaseBackend_set_id u (inproc_base b)). cbn. split; [lia | intros Hinv _; exact Hinv].
  - assert (Hsame : (InprocBackend_read b).2 = b)
      by (unfold InprocBackend_read; by destruct (bvec (data b))).
    rewrite Hsame. split; [lia | intros Hinv _; exact Hinv].
  - split; [lia |]. intros _ Hpos. split; [done | lia].
  - unfold InprocBackend_try_write. case_bool_decide; cbn; [split; [lia | intros Hinv _; exact Hinv] |].
    split; [lia |]. intros _ Hpos. split; [done | lia].
Qed.

(** X3: whatever the two objects of a pair call, in whatever order, the
    version of the data never goes down; and on a pair that started empty
    at version 0, the backend holds no payload exactly when the version
    is still 0, so that [read] answers (None, None) exactly as long as
    nothing was written. *)
Theorem inproc_version_grows (cs : list (bool * backend_call)) (p : InprocPair) :
  let p' := InprocPair_calls cs p in
  data_version (shared p) ≤ data_version (shared p') ∧
  ((bvec (shared p) = None ↔ data_version (shared p) = 0) →
   0 ≤ data_version (shared p) →
   (bvec (shared p') = None ↔ data_version (shared p') = 0) ∧
   ((on_a InprocBackend_read p').1 = Ok (None, None)
    ↔ data_version (shared p') = 0)).
Proof.
  revert p. induction cs as [| [who c] cs IH]; intros p; cbn zeta.
  - split; [done |]. intros Hinv Hpos. split; [done |].
    rewrite <- Hinv. unfold on_a, InprocBackend_read. cbn.
    destruct (bvec (shared p)); [split; intros [=] | done].
  - cbn [InprocPair_calls].
    set (p1 := ((if who then on_a _ else on_b _) p).2).
    assert (Hstep : data_version (shared p) ≤ data_version (shared p1) ∧
              ((bvec (shared p) = None ↔ data_version (shared p) = 0) →
               0 ≤ data_version (shared p) →
               bvec (shared p1) = None ↔ data_version (shared p1) = 0)).
    { subst p1. destruct who; unfold on_a, on_b; cbn;
        [apply (InprocBackend_call_version c (mkInprocBackend (base_a p) (shared p)))
        | apply (InprocBackend_call_version c (mkInprocBackend (base_b p) (shared p)))]. }
    destruct Hstep as [Hle Hkeep]. destruct (IH p1) as [Hle' Hkeep'].
    split; [lia |]. intros Hinv Hpos. apply Hkeep'; [by apply Hkeep | lia].
Qed.

(** [inproc_version_grows] on a new backend and its copy: the copy writes,
    the first object reads and tries to write with a stale version. *)
Lemma inproc_version_grows_witness :
  let p := InprocPair_of InprocBackend_init in
  let p' := InprocPair_calls [(false, CallWrite PNone); (true, CallRead);
                              (true, CallTryWrite PNone 0)] p in
  (bvec (shared p') = None ↔ data_version (shared p') = 0) ∧
  ((on_a InprocBackend_read p').1 = Ok (None, None)
   ↔ data_version (shared p') = 0).
Proof.
  intros p p'.
  apply (inproc_version_grows
           [(false, CallWrite PNone); (true, CallRead);
            (true, CallTryWrite PNone 0)] p).
  - vm_compute. split; reflexivity.
  - vm_compute. discriminate.
Defined.

(** X4: the wait of the watcher.  After a write of the first object, the
    wait of that object (entered at the former version) answers False: a
    participant is not told of its own write.  The wait of the other
    object answers True exactly when its id is not the id of the
    writer. *)
Theorem inproc_target_wait_after_write (p : InprocPair) (new : blob) :
  let v := data_version (shared p) in
  let p' := (on_a (InprocBackend_write new) p).2 in
  (on_a (InprocBackend_target_wait v) p').1 = Ok (Some false) ∧
  (on_b (InprocBackend_target_wait v) p').1
    = Ok (Some (bool_decide (base_unique_id (base_a p)
                             ≠ base_unique_id (base_b p)))) ∧
  (on_a (InprocBackend_target_wait v) p).1 = Ok None.
Proof.
  unfold on_a, on_b, InprocBackend_target_wait, InprocBackend_write,
    InprocBackend__notify. cbn.
  split; [| split].
  - rewrite bool_decide_eq_false_2 by lia.
    rewrite (bool_decide_eq_true_2 (_ < _)) by lia.
    by rewrite bool_decide_eq_false_2 by (intros Hne; by apply Hne).
  - rewrite bool_decide_eq_false_2 by lia.
    by rewrite (bool_decide_eq_true_2 (_ < _)) by lia.
  - by rewrite bool_decide_eq_true_2.
Qed.

(** ** The filesystem backend *)




(** ** The Manager: construction and identities *)

(** X7: a backend object serves one Manager.  Once [Manager (b)] has been
    tried, whether it returned or raised, a second [Manager (b)] on the
    same backend object raises ValueError, as [set_id] refuses to change
    the id; [Manager (b.copy ())] returns if the first one did, the copy
    having no id yet. *)
Theorem manager_per_backend_object (u1 u2 : uid) :
  (∀ b : InprocBackend,
     (Manager___init__ u2 (backend (Manager___init__ u1 b).2)).1
       = Raise ValueError) ∧
  (∀ b : FileBackend,
     (Manager___init__ u2 (backend (Manager___init__ u1 b).2)).1
       = Raise ValueError) ∧
  (∀ b : InprocBackend,
     (Manager___init__ u2
        (InprocBackend_copy (backend (Manager___init__ u1 b).2))).1 = Ok tt).
Proof.
  split; [| split]; intros b; unfold Manager___init__, on_backend; cbn.
  - unfold InprocBackend_set_id, lift_base, BaseBackend_set_id.
    destruct (base_unique_id (inproc_base b)) as [u |] eqn:Hu; cbn;
      [by rewrite Hu | done].
  - unfold FileBackend_set_id, lift_base, BaseBackend_set_id.
    destruct (base_unique_id (file_base b)) as [u |] eqn:Hu; cbn;
      [by rewrite Hu | done].
  - unfold InprocBackend_set_id, lift_base, BaseBackend_set_id.
    by destruct (base_unique_id (inproc_base b)).
Qed.

Section Identities.
Context {B : Type}.
Implicit Types (w : World B).

(** X8: [link] on an object that has no xid, in a Manager whose staging
    map has all its keys below the counter [_xid].  The object gets the
    value of the counter as its xid and is filed under it, the counter
    goes up by one, no entry of the staging map was replaced, and the keys
    are still below the counter. *)
Theorem link_assigns_fresh_xid (obj : addr) w :
  xid (deref w obj) = 0 →
  map_Forall (λ k _, k < _xid (mgr w)) (dict_at w (new_objmap (mgr w))) →
  ∃ w',
    Manager_link obj w = (Ok tt, w') ∧
    xid (deref w' obj) = _xid (mgr w) ∧
    _xid (mgr w') = _xid (mgr w) + 1 ∧
    dict_at w (new_objmap (mgr w)) !! _xid (mgr w) = None ∧
    dict_at w' (new_objmap (mgr w'))
      = <[_xid (mgr w) := obj]> (dict_at w (new_objmap (mgr w))) ∧
    map_Forall (λ k _, k < _xid (mgr w')) (dict_at w' (new_objmap (mgr w'))).
Proof.
  intros Hx Hkeys.
  assert (Hfree : dict_at w (new_objmap (mgr w)) !! _xid (mgr w) = None).
  { destruct (dict_at w (new_objmap (mgr w)) !! _xid (mgr w)) as [o |] eqn:Ho;
      [| done].
    apply Hkeys in Ho. cbn in Ho. lia. }
  unfold Manager_link, bind at 1, getattr at 1, gets at 1. cbn [fst snd].
  rewrite Hx, bool_decide_eq_true_2 by done.
  unfold Manager_xid, bind, mgr_get, mgr_set, setattr, modify, gets, ret.
  cbn [fst snd]. eexists. split; [done |].
  unfold deref, dict_at in *. cbn. rewrite !lookup_insert_eq. cbn.
  split; [done |]. split; [done |]. split; [done |].
  split; [done |]. apply map_Forall_insert_2; [lia |].
  eapply map_Forall_impl; [done |]. cbn. intros k _ Hk. lia.
Qed.

(** X9: [link] on an object that has an xid.  When the staging map holds
    another object under that xid, ValueError is raised and nothing has
    changed; when it holds the object itself, at the version of the
    Manager, [link] returns and nothing has changed either. *)
Theorem link_is_exclusive (obj other : addr) (d : DObject) w :
  heap w !! obj = Some d →
  xid d ≠ 0 →
  dict_at w (new_objmap (mgr w)) !! xid d = Some other →
  (other ≠ obj → Manager_link obj w = (Raise ValueError, w)) ∧
  (other = obj → dversion d = version (mgr w) →
   Manager_link obj w = (Ok tt, w)).
Proof.
  intros Hobj Hx Hother.
  assert (Hd : deref w obj = d) by (unfold deref; by rewrite Hobj).
  assert (Hrun : Manager_link obj w =
            (let! x := (if bool_decide (other ≠ obj) then raise ValueError
                        else ret (xid d)) in
             let! v := mgr_get version in
             setattr obj (with_dversion v) ;;
             modify (λ w, set_dicts
                            (insert (new_objmap (mgr w))
                                    (<[x := obj]> (dict_at w (new_objmap (mgr w)))))
                            w)) w).
  { unfold Manager_link, bind at 1, getattr at 1, gets at 1. cbn [fst snd].
    rewrite Hd, bool_decide_eq_false_2 by done.
    unfold bind at 1 2 5, gets at 1. cbn [fst snd]. by rewrite Hother. }
  rewrite Hrun. clear Hrun. split.
  - intros Hne. by rewrite bool_decide_eq_true_2.
  - intros -> Hv. rewrite bool_decide_eq_false_2 by (intros Hne; by apply Hne).
    unfold bind, mgr_get, setattr, modify, gets, ret. cbn [fst snd].
    f_equal. rewrite Hd.
    assert (Hsame : with_dversion (version (mgr w)) d = d).
    { rewrite <- Hv. by destruct d. }
    rewrite Hsame. destruct w as [h ds m b t]. unfold set_dicts, set_heap.
    cbn in *. f_equal.
    + by apply insert_id.
    + unfold dict_at in *. cbn in *.
      destruct (ds !! new_objmap m) as [dict |] eqn:Hdict; [| done].
      cbn in *. rewrite (insert_id dict) by done. by apply insert_id.
Qed.

End Identities.

(** [link_assigns_fresh_xid] on the object that [write ([1])] made before
    it pickled it, which has no xid: it gets the xid 2, next to the root
    under 1. *)
Lemma link_assigns_fresh_xid_witness :
  ∃ w',
    Manager_link 0%nat inproc_world_written = (Ok tt, w') ∧
    xid (deref w' 0%nat) = 2 ∧ _xid (mgr w') = 3 ∧
    dict_at w' (new_objmap (mgr w')) = {[1 := 1%nat; 2 := 0%nat]}.
Proof.
  destruct (link_assigns_fresh_xid 0%nat inproc_world_written)
    as (w' & Hrun & Hx & Hc & _ & Hd & _).
  - vm_compute. reflexivity.
  - apply (bool_decide_unpack _). vm_compute. exact I.
  - exists w'. split; [exact Hrun |]. split; [exact Hx |]. split; [exact Hc |].
    etransitivity; [exact Hd |]. vm_compute. reflexivity.
Defined.

(** [link_is_exclusive] on the root of a Manager, up to date after
    [write ([1])] and [root[0] = 0]: it can be linked again, and an object
    that claims its xid cannot. *)
Lemma link_is_exclusive_witness :
  let w := open_transaction_world in
  let claim := set_heap (insert 7%nat (mkDObject DList (VList []) 1 None 0)) w in
  Manager_link 1%nat w = (Ok tt, w) ∧
  Manager_link 7%nat claim = (Raise ValueError, claim).
Proof.
  intros w claim. split.
  - destruct (link_is_exclusive 1%nat 1%nat
                (mkDObject DList (VList [VInt 0]) 1 (Some this_mgr) 1) w)
      as [_ H]; [vm_compute; reflexivity | vm_compute; discriminate
                | vm_compute; reflexivity |].
    apply H; [reflexivity | vm_compute; reflexivity].
  - destruct (link_is_exclusive 7%nat 1%nat
                (mkDObject DList (VList []) 1 None 0) claim)
      as [H _]; [vm_compute; reflexivity | vm_compute; discriminate
                | vm_compute; reflexivity |].
    apply H. discriminate.
Defined.

(** ** The Manager: try_write and refresh *)

Section TryWrite.
Context {B : Type} {BK : Backend B} {EV : Env}.
Implicit Types (w : World B).

(** X10: a [try_write] that answers False has changed nothing of the
    Manager: its root, its version, its maps, its transaction record are
    the same, and so are its dicts. *)
Theorem try_write_refused_keeps_manager (obj : slot) (exp : option Z) w :
  (Manager_try_write obj exp w).1 = Ok false →
  mgr (Manager_try_write obj exp w).2 = mgr w ∧
  dicts (Manager_try_write obj exp w).2 = dicts w.
Proof.
  destruct (Manager_try_write obj exp w) as [res w'] eqn:Hrun. cbn.
  intros ->. revert Hrun. unfold Manager_try_write, bind at 1.
  assert (Hexp : ∃ v, (match exp with
                       | Some v => ret v
                       | None => mgr_get version
                       end) w = (Ok v, w)) by (destruct exp; by eexists).
  destruct Hexp as [v ->]. unfold bind at 1.
  destruct (pickle_frame_payload w obj) as (Hm & Hd & _).
  destruct (Manager__payload obj w) as [[payload | e] w1]; [| done].
  cbn in Hm, Hd. unfold bind at 1.
  pose proof (on_backend_mgr (backend_try_write payload v) w1) as Hm2.
  assert (Hd2 : dicts (on_backend (backend_try_write payload v) w1).2 = dicts w1).
  { unfold on_backend. by destruct (backend_try_write payload v (backend w1)). }
  destruct (on_backend (backend_try_write payload v) w1) as [[[ok v'] | e] w2];
    [| done].
  cbn in Hm2, Hd2. cbn [fst snd]. destruct ok.
  - unfold bind. destruct (Manager__load (Some payload) w2) as [[root | e] w3];
      [| done].
    by destruct (Manager__update v' root w3) as [[[] | e] w4].
  - cbn. intros [= <-]. split; congruence.
Qed.

End TryWrite.

(** [try_write_refused_keeps_manager] when another participant has written
    since the version that is expected. *)
Lemma try_write_refused_keeps_manager_witness :
  let w := concurrent_write nine_payload open_transaction_world in
  let r := Manager_try_write (EV := env0) (root_obj (mgr w)) (Some 1) w in
  r.1 = Ok false ∧ mgr r.2 = mgr w ∧ dicts r.2 = dicts w.
Proof.
  intros w r.
  assert (H : r.1 = Ok false) by (vm_compute; reflexivity).
  split; [exact H |].
  exact (try_write_refused_keeps_manager (EV := env0) (root_obj (mgr w))
           (Some 1) w H).
Defined.

Section Refresh.
Implicit Types (w : World InprocBackend).

Lemma Manager__load_backend {B} p (w : World B) :
  backend (Manager__load p w).2 = backend w ∧
  heap w ⊆ heap (Manager__load p w).2.
Proof.
  unfold Manager__load, bind, new_dict, mgr_set, modify. cbn [fst snd].
  set (w1 := set_mgr _ _).
  assert (Hf : load_frame w1 (Manager_load p w1).2).
  { unfold Manager_load. destruct p as [p |]; [| apply load_frame_refl].
    apply (load_frame_load w1 p w1), load_frame_refl. }
  destruct Hf as (Hh & _ & _ & _ & Hb & _). split; [done |].
  apply map_subseteq_spec. intros a d Ha. rewrite Hh; [done |].
  by apply elem_of_dom.
Qed.

Lemma set_backend_same {B} (w : World B) : set_backend (backend w) w = w.
Proof. by destruct w. Qed.

(** X11: [_refresh_locked] on the in-process backend is idempotent: when
    it has returned, a second call returns the same object and changes
    nothing, as the Manager is then at the version of the backend. *)
Theorem refresh_is_idempotent (dfl : slot) w (r : slot) w1 :
  Manager__refresh_locked dfl w = (Ok r, w1) →
  Manager__refresh_locked dfl w1 = (Ok r, w1).
Proof.
  unfold Manager__refresh_locked.
  unfold bind at 1, on_backend at 1. cbn [backend_read InprocBackend_Backend].
  unfold InprocBackend_read at 1.
  destruct (bvec (data (backend w))) as [p |] eqn:Hp.
  - rewrite set_backend_same. cbn [fst snd].
    unfold bind at 1, mgr_get at 1, gets at 1. cbn [fst snd].
    case_bool_decide as Hv.
    + intros [= <- <-]. unfold bind, on_backend, InprocBackend_read.
      rewrite Hp, set_backend_same. cbn.
      by rewrite bool_decide_eq_true_2.
    + unfold bind at 1, mgr_set at 1, modify at 1.
      unfold bind at 1, mgr_set at 1, modify at 1. cbn [fst snd].
      set (w0 := set_mgr _ (set_mgr _ w)). unfold bind at 1.
      destruct (Manager__load_backend (Some p) w0) as [Hb _].
      pose proof (load_keeps_manager (Some p) w0) as (Hver & _).
      destruct (Manager__load (Some p) w0) as [[r0 | e] w2]; [| done].
      cbn in Hb, Hver. unfold bind, mgr_set, mgr_get, modify, gets.
      cbn [fst snd]. intros [= <- <-]. cbn.
      unfold on_backend, InprocBackend_read. cbn. rewrite Hb. subst w0. cbn.
      rewrite Hp. cbn. rewrite Hver. cbn.
      rewrite bool_decide_eq_true_2 by lia. cbn. f_equal.
      rewrite <- Hb at 1. by destruct w2.
  - rewrite set_backend_same. cbn. intros [= <- <-].
    unfold bind, on_backend, InprocBackend_read. rewrite Hp.
    by rewrite set_backend_same.
Qed.

(** X12: when the payload of the backend cannot be loaded,
    [_refresh_locked] raises what the unpickler raised, after it has taken
    the version of the backend: the Manager keeps its former root and
    object map under the new version, and the refresh that comes next
    returns that former root without reading the payload again. *)
Theorem refresh_failed_load (dfl : slot) w (p : blob) (e : exn) :
  bvec (data (backend w)) = Some p →
  version (mgr w) < data_version (data (backend w)) →
  (∀ w' : World InprocBackend, (DUnpickler_load p w').1 = Raise e) →
  let r := Manager__refresh_locked dfl w in
  r.1 = Raise e ∧
  version (mgr r.2) = data_version (data (backend w)) ∧
  root_obj (mgr r.2) = root_obj (mgr w) ∧
  objmap (mgr r.2) = objmap (mgr w) ∧
  ∀ dfl', Manager__refresh_locked dfl' r.2 = (Ok (root_obj (mgr w)), r.2).
Proof.
  intros Hp Hv Hbad r. subst r.
  set (w0 := set_mgr (with_needs_update false)
               (set_mgr (with_version (data_version (data (backend w)))) w)).
  destruct (Manager__load_backend (Some p) w0) as [Hb _].
  pose proof (load_keeps_manager (Some p) w0) as (Hver & Hroot & Hmap & _).
  assert (Hfail : (Manager__load (Some p) w0).1 = Raise e).
  { unfold Manager__load, bind, new_dict, mgr_set, modify. cbn [fst snd].
    set (w1 := set_mgr _ _). pose proof (Hbad w1) as Hw1. unfold Manager_load.
    by destruct (DUnpickler_load p w1) as [[? | ?] ?]. }
  assert (Hrun : Manager__refresh_locked dfl w
                 = (Raise e, (Manager__load (Some p) w0).2)).
  { unfold Manager__refresh_locked.
    unfold bind at 1, on_backend at 1. cbn [backend_read InprocBackend_Backend].
    unfold InprocBackend_read at 1. rewrite Hp, set_backend_same. cbn [fst snd].
    unfold bind at 1, mgr_get at 1, gets at 1. cbn [fst snd].
    rewrite bool_decide_eq_false_2 by lia.
    unfold bind at 1, mgr_set at 1, modify at 1.
    unfold bind at 1, mgr_set at 1, modify at 1. cbn [fst snd].
    fold w0. unfold bind at 1.
    by destruct (Manager__load (Some p) w0) as [[r0 | e'] w2];
      cbn in Hfail; simplify_eq. }
  rewrite Hrun. clear Hrun Hfail.
  destruct (Manager__load (Some p) w0) as [res w2].
  cbn in Hb, Hver, Hroot, Hmap. cbn [fst snd].
  split; [done |]. split; [by rewrite Hver |].
  split; [by rewrite Hroot |]. split; [by rewrite Hmap |].
  intros dfl'. unfold Manager__refresh_locked, bind, on_backend.
  cbn. unfold InprocBackend_read. rewrite Hb. rewrite Hp. cbn. unfold mgr_get, gets. cbn.
  rewrite Hver. cbn. rewrite bool_decide_eq_true_2 by lia.
  rewrite <- Hb, set_backend_same. by rewrite Hroot.
Qed.

End Refresh.

(** [refresh_is_idempotent] for a participant that sees the list [9]
    written by another one. *)
Lemma refresh_is_idempotent_witness :
  let w := concurrent_write nine_payload inproc_world_written in
  let r := Manager__refresh_locked NIL w in
  r.1 = Ok (Obj (VRef 2%nat)) ∧ Manager__refresh_locked NIL r.2 = r.
Proof.
  intros w r.
  assert (H : r = (Ok (Obj (VRef 2%nat)), r.2)) by (vm_compute; reflexivity).
  split; [by rewrite H |].
  rewrite H at 2. apply (refresh_is_idempotent NIL w). exact H.
Defined.

(** [refresh_failed_load] when the other participant has stored a stream
    that names no class. *)
Lemma refresh_failed_load_witness :
  let w := concurrent_write (PNewObj PNone PNone) inproc_world_written in
  let r := Manager__refresh_locked NIL w in
  r.1 = Raise TypeError ∧ version (mgr r.2) = 2 ∧
  root_obj (mgr r.2) = Obj (VRef 1%nat) ∧
  Manager__refresh_locked NIL r.2 = (Ok (Obj (VRef 1%nat)), r.2).
Proof.
  intros w r.
  destruct (refresh_failed_load NIL w (PNewObj PNone PNone) TypeError)
    as (H1 & H2 & H3 & _ & H5);
    [vm_compute; reflexivity | vm_compute; reflexivity | intros w'; reflexivity |].
  split; [exact H1 |]. split; [exact H2 |]. split; [exact H3 |]. apply H5.
Defined.

(** ** Write on one participant, read on it and on another *)

Section Outermost.
Context {B : Type} {BK : Backend B} {EV : Env}.
Implicit Types (w : World B).

(** [with dmgr.transaction (): body] at the outermost level, with nothing
    traced, when the body returns, leaves the transaction record alone and
    no refresh is pending: the block returns what the body returned, the
    record is as it was and the Manager has no current transaction. *)
Lemma with_transaction_outermost {A} (body : M (World B) A) w (a : A) w1 :
  depth (_saved_tr (mgr w)) = 0 →
  objs (_saved_tr (mgr w)) = [] →
  body ((Manager_transaction ;; Transaction___enter__) w).2 = (Ok a, w1) →
  _saved_tr (mgr w1)
    = _saved_tr (mgr ((Manager_transaction ;; Transaction___enter__) w).2) →
  needs_update (mgr w1) = false →
  with_transaction body w = (Ok a, unlinked (leave w1)).
Proof.
  intros Hdepth Hobjs. unfold with_transaction.
  assert (Hin : ∃ w_in, (Manager_transaction ;; Transaction___enter__) w
                        = (Ok tt, w_in) ∧
                        depth (_saved_tr (mgr w_in)) = 1 ∧
                        objs (_saved_tr (mgr w_in)) = []).
  { unfold Manager_transaction, Transaction___enter__, bind, mgr_get, mgr_set,
      tr_get, modify, gets, ret. cbn [fst snd].
    destruct (cur_trans (mgr w)); cbn; rewrite Hdepth; cbn;
      eexists; (split; [done |]); cbn; by rewrite Hdepth. }
  destruct Hin as (w_in & Hin & Hd1 & Ho1).
  assert (Hpre : (Manager_transaction ;; Transaction___enter__ ;;
                  λ w0, match body w0 with
                        | (Ok a, w1) =>
                            match Transaction___exit__ None w1 with
                            | (Ok _, w2) => (Ok a, w2)
                            | (Raise e, w2) => (Raise e, w2)
                            end
                        | (Raise e, w1) =>
                            match Transaction___exit__ (Some e) w1 with
                            | (Ok _, w2) => (Raise e, w2)
                            | (Raise e', w2) => (Raise e', w2)
                            end
                        end) w
                 = match body w_in with
                   | (Ok a, w1) =>
                       match Transaction___exit__ None w1 with
                       | (Ok _, w2) => (Ok a, w2)
                       | (Raise e, w2) => (Raise e, w2)
                       end
                   | (Raise e, w1) =>
                       match Transaction___exit__ (Some e) w1 with
                       | (Ok _, w2) => (Raise e, w2)
                       | (Raise e', w2) => (Raise e', w2)
                       end
                   end).
  { revert Hin. unfold bind.
    destruct (Manager_transaction w) as [[[] | e] wa]; [| done].
    destruct (Transaction___enter__ wa) as [[[] | e] wb]; [| done].
    by intros [= ->]. }
  rewrite Hpre, Hin. cbn [snd]. intros Hbody Htr Hn. rewrite Hbody.
  rewrite exit_unfold by (by rewrite Htr).
  unfold bind at 1 2, Transaction_commit at 1, bind at 1, tr_get at 1,
    mgr_get at 1, gets at 1.
  cbn [fst snd leave mgr set_mgr with_tr _saved_tr objs].
  replace (objs (_saved_tr (mgr w1))) with (@nil (Z * (addr * value)))
    by (by rewrite Htr).
  unfold ret at 1. unfold bind at 1.
  rewrite unlink_no_deferred by done. done.
Qed.

End Outermost.

Section WriteRead.
Context {EV : Env}.
Implicit Types (w : World InprocBackend).

(** [write] of a plain value through the in-process backend. *)
Lemma write_plain (x : value) w :
  plain x = true →
  (2 * height x ≤ recursion_limit)%nat →
  ∃ y w',
    Manager_write (Obj x) w = (Ok tt, w') ∧
    backend w' =
      mkInprocBackend (inproc_base (backend w))
        (mkInprocData (data_version (data (backend w)) + 1) (Some (stream x))
                      (base_unique_id (inproc_base (backend w)))) ∧
    _saved_tr (mgr w') = _saved_tr (mgr w) ∧
    cur_trans (mgr w') = cur_trans (mgr w) ∧
    (version (mgr w) ≤ data_version (data (backend w)) →
     root_obj (mgr w') = Obj y ∧
     version (mgr w') = data_version (data (backend w)) + 1 ∧
     sem_eq (heap w') x y = true).
Proof.
  intros Hp Hn.
  destruct (make_pickable_plain x Hp w) as (p0 & w1 & Hmake & Hf1 & Hdump).
  assert (Hpay : Manager__payload (Obj x) w = (Ok (stream x), w1)).
  { unfold Manager__payload, Manager_dump, bind. rewrite Hmake.
    apply Hdump; [apply load_frame_refl | done]. }
  pose proof Hf1 as (_ & Hm1 & _ & _ & Hb1 & _).
  set (b' := mkInprocBackend (inproc_base (backend w))
               (mkInprocData (data_version (data (backend w)) + 1)
                             (Some (stream x))
                             (base_unique_id (inproc_base (backend w))))).
  set (w2 := set_backend b' w1).
  assert (Hwr : on_backend (backend_write (stream x)) w1
                = (Ok (data_version (data (backend w)) + 1), w2)).
  { unfold on_backend. cbn. unfold InprocBackend_write, InprocBackend__notify.
    by rewrite Hb1. }
  set (l := fresh (dom (dicts w2))).
  set (w2' := set_mgr (with_new_objmap l) (set_dicts (insert l ∅) w2)).
  destruct (load_stream x Hp w2') as (y & w3 & Hload & Heq).
  pose proof (load_frame_of_load _ _ _ _ Hload) as Hf3.
  pose proof Hf3 as (_ & Hm3 & _ & _ & Hb3 & _).
  assert (Hld : Manager__load (@Some blob (stream x)) w2 = (Ok y, w3)).
  { unfold Manager__load, Manager_load, bind, new_dict, mgr_set, modify.
    cbn [fst snd]. fold l. fold w2'. by rewrite Hload. }
  assert (Hver : version (mgr w3) = version (mgr w)).
  { apply (f_equal version) in Hm3, Hm1. cbn in Hm3, Hm1. congruence. }
  assert (Htr : _saved_tr (mgr w3) = _saved_tr (mgr w)).
  { apply (f_equal _saved_tr) in Hm3, Hm1. cbn in Hm3, Hm1. congruence. }
  assert (Hct : cur_trans (mgr w3) = cur_trans (mgr w)).
  { apply (f_equal cur_trans) in Hm3, Hm1. cbn in Hm3, Hm1. congruence. }
  assert (Hsem : sem_eq (heap w3) x y = true) by (by apply Heq).
  exists y, (Manager__update (data_version (data (backend w)) + 1) y w3).2.
  split.
  - unfold Manager_write. unfold bind at 1. rewrite Hpay.
    unfold bind at 1. rewrite Hwr. unfold bind at 1. rewrite Hld.
    unfold Manager__update, bind, mgr_get, mgr_set, modify, gets.
    cbn [fst snd]. by case_bool_decide.
  - unfold Manager__update, bind, mgr_get, mgr_set, modify, gets.
    cbn [fst snd]. rewrite Hver.
    case_bool_decide as Hgt; cbn; rewrite Hb3; cbn;
      (split; [done |]); (split; [done |]); (split; [done |]).
    + by intros _.
    + intros Hle. lia.
Qed.

(** [_refresh_locked] when the backend holds the stream of a plain value
    at a version that the Manager has not seen. *)
Lemma refresh_loads_plain (x : value) (dfl : slot) w :
  plain x = true →
  bvec (data (backend w)) = Some (stream x) →
  version (mgr w) < data_version (data (backend w)) →
  ∃ y w',
    Manager__refresh_locked dfl w = (Ok (Obj y), w') ∧
    root_obj (mgr w') = Obj y ∧
    version (mgr w') = data_version (data (backend w)) ∧
    needs_update (mgr w') = false ∧
    _saved_tr (mgr w') = _saved_tr (mgr w) ∧
    cur_trans (mgr w') = cur_trans (mgr w) ∧
    heap w ⊆ heap w' ∧
    sem_eq (heap w') x y = true.
Proof.
  intros Hp Hb Hv.
  set (w0 := set_mgr (with_needs_update false)
               (set_mgr (with_version (data_version (data (backend w)))) w)).
  set (l := fresh (dom (dicts w0))).
  set (w0' := set_mgr (with_new_objmap l) (set_dicts (insert l ∅) w0)).
  destruct (load_stream x Hp w0') as (y & w3 & Hload & Heq).
  pose proof (load_frame_of_load _ _ _ _ Hload) as Hf3.
  pose proof Hf3 as (Hh3 & Hm3 & _).
  assert (Hld : Manager__load (@Some blob (stream x)) w0 = (Ok y, w3)).
  { unfold Manager__load, Manager_load, bind, new_dict, mgr_set, modify.
    cbn [fst snd]. fold l. fold w0'. by rewrite Hload. }
  exists y. eexists. split.
  - unfold Manager__refresh_locked.
    unfold bind at 1, on_backend at 1. cbn [backend_read InprocBackend_Backend].
    unfold InprocBackend_read at 1. rewrite Hb, set_backend_same. cbn [fst snd].
    unfold bind at 1, mgr_get at 1, gets at 1. cbn [fst snd].
    rewrite bool_decide_eq_false_2 by lia.
    unfold bind at 1, mgr_set at 1, modify at 1.
    unfold bind at 1, mgr_set at 1, modify at 1. cbn [fst snd].
    fold w0. unfold bind at 1. rewrite Hld.
    unfold bind, mgr_set, mgr_get, modify, gets. cbn [fst snd]. done.
  - cbn. split; [done |].
    split; [by apply (f_equal version) in Hm3 |].
    split; [by apply (f_equal needs_update) in Hm3 |].
    split; [by apply (f_equal _saved_tr) in Hm3 |].
    split; [by apply (f_equal cur_trans) in Hm3 |].
    split; [| by apply Heq].
    apply map_subseteq_spec. intros a d Ha. rewrite Hh3; [done |].
    by apply elem_of_dom.
Qed.

(** X13: [write] then [read] on a Manager over the in-process backend
    that is not ahead of it.  For a plain value [x], [write] returns, the
    backend holds the stream of [x] at the next version, the Manager is at
    that version, and [read] returns, without changing anything, a root
    that is equal to [x]. *)
Theorem write_then_read (x : value) (dfl : slot) w :
  plain x = true →
  (2 * height x ≤ recursion_limit)%nat →
  version (mgr w) ≤ data_version (data (backend w)) →
  ∃ y w',
    Manager_write (Obj x) w = (Ok tt, w') ∧
    InprocBackend_read (backend w')
      = (Ok (Some (data_version (data (backend w)) + 1), Some (stream x)),
         backend w') ∧
    version (mgr w') = data_version (data (backend w)) + 1 ∧
    Manager_read dfl w' = (Ok (Obj y), w') ∧
    sem_eq (heap w') x y = true.
Proof.
  intros Hp Hn Hv.
  destruct (write_plain x w Hp Hn) as (y & w' & Hrun & Hb & _ & _ & Hroot).
  destruct (Hroot Hv) as (Hr & Hver & Hsem).
  exists y, w'. split; [done |]. split; [by rewrite Hb |]. split; [done |].
  split; [| done].
  unfold Manager_read, bind, mgr_get, gets. cbn [fst snd]. by rewrite Hr.
Qed.

(** X14: what one participant writes, another one gets.  The first
    Manager writes a plain value [x]; the second one, whose backend is a
    copy that shares the data, is outside of any transaction and has not
    seen that version.  Its [refresh] returns a root that is equal to
    [x], at the version that the write produced, and leaves no transaction
    open. *)
Theorem write_then_refresh_elsewhere (x : value) (dfl : slot) w1 w2 :
  plain x = true →
  (2 * height x ≤ recursion_limit)%nat →
  depth (_saved_tr (mgr w2)) = 0 →
  objs (_saved_tr (mgr w2)) = [] →
  version (mgr w2) ≤ data_version (data (backend w1)) →
  let w1' := (Manager_write (Obj x) w1).2 in
  let w2s := set_backend (mkInprocBackend (inproc_base (backend w2))
                                          (data (backend w1'))) w2 in
  ∃ y w2',
    Manager_refresh dfl w2s = (Ok (Obj y), w2') ∧
    root_obj (mgr w2') = Obj y ∧
    sem_eq (heap w2') x y = true ∧
    version (mgr w2') = data_version (data (backend w1)) + 1 ∧
    cur_trans (mgr w2') = false.
Proof.
  intros Hp Hn Hdepth Hobjs Hv w1' w2s.
  destruct (write_plain x w1 Hp Hn) as (y1 & w1'' & Hrun & Hb & _).
  assert (Hdata : data (backend w1')
                  = mkInprocData (data_version (data (backend w1)) + 1)
                      (Some (stream x))
                      (base_unique_id (inproc_base (backend w1)))).
  { subst w1'. rewrite Hrun. cbn. by rewrite Hb. }
  set (w_in := ((Manager_transaction ;; Transaction___enter__) w2s).2).
  assert (Hin : backend w_in = backend w2s ∧ version (mgr w_in) = version (mgr w2)).
  { subst w_in. unfold Manager_transaction, Transaction___enter__, bind,
      mgr_get, mgr_set, tr_get, modify, gets, ret. cbn [fst snd].
    by destruct (cur_trans (mgr w2s)); cbn;
      destruct (bool_decide (depth (_saved_tr (mgr w2)) = 0)). }
  destruct Hin as [Hbin Hvin].
  destruct (refresh_loads_plain x dfl w_in Hp)
    as (y & w3 & Hrefresh & Hroot & Hver & Hnu & Htr & _ & _ & Hsem).
  { rewrite Hbin. subst w2s. cbn. by rewrite Hdata. }
  { rewrite Hbin, Hvin. subst w2s. cbn. rewrite Hdata. cbn. lia. }
  exists y, (unlinked (leave w3)). split; [| split; [done | split; [done |]]].
  - unfold Manager_refresh.
    by apply (with_transaction_outermost (Manager__refresh_locked dfl) w2s).
  - split; [| done]. cbn. rewrite Hver, Hbin. subst w2s. cbn.
    by rewrite Hdata.
Qed.

End WriteRead.

(** [write_then_read] for a list that holds a value of every plain kind,
    on a new Manager. *)
Lemma write_then_read_witness :
  ∃ y w',
    Manager_write (EV := env0) (Obj sample_value) new_inproc_world = (Ok tt, w') ∧
    version (mgr w') = 1 ∧
    Manager_read (EV := env0) NIL w' = (Ok (Obj y), w') ∧
    sem_eq (heap w') sample_value y = true.
Proof.
  destruct (write_then_read (EV := env0) sample_value NIL new_inproc_world)
    as (y & w' & H1 & _ & H3 & H4 & H5);
    [vm_compute; reflexivity | vm_compute; lia | vm_compute; discriminate |].
  exists y, w'. split; [exact H1 |]. split; [exact H3 |]. split; [exact H4 |].
  exact H5.
Defined.

(** [write_then_refresh_elsewhere] for the list [1, 2, 3]: a new Manager
    writes it, a second new Manager over a copy of the backend refreshes. *)
Lemma write_then_refresh_elsewhere_witness :
  let x := VList [VInt 1; VInt 2; VInt 3] in
  let w1' := (Manager_write (EV := env0) (Obj x) new_inproc_world).2 in
  let w2s := set_backend
               (mkInprocBackend (inproc_base (backend second_inproc_world))
                                (data (backend w1')))
               second_inproc_world in
  ∃ y w2',
    Manager_refresh (EV := env0) NIL w2s = (Ok (Obj y), w2') ∧
    sem_eq (heap w2') x y = true ∧ version (mgr w2') = 1.
Proof.
  intros x w1' w2s.
  destruct (write_then_refresh_elsewhere (EV := env0) x NIL new_inproc_world
              second_inproc_world)
    as (y & w2' & H1 & _ & H3 & H4 & _);
    [vm_compute; reflexivity | vm_compute; lia | vm_compute; reflexivity
    | vm_compute; reflexivity | vm_compute; discriminate |].
  exists y, w2'. split; [exact H1 |]. split; [exact H3 |]. exact H4.
Defined.

(** ** What the serialiser leaves alone *)

Section SerialiserFrames.
Context {B : Type} {BK : Backend B} {EV : Env}.
Implicit Types (w : World B).

(** X15: [Manager.load] only makes objects.  Whatever the payload, and
    whether it returns or raises, the objects that existed are untouched,
    the Manager is the same but for its counter of xids, every dict other
    than the staging map [new_objmap] is the same, and the backend is not
    called. *)
Theorem load_only_makes_objects (payload : option blob) w :
  load_frame w (Manager_load payload w).2.
Proof.
  unfold Manager_load. destruct payload as [p |]; [| apply load_frame_refl].
  apply (load_frame_load w p w), load_frame_refl.
Qed.

(** X16: [Manager.dump] changes neither the Manager, nor its dicts, nor
    the backend, whatever the object and whether it returns or raises; it
    can add objects (the containers it promotes) and bring proxies up to
    date, and every object that existed keeps its class and its xid. *)
Theorem dump_keeps_manager (obj : slot) w :
  pickle_frame w (Manager_dump obj w).2.
Proof. apply (pickle_frame_payload w obj). Qed.

End SerialiserFrames.

(** ** Persistent ids *)

(** X17: the persistent ids of the pickler and of the unpickler agree.
    When [persistent_id] answers [pid] for an object, the pickler saves the
    object as that id, changing nothing, and [persistent_load (pid)] is
    the object.  An id out of the range of [_DTYPES] loads as None. *)
Theorem persistent_id_round_trip {B}
    (obj : value) (pid : Z) (n : nat) (w : World B) :
  ((DPickler_persistent_id obj w).1 = Ok (Some pid) →
   DUnpickler_persistent_load pid = obj ∧
   DPickler_dump (S n) obj w = (Ok (PPersId pid), w)) ∧
  (pid < -6 ∨ 5 < pid → DUnpickler_persistent_load pid = VNone).
Proof.
  split.
  - destruct obj; try done.
    + cbn. unfold bind. by destruct (_ensure_latest_subobj a w) as [[? | ?] ?].
    + destruct c as [c | k |]; [done | by destruct k; intros [= <-] |].
      by intros [= <-].
    + by intros [= <-].
  - intros Hpid. unfold DUnpickler_persistent_load.
    rewrite (bool_decide_eq_false_2 (pid = -1)) by lia.
    destruct (bool_decide (pid < 0)) eqn:Hneg.
    + apply bool_decide_eq_true in Hneg.
      by rewrite bool_decide_eq_false_2 by lia.
    + apply bool_decide_eq_false in Hneg.
      rewrite bool_decide_eq_true_2 by lia.
      destruct (Z.to_nat pid) as [| [| [| [| [| [| m]]]]]] eqn:Hm; try lia.
      done.
Qed.

(** [persistent_id_round_trip] for the class DDict and for the id 6. *)
Lemma persistent_id_round_trip_witness :
  (DUnpickler_persistent_load 2 = VClass (CDType DDict) ∧
   DPickler_dump 1 (VClass (CDType DDict)) new_inproc_world
     = (Ok (PPersId 2), new_inproc_world)) ∧
  DUnpickler_persistent_load 6 = VNone.
Proof.
  split.
  - apply (persistent_id_round_trip (VClass (CDType DDict)) 2 0
             new_inproc_world). reflexivity.
  - apply (persistent_id_round_trip VNone 6 0 new_inproc_world).
    right. vm_compute. reflexivity.
Defined.

(** ** Transactions: nesting, tracing, the deadline *)

Section Nesting.
Context {B : Type} {BK : Backend B} {EV : Env}.
Implicit Types (w : World B).

(** A nested [with dmgr.transaction ():] block. *)
Lemma with_transaction_nested {A} (body : M (World B) A) w
    (r : result A) w1 :
  cur_trans (mgr w) = true →
  1 ≤ depth (_saved_tr (mgr w)) →
  body (set_mgr (with_tr (λ t, mkTransaction (objs t) (depth t + 1) (tversion t)))
                w) = (r, w1) →
  depth (_saved_tr (mgr w1)) = depth (_saved_tr (mgr w)) + 1 →
  with_transaction body w = (r, leave w1).
Proof.
  intros Hcur Hdepth Hbody Hd1.
  assert (Hexit : ∀ exc, Transaction___exit__ exc w1 = (Ok false, leave w1)).
  { intros exc. unfold Transaction___exit__.
    unfold bind at 1, mgr_set at 1, modify at 1. fold (leave w1).
    unfold bind at 1, tr_get at 1, mgr_get at 1, gets at 1. cbn [fst snd].
    rewrite bool_decide_eq_false_2; [done |]. cbn. lia. }
  unfold with_transaction, bind at 1, Manager_transaction, bind at 1,
    mgr_get at 1, gets at 1. cbn [fst snd]. rewrite Hcur. cbn [negb].
  unfold ret at 1. unfold bind at 1, Transaction___enter__, bind at 1,
    tr_get at 1, mgr_get at 1, gets at 1. cbn [fst snd].
  rewrite bool_decide_eq_false_2 by lia.
  unfold bind at 1, ret at 1, mgr_set at 1, modify at 1. cbn [fst snd].
  rewrite Hbody. destruct r as [a | e]; by rewrite Hexit.
Qed.

(** X18: nested transactions are flat.  Inside a transaction, a nested
    [with dmgr.transaction ():] block only counts the depth up and down:
    whether its body returns or raises, the block ends with the outcome of
    the body in the state that the body left, with nothing committed,
    rolled back or unlinked.  The body may nest further, as long as it
    leaves the depth as it found it. *)
Theorem nested_transaction_is_flat {A} (body : M (World B) A) w
    (r : result A) w1 :
  cur_trans (mgr w) = true →
  1 ≤ depth (_saved_tr (mgr w)) →
  body (set_mgr (with_tr (λ t, mkTransaction (objs t) (depth t + 1) (tversion t)))
                w) = (r, w1) →
  depth (_saved_tr (mgr w1)) = depth (_saved_tr (mgr w)) + 1 →
  with_transaction body w = (r, leave w1).
Proof. apply with_transaction_nested. Qed.

(** X19: [trace_obj] then [is_traced].  Once an object has been traced it
    is traced, with the pre-image given last; the objects with another xid
    are traced as they were; and the object is dirty exactly when the
    Manager has a current transaction. *)
Theorem trace_then_is_traced (obj other : addr) (prev : value) w :
  let w' := (Transaction_trace_obj obj prev w).2 in
  (Transaction_is_traced obj w').1 = Ok true ∧
  dict_get (xid (deref w obj)) (traced w') = Some (obj, prev) ∧
  (xid (deref w other) ≠ xid (deref w obj) →
   (Transaction_is_traced other w').1 = (Transaction_is_traced other w).1) ∧
  (Manager_is_dirty (VRef obj) w').1 = Ok (cur_trans (mgr w)).
Proof.
  assert (Hset : ∀ (k : Z) (v : addr * value) d,
            dict_get k (dict_set k v d) = Some v ∧
            ∀ k', k' ≠ k → dict_get k' (dict_set k v d) = dict_get k' d).
  { intros k v d. induction d as [| [k0 v0] d [IH1 IH2]]; cbn.
    - rewrite bool_decide_eq_true_2 by done. split; [done |].
      intros k' Hk'. by rewrite bool_decide_eq_false_2.
    - case_bool_decide as Hk; cbn.
      + rewrite bool_decide_eq_true_2 by done. split; [done |].
        intros k' Hk'. subst k0. by rewrite !bool_decide_eq_false_2.
      + rewrite bool_decide_eq_false_2 by done. split; [done |].
        intros k' Hk'. case_bool_decide; [done | by apply IH2]. }
  unfold Transaction_trace_obj, Transaction_is_traced, Manager_is_dirty, traced,
    bind, getattr, mgr_get, mgr_set, modify, gets. cbn.
  destruct (Hset (xid (deref w obj)) (obj, prev) (objs (_saved_tr (mgr w))))
    as [Hk Hother].
  assert (Hderef : ∀ f a, deref (set_mgr f w) a = deref w a) by done.
  rewrite !Hderef, Hk. split; [done |]. split; [done |]. split.
  - intros Hne. by rewrite Hother.
  - destruct (cur_trans (mgr w)); [| done].
    unfold Transaction_is_traced, gets. cbn. by rewrite Hderef, Hk.
Qed.


End Nesting.


(** [nested_transaction_is_flat] for a nested block that raises, inside
    the transaction where [root[0] = 0] was made: the block ends with the
    exception, and the change is still there, traced. *)
Lemma nested_transaction_is_flat_witness :
  with_transaction (EV := env0) (A := value) (raise (UserError 1))
                   open_transaction_world
  = (Raise (UserError 1),
     leave (set_mgr (with_tr (λ t, mkTransaction (objs t) (depth t + 1)
                                                 (tversion t)))
                    open_transaction_world)).
Proof.
  apply (nested_transaction_is_flat (EV := env0));
    [vm_compute; reflexivity | vm_compute; discriminate | reflexivity
    | vm_compute; reflexivity].
Defined.


(** [trace_then_is_traced] in the transaction where [root[0] = 0] was
    made: the object made by [write] before it pickled, which has no xid,
    is traced with the pre-image [5], and the root stays traced. *)
Lemma trace_then_is_traced_witness :
  let w := open_transaction_world in
  let w' := (Transaction_trace_obj 0%nat (VInt 5) w).2 in
  dict_get 0 (traced w') = Some (0%nat, VInt 5) ∧
  (Transaction_is_traced 1%nat w').1 = Ok true.
Proof.
  intros w w'.
  destruct (trace_then_is_traced 0%nat 1%nat (VInt 5) w) as (_ & H2 & H3 & _).
  split; [exact H2 |].
  etransitivity; [apply H3; vm_compute; discriminate |].
  vm_compute. reflexivity.
Defined.

(** ** Proxies: the read path *)

Section ReadPath.
Context {B : Type}.
Implicit Types (w : World B).

(** X21: [_ensure_latest_subobj] settles a proxy.  It always returns, and
    what it returns is the sub-object that the proxy holds afterwards; the
    proxy is then detached or at the version of the Manager, so that a
    second call returns the same and changes nothing.  Nothing but the
    proxy is written: not the Manager, its dicts, the backend or another
    object. *)
Theorem ensure_latest_settles (self : addr) w :
  let r := _ensure_latest_subobj self w in
  r.1 = Ok (subobj (deref r.2 self)) ∧
  _ensure_latest_subobj self r.2 = r ∧
  (dmgr (deref r.2 self) = None ∨
   dversion (deref r.2 self) = version (mgr r.2)) ∧
  mgr r.2 = mgr w ∧ dicts r.2 = dicts w ∧ backend r.2 = backend w ∧
  ∀ a, a ≠ self → heap r.2 !! a = heap w !! a.
Proof.
  assert (Hfast : ∀ w0,
            bool_decide (dmgr (deref w0 self) = None)
            || bool_decide (dversion (deref w0 self) = version (mgr w0)) = true →
            _ensure_latest_subobj self w0 = (Ok (subobj (deref w0 self)), w0)).
  { intros w0 Hb. unfold _ensure_latest_subobj, bind, getattr, gets, mgr_get.
    cbn. by rewrite Hb. }
  destruct (bool_decide (dmgr (deref w self) = None)
            || bool_decide (dversion (deref w self) = version (mgr w)))
    eqn:Hb.
  - cbn zeta. rewrite (Hfast w Hb). cbn [fst snd]. rewrite (Hfast w Hb).
    split; [done |]. split; [done |]. split; [| done].
    apply orb_true_iff in Hb as [Hb | Hb]; apply bool_decide_eq_true in Hb;
      [by left | by right].
  - assert (Hrun : _ensure_latest_subobj self w =
              match dict_at w (objmap (mgr w)) !! xid (deref w self) with
              | None =>
                  (Ok (subobj (deref w self)),
                   set_heap (insert self (with_dmgr None (deref w self))) w)
              | Some o =>
                  (Ok (subobj (deref w o)),
                   set_heap (insert self
                               (with_dversion (version (mgr w))
                                  (with_subobj (subobj (deref w o))
                                               (deref w self)))) w)
              end).
    { unfold _ensure_latest_subobj, bind, getattr, gets, mgr_get, setattr,
        modify. cbn. rewrite Hb.
      destruct (dict_at w (objmap (mgr w)) !! xid (deref w self)); cbn;
        [| done].
      rewrite !deref_insert. unfold set_heap. cbn. by rewrite insert_insert_eq. }
    cbn zeta. rewrite Hrun.
    destruct (dict_at w (objmap (mgr w)) !! xid (deref w self)) as [o |];
      cbn [fst snd].
    + rewrite Hfast by
        (rewrite deref_insert; cbn; apply orb_true_iff; right;
         by apply bool_decide_eq_true_2).
      rewrite deref_insert. cbn.
      split; [done |]. split; [done |]. split; [by right |].
      split; [done |]. split; [done |]. split; [done |].
      intros a Ha. by rewrite lookup_insert_ne.
    + rewrite Hfast by (by rewrite deref_insert).
      rewrite deref_insert. cbn.
      split; [done |]. split; [done |]. split; [by left |].
      split; [done |]. split; [done |]. split; [done |].
      intros a Ha. by rewrite lookup_insert_ne.
Qed.

End ReadPath.

(** ** Records rebuilt by the unpickler *)

Section Records.
Context {B : Type} {BK : Backend B} {EV : Env}.
Implicit Types (w : World B).

Lemma link_keeps (obj : addr) w w' :
  Manager_link obj w = (Ok tt, w') →
  dmgr (deref w' obj) = dmgr (deref w obj) ∧
  subobj (deref w' obj) = subobj (deref w obj).
Proof.
  unfold Manager_link, Manager_xid, bind, getattr, gets, mgr_get, mgr_set,
    setattr, modify, ret. cbn.
  case_bool_decide as Hx.
  - cbn. intros [= <-]. unfold deref. cbn. by rewrite !lookup_insert_eq.
  - destruct (dict_at w (new_objmap (mgr w)) !! xid (deref w obj)) as [t |];
      cbn; [case_bool_decide; [done |] |]; cbn; intros [= <-];
      unfold deref; cbn; by rewrite !lookup_insert_eq.
Qed.

(** X22: the attributes of a record rebuilt by [_make_any] are local.
    The DList that holds their values has no Manager, [link] does not
    give it one; so an assignment through a descriptor is made on the
    spot: it is read back by the descriptor, the other attributes are as
    they were, and neither the Manager (no transaction is opened, nothing
    is traced), nor its dicts, nor the backend have changed. *)
Theorem record_attributes_are_local (typ attrs : value) (c : pyclass)
    (keys : list string) (a : addr) w w' :
  _make_any typ attrs VMgr w = (Ok (VDAny c keys a), w') →
  dmgr (deref w' a) = None ∧
  ∃ vals,
    subobj (deref w' a) = VList vals ∧ length vals = length keys ∧
    ∀ (i : nat) (v : value), (i < length keys)%nat →
      let r := DDescriptor___set__ a i v w' in
      r.1 = Ok tt ∧
      (DDescriptor___get__ a i r.2).1 = Ok v ∧
      (∀ j, j ≠ i →
         (DDescriptor___get__ a j r.2).1 = (DDescriptor___get__ a j w').1) ∧
      mgr r.2 = mgr w' ∧ dicts r.2 = dicts w' ∧ backend r.2 = backend w'.
Proof.
  unfold _make_any. destruct attrs as [| | | | | | | | | | l | | | | | | | |];
    try done.
  unfold bind at 1, DObject___init__. cbn [base_type].
  unfold bind at 1, ret at 1, alloc. cbn [fst snd].
  set (a0 := fresh (dom (heap w))).
  set (wa := set_heap (insert a0 _) w).
  unfold bind at 1.
  destruct (Manager_link a0 wa) as [[[] | e] wl] eqn:Hlink; [| done].
  destruct (link_keeps a0 wa wl Hlink) as (Hdm & Hsub).
  subst wa. rewrite deref_insert in Hdm, Hsub. cbn in Hdm, Hsub.
  destruct (str_keys l) as [kl |] eqn:Hkl; [| done].
  destruct typ as [| | | | | | | | | | | | | | | | c0 | |]; try done.
  destruct c0 as [c0 | |]; try done.
  intros [= <- <- <- <-].
  assert (Hlen : length l.*2 = length kl.*1).
  { rewrite !length_fmap. unfold str_keys in Hkl.
    by apply length_mapM in Hkl. }
  split; [done |]. exists l.*2. split; [done |]. split; [done |].
  intros i v Hi.
  set (w2 := set_heap (insert a0 (with_subobj (VList (<[i := v]> l.*2))
                                              (deref wl a0))) wl).
  assert (Hset : DDescriptor___set__ a0 i v wl = (Ok tt, w2)).
  { unfold DDescriptor___set__, bind.
    rewrite detached_write by done. rewrite Hsub. cbn [list_setitem fst snd].
    by rewrite bool_decide_eq_true_2 by lia. }
  rewrite Hset. cbn [fst snd].
  assert (Hd2 : dmgr (deref w2 a0) = None ∧
                subobj (deref w2 a0) = VList (<[i := v]> l.*2)).
  { subst w2. by rewrite deref_insert. }
  destruct Hd2 as [Hdm2 Hsub2].
  assert (Hget : ∀ j w0, dmgr (deref w0 a0) = None →
            (DDescriptor___get__ a0 j w0).1 =
              match subobj (deref w0 a0) with
              | VList vals => match vals !! j with
                              | Some x => Ok x
                              | None => Raise IndexError
                              end
              | _ => Raise TypeError
              end).
  { intros j w0 Hw0. unfold DDescriptor___get__, bind.
    rewrite detached_ensure_latest by done.
    destruct (subobj (deref w0 a0)); try done.
    by destruct (l0 !! j). }
  split; [done |]. split; [| split; [| done]].
  - rewrite Hget, Hsub2 by done.
    by rewrite list_lookup_insert_eq by lia.
  - intros j Hj. rewrite !Hget, Hsub2, Hsub by done.
    by rewrite list_lookup_insert_ne.
Qed.

End Records.

(** [record_attributes_are_local] for a record with the attributes [x]
    and [y]: [y] is assigned 5 and read back. *)
Lemma record_attributes_are_local_witness :
  let made := _make_any (VClass (CUser ["Point"%string]))
                        (VDict [(VStr "x", VInt 1); (VStr "y", VInt 2)])
                        VMgr new_inproc_world in
  let r := DDescriptor___set__ (EV := env0) 0%nat 1 (VInt 5) made.2 in
  made.1 = Ok (VDAny ["Point"%string] ["x"%string; "y"%string] 0%nat) ∧
  r.1 = Ok tt ∧
  (DDescriptor___get__ 0%nat 1 r.2).1 = Ok (VInt 5) ∧
  mgr r.2 = mgr made.2.
Proof.
  intros made r.
  assert (Hmade : made = (Ok (VDAny ["Point"%string] ["x"%string; "y"%string]
                                    0%nat), made.2))
    by (vm_compute; reflexivity).
  destruct (record_attributes_are_local (EV := env0) _ _ _ _ _ _ _ Hmade)
    as (_ & vals & _ & _ & H).
  destruct (H 1%nat (VInt 5)) as (H1 & H2 & _ & H4 & _); [vm_compute; lia |].
  split; [by rewrite Hmade |]. split; [exact H1 |]. split; [exact H2 |].
  exact H4.
Defined.

(** ** The watcher *)

Section Watcher.
Context {EV : Env}.
Implicit Types (w : World InprocBackend).

(** X23: a change that the backend announces reaches the Manager at once
    outside of a transaction, and when the transaction is unlinked inside
    of one.  The backend holds the stream of a plain value [x] at a
    version that the Manager has not seen.  With no current transaction,
    the turn of the watcher leaves a root equal to [x] at that version.
    With a current transaction it only sets [needs_update]: the root, the
    version, the maps and every object are as they were; the [unlink] of
    the transaction then loads the root, clears [needs_update] and
    releases the transaction.  A turn on which the backend announced
    nothing does nothing. *)
Theorem watcher_refresh_is_deferred (x : value) w :
  plain x = true →
  bvec (data (backend w)) = Some (stream x) →
  version (mgr w) < data_version (data (backend w)) →
  Manager_watcher_step false w = (Ok tt, w) ∧
  (cur_trans (mgr w) = false →
   ∃ y w',
     Manager_watcher_step true w = (Ok tt, w') ∧
     root_obj (mgr w') = Obj y ∧ sem_eq (heap w') x y = true ∧
     version (mgr w') = data_version (data (backend w))) ∧
  (cur_trans (mgr w) = true →
   Manager_watcher_step true w = (Ok tt, set_mgr (with_needs_update true) w) ∧
   ∃ y w',
     Transaction_unlink (set_mgr (with_needs_update true) w) = (Ok tt, w') ∧
     root_obj (mgr w') = Obj y ∧ sem_eq (heap w') x y = true ∧
     version (mgr w') = data_version (data (backend w)) ∧
     needs_update (mgr w') = false ∧ cur_trans (mgr w') = false ∧
     objs (_saved_tr (mgr w')) = []).
Proof.
  intros Hp Hb Hv. split; [done |]. split.
  - intros Hcur.
    destruct (refresh_loads_plain x (Obj VNone) w Hp Hb Hv)
      as (y & w' & Hrun & Hroot & Hver & _ & _ & _ & _ & Hsem).
    exists y, w'. unfold Manager_watcher_step, bind, mgr_get, gets.
    cbn [fst snd]. rewrite Hcur, Hrun. done.
  - intros Hcur. split.
    + unfold Manager_watcher_step, bind, mgr_get, gets. cbn [fst snd].
      by rewrite Hcur.
    + set (w0 := set_mgr (with_tr (λ t, mkTransaction [] (depth t) (tversion t)))
                         (set_mgr (with_needs_update true) w)).
      destruct (refresh_loads_plain x (Obj VNone) w0 Hp Hb Hv)
        as (y & w' & Hrun & Hroot & Hver & Hnu & Htr & _ & _ & Hsem).
      exists y, (set_mgr (with_cur_trans false) w').
      unfold Transaction_unlink, bind at 1, mgr_set at 1, modify at 1.
      cbn [fst snd]. fold w0.
      unfold Manager_unlink_trans, bind at 1, mgr_get at 1, gets at 1.
      cbn [fst snd].
      assert (Hn : needs_update (mgr w0) = true) by done. rewrite Hn.
      unfold bind at 1 2. rewrite Hrun.
      split; [done |]. cbn. by rewrite Htr.
Qed.

End Watcher.

(** [watcher_refresh_is_deferred] while the transaction where
    [root[0] = 0] was made is open and another participant has written the
    list [9]. *)
Lemma watcher_refresh_is_deferred_witness :
  let w := concurrent_write (stream (VList [VInt 9])) open_transaction_world in
  Manager_watcher_step true w = (Ok tt, set_mgr (with_needs_update true) w) ∧
  ∃ y w',
    Transaction_unlink (set_mgr (with_needs_update true) w) = (Ok tt, w') ∧
    root_obj (mgr w') = Obj y ∧ sem_eq (heap w') (VList [VInt 9]) y = true.
Proof.
  intros w.
  destruct (watcher_refresh_is_deferred (VList [VInt 9]) w) as (_ & _ & H);
    [vm_compute; reflexivity | vm_compute; reflexivity
    | vm_compute; reflexivity |].
  destruct H as (H1 & y & w' & H2 & H3 & H4 & _); [vm_compute; reflexivity |].
  split; [exact H1 |]. exists y, w'. split; [exact H2 |]. split; [exact H3 |].
  exact H4.
Defined.


(** ** Mutations through a proxy *)

Section Mutation.
Context {B : Type} {BK : Backend B} {EV : Env}.
Implicit Types (w : World B).

Lemma rebased_twice (self : addr) (s s' : value) w :
  set_heap (insert self (with_subobj s' (deref (rebased self s w) self)))
           (rebased self s w)
  = rebased self s' w.
Proof.
  unfold rebased. rewrite deref_insert. unfold set_heap. cbn.
  by rewrite insert_insert_eq.
Qed.



End Mutation.


(** ** Mutations outside a transaction *)

Section AutoCommit.
Context {B : Type} {BK : Backend B} {EV : Env}.
Implicit Types (w : World B).

(** [try_write] leaves alone the transaction record and the two flags of
    the Manager, whatever it answers. *)
Lemma try_write_control obj ev w :
  objmap (mgr w) ∈ dom (dicts w) →
  _saved_tr (mgr (Manager_try_write obj ev w).2) = _saved_tr (mgr w) ∧
  needs_update (mgr (Manager_try_write obj ev w).2) = needs_update (mgr w) ∧
  cur_trans (mgr (Manager_try_write obj ev w).2) = cur_trans (mgr w).
Proof.
  intros Hdom. unfold Manager_try_write, bind.
  assert (Hev : ∃ v, (match ev with
                      | Some v => ret v
                      | None => mgr_get version
                      end) w = (Ok v, w)) by (destruct ev; by eexists).
  destruct Hev as [v ->].
  pose proof (pickle_frame_record _ _ (pickle_frame_payload w obj)) as H1.
  pose proof (pickle_frame_payload w obj) as (_ & Hd1 & _).
  destruct (Manager__payload obj w) as [[payload | e] w1]; cbn [fst snd] in *;
    [| by destruct H1 as (_ & ? & ? & ? & _)].
  assert (H2 : record_frame w1 (on_backend (backend_try_write payload v) w1).2).
  { unfold on_backend. destruct (backend_try_write payload v (backend w1)).
    by repeat split. }
  assert (Hd2 : dicts (on_backend (backend_try_write payload v) w1).2 = dicts w1).
  { unfold on_backend. by destruct (backend_try_write payload v (backend w1)). }
  pose proof (record_frame_trans _ _ _ H1 H2) as H12.
  destruct (on_backend (backend_try_write payload v) w1) as [[[ok v'] | e] w2];
    cbn [fst snd] in *; [| by destruct H12 as (_ & ? & ? & ? & _)].
  destruct ok; cbn [fst snd]; [| by destruct H12 as (_ & ? & ? & ? & _)].
  assert (H3 : record_frame w2 (Manager__load (Some payload) w2).2).
  { apply load_record_frame. destruct H2 as (-> & _). destruct H1 as (-> & _).
    by rewrite Hd2, Hd1. }
  pose proof (record_frame_trans _ _ _ H12 H3) as (_ & Ht & Hn & Hc & _).
  destruct (Manager__load (Some payload) w2) as [[root | e] w3];
    cbn [fst snd] in *; [| done].
  unfold Manager__update, bind, mgr_get, gets. cbn [fst snd].
  case_bool_decide; cbn; done.
Qed.

(** [with dmgr.transaction (): body] once the transaction is entered. *)
Lemma with_transaction_run {A} (body : M (World B) A) w0 w_in :
  (Manager_transaction ;; Transaction___enter__) w0 = (Ok tt, w_in) →
  with_transaction body w0
  = match body w_in with
    | (Ok a, w1) =>
        match Transaction___exit__ None w1 with
        | (Ok _, w2) => (Ok a, w2)
        | (Raise e, w2) => (Raise e, w2)
        end
    | (Raise e, w1) =>
        match Transaction___exit__ (Some e) w1 with
        | (Ok _, w2) => (Raise e, w2)
        | (Raise e', w2) => (Raise e', w2)
        end
    end.
Proof.
  unfold with_transaction, bind. intros Hin.
  destruct (Manager_transaction w0) as [[[] | e1] w1]; [| done].
  destruct (Transaction___enter__ w1) as [[[] | e2] w2]; [| done].
  by injection Hin as ->.
Qed.

(** A transaction opened for the trace of one proxy, outside any other
    transaction: the commit is issued at once, and what the backend
    answers decides between the two outcomes. *)
Lemma trace_outermost {A} (body : M (World B) A) (a : A)
    (self o : addr) (prev : value) w :
  cur_trans (mgr w) = false →
  depth (_saved_tr (mgr w)) = 0 →
  traced w = [] →
  needs_update (mgr w) = false →
  self ∈ dom (heap w) →
  dict_at w (objmap (mgr w)) !! xid (deref w self) = Some o →
  o ∈ dom (heap w) →
  xid (deref w o) = xid (deref w self) →
  (∀ w_in, heap w_in = heap w →
     body w_in = (Ok a, with_traced (xid (deref w self)) self prev w_in)) →
  ∃ w_c,
    backend w_c = backend w ∧ dicts w_c = dicts w ∧
    version (mgr w_c) = version (mgr w) ∧
    subobj (deref w_c self) = subobj (deref w self) ∧
    subobj (deref w_c o) = subobj (deref w self) ∧
    let t := Manager_try_write (root_obj (mgr w))
               (Some (version (mgr w))) w_c in
    (t.1 = Ok true → with_transaction body w = (Ok a, unlinked t.2)) ∧
    (t.1 ≠ Ok true →
     ∃ w', with_transaction body w = (Raise TransactionError, w') ∧
           backend w' = backend t.2 ∧
           subobj (deref w' self) = prev ∧ subobj (deref w' o) = prev ∧
           cur_trans (mgr w') = false ∧ traced w' = [] ∧
           depth (_saved_tr (mgr w')) = 0).
Proof.
  intros Hcur Hdepth Htr Hn Hself Ho Hodom Hox Hbody.
  set (x := xid (deref w self)) in *.
  set (w_in := set_mgr (with_tr (λ t, mkTransaction (objs t) (depth t + 1)
                                                    (tversion t)))
                 (set_mgr (with_tr (λ t, mkTransaction (objs t) (depth t)
                                                       (version (mgr w))))
                    (set_mgr (with_cur_trans true) w))).
  assert (Hin : (Manager_transaction ;; Transaction___enter__) w
                = (Ok tt, w_in)).
  { unfold Manager_transaction, Transaction___enter__, bind, mgr_get, mgr_set,
      tr_get, modify, gets, ret. cbn [fst snd]. rewrite Hcur. cbn.
    rewrite Hdepth. cbn. done. }
  set (w_tr := with_traced x self prev w_in).
  assert (Hd1 : depth (_saved_tr (mgr w_tr)) = 1).
  { cbn. rewrite Hdepth. done. }
  assert (Htraced : traced (leave w_tr) = [(x, (self, prev))]).
  { unfold traced in *. cbn. by rewrite Htr. }
  assert (Hok : traced_ok (leave w_tr)).
  { split.
    - rewrite Htraced. cbn. apply NoDup_singleton.
    - rewrite Htraced. apply Forall_singleton.
      split; [exact Hself |]. split; [done |].
      exists o. split; [exact Ho |]. split; [exact Hodom | exact Hox]. }
  assert (Hne : traced (leave w_tr) ≠ []) by (by rewrite Htraced).
  destruct (commit_spec (leave w_tr) Hok Hne) as (Hf & Hinst & Hyes & Hno).
  set (w_c := install_world (leave w_tr)) in *.
  pose proof Hf as (Hm & Hdi & Hb & _ & Hdom & _).
  assert (Hdomc : objmap (mgr w_c) ∈ dom (dicts w_c)).
  { rewrite Hm, Hdi. by apply traced_objmap_dom. }
  destruct (Hinst x self prev o) as [Hio His].
  { rewrite Htraced. apply list_elem_of_singleton. done. }
  { rewrite Hm. unfold dict_at in *. rewrite Hdi. exact Ho. }
  exists w_c. split; [by rewrite Hb |]. split; [by rewrite Hdi |].
  split; [by rewrite Hm |]. split; [exact His |]. split; [exact Hio |].
  cbn zeta.
  change (root_obj (mgr (leave w_tr))) with (root_obj (mgr w)) in *.
  change (tversion (_saved_tr (mgr (leave w_tr)))) with (version (mgr w)) in *.
  rewrite (with_transaction_run _ w w_in Hin).
  rewrite (Hbody w_in) by done. fold w_tr.
  rewrite exit_unfold by exact Hd1.
  destruct (try_write_control (root_obj (mgr w)) (Some (version (mgr w)))
              w_c Hdomc) as (_ & Hn2 & _).
  assert (Hnc : needs_update (mgr w_c) = false) by (rewrite Hm; exact Hn).
  split.
  - intros Ht. specialize (Hyes Ht).
    unfold bind at 1 2. rewrite Hyes. unfold bind at 1.
    rewrite unlink_no_deferred by (by rewrite Hn2). done.
  - intros Ht. destruct (Hno Ht) as (w3 & Hc & Hf3 & Hrb & Hrec).
    exists (unlinked w3).
    pose proof Hrec as (Hobj3 & Htr3 & Hn3 & _ & Hdict3 & _).
    split.
    { unfold bind at 1 2. rewrite Hc. unfold bind at 1.
      rewrite unlink_no_deferred by (rewrite Hn3; exact Hn). done. }
    destruct Hf3 as (_ & _ & Hb3 & _).
    split; [exact Hb3 |].
    destruct (Hrb x self prev o) as [Hp1 Hp2].
    { rewrite Htraced. apply list_elem_of_singleton. done. }
    { rewrite Hobj3, Hdict3. exact Ho. }
    split; [exact Hp1 |]. split; [exact Hp2 |].
    split; [done |]. split; [done |].
    cbn. rewrite Htr3. cbn. rewrite Hdepth. lia.
Qed.

(** X25: a mutation outside any transaction is committed at once, or
    undone.  The proxy has a Manager, its xid is a key of the object map
    and the method returns.  The proxy and its entry of the object map
    then hold what the method left, and [try_write] is issued for the root
    with the version of the Manager as the expected one.  When it answers
    True the call returns what the method returned.  When it does not, the
    call raises TransactionError, and the proxy and its entry of the
    object map hold again what the method started from.  In both cases no
    transaction is left open. *)
Theorem mutation_outside_transaction (self o : addr) (method : pymethod) w
    (d : DObject) (r s' : value) :
  cur_trans (mgr w) = false →
  depth (_saved_tr (mgr w)) = 0 →
  traced w = [] →
  needs_update (mgr w) = false →
  heap w !! self = Some d →
  dmgr d ≠ None →
  dict_at w (objmap (mgr w)) !! xid d = Some o →
  o ∈ dom (heap w) →
  xid (deref w o) = xid d →
  let stale := negb (bool_decide (dversion d = version (mgr w))) in
  let base := if stale then subobj (deref w o) else subobj d in
  method base = (Ok r, s') →
  ∃ w_c,
    backend w_c = backend w ∧
    version (mgr w_c) = version (mgr w) ∧
    subobj (deref w_c self) = s' ∧ subobj (deref w_c o) = s' ∧
    let t := Manager_try_write (root_obj (mgr w))
               (Some (version (mgr w))) w_c in
    (t.1 = Ok true →
     mutable_method self method w = (Ok r, unlinked t.2)) ∧
    (t.1 ≠ Ok true →
     ∃ w', mutable_method self method w = (Raise TransactionError, w') ∧
           backend w' = backend t.2 ∧
           subobj (deref w' self) = base ∧ subobj (deref w' o) = base ∧
           cur_trans (mgr w') = false ∧ traced w' = [] ∧
           depth (_saved_tr (mgr w')) = 0).
Proof.
  intros Hcur Hdepth Htr Hn Hself Hdm Ho Hodom Hox stale base Hmethod.
  assert (Hd : deref w self = d) by (unfold deref; by rewrite Hself).
  set (wr := rebased self s' w).
  assert (Hdr : deref wr self
                = with_subobj s' (with_dversion (version (mgr w)) d)).
  { unfold wr, rebased. by rewrite deref_insert, Hd. }
  assert (Hxr : xid (deref wr self) = xid d) by (by rewrite Hdr).
  assert (Hor : xid (deref wr o) = xid (deref wr self)).
  { rewrite Hxr. destruct (decide (o = self)) as [-> | Hne]; [done |].
    unfold wr, rebased. by rewrite deref_insert_ne. }
  assert (Hrun : ∀ A (body : M (World B) A) (a : A),
            (∀ w_in, heap w_in = heap wr →
               body w_in = (Ok a, with_traced (xid d) self base w_in)) →
            ∃ w_c,
              backend w_c = backend w ∧
              version (mgr w_c) = version (mgr w) ∧
              subobj (deref w_c self) = s' ∧ subobj (deref w_c o) = s' ∧
              let t := Manager_try_write (root_obj (mgr w))
                         (Some (version (mgr w))) w_c in
              (t.1 = Ok true →
               with_transaction body wr = (Ok a, unlinked t.2)) ∧
              (t.1 ≠ Ok true →
               ∃ w', with_transaction body wr = (Raise TransactionError, w') ∧
                     backend w' = backend t.2 ∧
                     subobj (deref w' self) = base ∧
                     subobj (deref w' o) = base ∧
                     cur_trans (mgr w') = false ∧ traced w' = [] ∧
                     depth (_saved_tr (mgr w')) = 0)).
  { intros A body a Hbody.
    destruct (trace_outermost body a self o base wr) as
      (w_c & Hb & _ & Hv & Hs1 & Hs2 & Hyes & Hno); try done.
    - unfold wr, rebased. cbn. apply elem_of_dom. rewrite lookup_insert_eq.
      done.
    - by rewrite Hxr.
    - unfold wr, rebased. cbn. rewrite dom_insert_L. set_solver.
    - intros w_in Hh. rewrite Hxr. by apply Hbody.
    - exists w_c. rewrite Hdr in Hs1, Hs2. cbn in Hs1, Hs2.
      split; [exact Hb |]. split; [exact Hv |]. split; [exact Hs1 |].
      split; [exact Hs2 |]. split; [exact Hyes | exact Hno]. }
  assert (Htrace : ∀ w_in : World B, heap w_in = heap wr →
            Transaction_trace_obj self base w_in
            = (Ok tt, with_traced (xid d) self base w_in)).
  { intros w_in Hh.
    unfold Transaction_trace_obj, bind, getattr, mgr_set, modify, gets.
    cbn [fst snd].
    assert (Hx : xid (deref w_in self) = xid d).
    { unfold deref. rewrite Hh. fold (deref wr self). exact Hxr. }
    by rewrite Hx. }
  destruct (dmgr d) as [m |] eqn:Hm; [| done].
  subst stale. destruct (bool_decide (dversion d = version (mgr w))) eqn:Hv.
  - (* the proxy is up to date *)
    apply bool_decide_eq_true in Hv. cbn [negb] in base. subst base.
    assert (Hsame : with_dversion (version (mgr w)) d = d)
      by (rewrite <- Hv; by destruct d).
    assert (Heq : mutable_method self method w
                  = (with_transaction (Transaction_trace_obj self (subobj d)) ;;
                     ret r) wr).
    { unfold mutable_method, _call_with_latest, bind at 1, getattr at 1,
        gets at 1.
      cbn [fst snd]. rewrite Hd. unfold id. rewrite Hm.
      unfold bind at 1, mgr_get at 1, gets at 1. cbn [fst snd].
      unfold bind at 1, mgr_get at 1, gets at 1. cbn [fst snd].
      rewrite bool_decide_eq_true_2 by done.
      unfold bind at 1, gets at 1. cbn [fst snd]. rewrite Ho.
      unfold bind at 1, Manager_is_dirty, bind at 1, mgr_get at 1, gets at 1.
      cbn [fst snd]. rewrite Hcur. unfold ret at 1. cbn [negb].
      unfold bind at 1 2, setattr at 1, modify at 1, ret at 1.
      cbn [fst snd]. unfold shallow_copy. rewrite Hd.
      assert (Hw0 : set_heap (insert self (with_subobj (subobj d) d)) w
                    = rebased self (subobj d) w).
      { unfold rebased. by rewrite Hd, Hsame. }
      rewrite Hw0. unfold bind at 1, call_on_subobj.
      assert (Hsub : subobj (deref (rebased self (subobj d) w) self)
                     = subobj d).
      { unfold rebased. by rewrite deref_insert. }
      rewrite Hsub, Hmethod, rebased_twice. done. }
    rewrite Heq.
    destruct (Hrun unit (Transaction_trace_obj self (subobj d)) tt Htrace)
      as (w_c & Hb & Hvc & Hs1 & Hs2 & Hyes & Hno).
    exists w_c. split; [exact Hb |]. split; [exact Hvc |].
    split; [exact Hs1 |]. split; [exact Hs2 |]. cbn zeta. split.
    + intros Ht. unfold bind at 1. by rewrite (Hyes Ht).
    + intros Ht. destruct (Hno Ht) as (w' & Hw' & Hrest).
      exists w'. split; [| exact Hrest]. unfold bind at 1. by rewrite Hw'.
  - (* the proxy is stale *)
    apply bool_decide_eq_false in Hv. cbn [negb] in base. subst base.
    assert (Heq : mutable_method self method w
                  = with_transaction
                      (Transaction_trace_obj self (subobj (deref w o)) ;; ret r)
                      wr).
    { unfold mutable_method, _call_with_latest, bind at 1, getattr at 1,
        gets at 1.
      cbn [fst snd]. rewrite Hd. unfold id. rewrite Hm.
      unfold bind at 1, mgr_get at 1, gets at 1. cbn [fst snd].
      unfold bind at 1, mgr_get at 1, gets at 1. cbn [fst snd].
      rewrite bool_decide_eq_false_2 by done.
      unfold bind at 1, mgr_get at 1, gets at 1. cbn [fst snd].
      unfold bind at 1, gets at 1. cbn [fst snd]. rewrite Ho.
      unfold bind at 1, getattr at 1, gets at 1. cbn [fst snd].
      unfold bind at 1, setattr at 1, modify at 1. cbn [fst snd].
      unfold bind at 1, setattr at 1, modify at 1. cbn [fst snd].
      unfold shallow_copy. rewrite deref_insert, Hd.
      assert (Hw0 : set_heap
                      (insert self (with_subobj (subobj (deref w o))
                                      (with_dversion (version (mgr w)) d)))
                      (set_heap
                         (insert self (with_dversion (version (mgr w)) d)) w)
                    = rebased self (subobj (deref w o)) w).
      { unfold rebased, set_heap. cbn. by rewrite insert_insert_eq, Hd. }
      rewrite Hw0. unfold bind at 1, call_on_subobj.
      assert (Hsub : subobj (deref (rebased self (subobj (deref w o)) w) self)
                     = subobj (deref w o)).
      { unfold rebased. by rewrite deref_insert. }
      rewrite Hsub, Hmethod, rebased_twice. done. }
    rewrite Heq.
    apply (Hrun value
             (Transaction_trace_obj self (subobj (deref w o)) ;; ret r) r).
    intros w_in Hh. unfold bind at 1. by rewrite (Htrace w_in Hh).
Qed.

End AutoCommit.

(** [mutation_outside_transaction] for [root[0] = 0] after
    [write ([1])], with no transaction open: the root proxy is its own
    entry of the object map, and it was linked before the Manager took
    the version of the write. *)
Lemma mutation_outside_transaction_witness :
  let w := inproc_world_written in
  ∃ w_c,
    backend w_c = backend w ∧
    version (mgr w_c) = version (mgr w) ∧
    subobj (deref w_c 1%nat) = VList [VInt 0] ∧
    subobj (deref w_c 1%nat) = VList [VInt 0] ∧
    let t := Manager_try_write (EV := env0) (root_obj (mgr w))
               (Some (version (mgr w))) w_c in
    (t.1 = Ok true →
     mutable_method (EV := env0) 1%nat set_first_zero w
     = (Ok VNone, unlinked t.2)) ∧
    (t.1 ≠ Ok true →
     ∃ w', mutable_method (EV := env0) 1%nat set_first_zero w
           = (Raise TransactionError, w') ∧
           backend w' = backend t.2 ∧
           subobj (deref w' 1%nat) = subobj (deref w 1%nat) ∧
           subobj (deref w' 1%nat) = subobj (deref w 1%nat) ∧
           cur_trans (mgr w') = false ∧ traced w' = [] ∧
           depth (_saved_tr (mgr w')) = 0).
Proof.
  intros w.
  assert (H1 : cur_trans (mgr w) = false) by (vm_compute; reflexivity).
  assert (H2 : depth (_saved_tr (mgr w)) = 0) by (vm_compute; reflexivity).
  assert (H3 : traced w = []) by (vm_compute; reflexivity).
  assert (H4 : needs_update (mgr w) = false) by (vm_compute; reflexivity).
  assert (H5 : heap w !! 1%nat
               = Some (mkDObject DList (VList [VInt 1]) 1 (Some this_mgr) 0))
    by (vm_compute; reflexivity).
  assert (H7 : dict_at w (objmap (mgr w)) !! 1 = Some 1%nat)
    by (vm_compute; reflexivity).
  assert (H8 : 1%nat ∈ dom (heap w)).
  { apply elem_of_dom. rewrite H5. by eexists. }
  assert (H9 : xid (deref w 1%nat) = 1) by (vm_compute; reflexivity).
  assert (Hs : negb (bool_decide (0 = version (mgr w))) = true)
    by (vm_compute; reflexivity).
  pose proof (mutation_outside_transaction (EV := env0) 1%nat 1%nat
                set_first_zero w _ VNone (VList [VInt 0]) H1 H2 H3 H4 H5
                ltac:(discriminate) H7 H8 H9
                ltac:(vm_compute; reflexivity)) as H.
  cbn [dversion subobj] in H. rewrite Hs in H. exact H.
Defined.
